(** * pbm.go: reading, transforming and saving PBM images

    A shallow embedding of [pbm.go] and of the parts of the Go standard
    library it calls ([bufio.Scanner], [fmt.Sscanf], [fmt.Fprintf],
    [unicode/utf8]), followed by the properties of the decoder, the
    encoder and the in-place transforms.

    Conventions.
    - A Go [string] is a sequence of bytes: [gostring := list ascii].
    - A Go [int] and a [rune] are integers in [Z]; every loop below stays
      far from the 64-bit bounds, which matter only where [strconv.ParseInt]
      checks them.
    - A method with a pointer receiver that mutates the image in place is a
      function [PBM -> option PBM]; [None] is the run-time panic of an index
      out of range.  Rows are distinct slices, as [ReadPBM] builds them. *)

From Stdlib Require Import ZArith Lia Ascii String.
From stdpp Require Import base option list strings.

(* ===================================================================== *)
(** * Bytes, strings and runes *)
(* ===================================================================== *)

Abbreviation byte := ascii (only parsing).
Abbreviation gostring := (list ascii) (only parsing).
Abbreviation rune := Z (only parsing).

(** A string literal of the source, as its bytes. *)
Definition str (s : string) : gostring := list_ascii_of_string s.

(** The numeric value of a byte, [0 <= code b < 256]. *)
Definition code (b : byte) : Z := Z.of_N (N_of_ascii b).

(** The conversion [byte(z)] of an integer in range. *)
Definition byte_of (z : Z) : byte := ascii_of_N (Z.to_N z).

Definition LF : byte := byte_of 10.
Definition CR : byte := byte_of 13.

(* ===================================================================== *)
(** * unicode/utf8 *)
(* ===================================================================== *)

Module utf8.
Local Open Scope Z_scope.

Definition RuneError : rune := 65533.   (* U+FFFD *)
Definition RuneSelf : Z := 128.
Definition MaxRune : rune := 1114111.   (* U+10FFFF *)
Definition surrogateMin : rune := 55296.
Definition surrogateMax : rune := 57343.

Definition locb : Z := 128.  (* 1000 0000 *)
Definition hicb : Z := 191.  (* 1011 1111 *)
Definition maskx : Z := 63.
Definition mask2 : Z := 31.
Definition mask3 : Z := 15.
Definition mask4 : Z := 7.

(** The entries of the table [first]: the size of the sequence in the low
    three bits, the index into [acceptRanges] in the high four. *)
Definition xx : Z := 241. (* 0xF1 invalid, size 1 *)
Definition as_ : Z := 240. (* 0xF0 ASCII, size 1 *)
Definition s1 : Z := 2.   (* 0x02 accept 0, size 2 *)
Definition s2 : Z := 19.  (* 0x13 accept 1, size 3 *)
Definition s3 : Z := 3.   (* 0x03 accept 0, size 3 *)
Definition s4 : Z := 35.  (* 0x23 accept 2, size 3 *)
Definition s5 : Z := 52.  (* 0x34 accept 3, size 4 *)
Definition s6 : Z := 4.   (* 0x04 accept 0, size 4 *)
Definition s7 : Z := 68.  (* 0x44 accept 4, size 4 *)

Definition first (b : Z) : Z :=
  if b <? 128 then as_        (* 0x00-0x7F *)
  else if b <? 194 then xx    (* 0x80-0xC1 *)
  else if b <? 224 then s1    (* 0xC2-0xDF *)
  else if b =? 224 then s2    (* 0xE0 *)
  else if b <? 237 then s3    (* 0xE1-0xEC *)
  else if b =? 237 then s4    (* 0xED *)
  else if b <? 240 then s3    (* 0xEE-0xEF *)
  else if b =? 240 then s5    (* 0xF0 *)
  else if b <? 244 then s6    (* 0xF1-0xF3 *)
  else if b =? 244 then s7    (* 0xF4 *)
  else xx.                    (* 0xF5-0xFF *)

Definition acceptRanges (i : Z) : Z * Z :=
  if i =? 0 then (locb, hicb)
  else if i =? 1 then (160, hicb)
  else if i =? 2 then (locb, 159)
  else if i =? 3 then (144, hicb)
  else if i =? 4 then (locb, 143)
  else (0, 0).

Definition cont (b : Z) : bool := (locb <=? b) && (b <=? hicb).

(** [utf8.DecodeRuneInString]: the first rune of [s] and its width in
    bytes; an invalid or short sequence is [(RuneError, 1)]. *)
Definition DecodeRune (s : gostring) : rune * nat :=
  match s with
  | [] => (RuneError, 0%nat)
  | b0 :: t =>
    let s0 := code b0 in
    let x := first s0 in
    if as_ <=? x then ((if x =? as_ then s0 else RuneError), 1%nat)
    else
      let sz := Z.to_nat (Z.land x 7) in
      let '(lo, hi) := acceptRanges (Z.shiftr x 4) in
      if (length s <? sz)%nat then (RuneError, 1%nat)
      else match t with
      | [] => (RuneError, 1%nat)
      | b1 :: t1 =>
        let c1 := code b1 in
        if (c1 <? lo) || (hi <? c1) then (RuneError, 1%nat)
        else if (sz <=? 2)%nat then
          (Z.lor (Z.shiftl (Z.land s0 mask2) 6) (Z.land c1 maskx), 2%nat)
        else match t1 with
        | [] => (RuneError, 1%nat)
        | b2 :: t2 =>
          let c2 := code b2 in
          if negb (cont c2) then (RuneError, 1%nat)
          else if (sz <=? 3)%nat then
            (Z.lor (Z.lor (Z.shiftl (Z.land s0 mask3) 12)
                          (Z.shiftl (Z.land c1 maskx) 6))
                   (Z.land c2 maskx), 3%nat)
          else match t2 with
          | [] => (RuneError, 1%nat)
          | b3 :: _ =>
            let c3 := code b3 in
            if negb (cont c3) then (RuneError, 1%nat)
            else
              (Z.lor (Z.lor (Z.lor (Z.shiftl (Z.land s0 mask4) 18)
                                   (Z.shiftl (Z.land c1 maskx) 12))
                            (Z.shiftl (Z.land c2 maskx) 6))
                     (Z.land c3 maskx), 4%nat)
          end
        end
      end
  end.

(** [utf8.AppendRune]: the UTF-8 encoding of a rune; a surrogate or a
    value out of range is encoded as [RuneError]. *)
Definition EncodeRune (r : rune) : gostring :=
  let three (r : rune) :=
    [ byte_of (Z.lor 224 (Z.shiftr r 12));
      byte_of (Z.lor 128 (Z.land (Z.shiftr r 6) maskx));
      byte_of (Z.lor 128 (Z.land r maskx)) ] in
  if r <? 0 then three RuneError
  else if r <=? 127 then [ byte_of r ]
  else if r <=? 2047 then
    [ byte_of (Z.lor 192 (Z.shiftr r 6)); byte_of (Z.lor 128 (Z.land r maskx)) ]
  else if (MaxRune <? r) || ((surrogateMin <=? r) && (r <=? surrogateMax))
  then three RuneError
  else if r <=? 65535 then three r
  else
    [ byte_of (Z.lor 240 (Z.shiftr r 18));
      byte_of (Z.lor 128 (Z.land (Z.shiftr r 12) maskx));
      byte_of (Z.lor 128 (Z.land (Z.shiftr r 6) maskx));
      byte_of (Z.lor 128 (Z.land r maskx)) ].

(** The runes a [for _, char := range s] loop visits: at each position
    one rune is decoded and the loop advances by its width (by one byte
    after an invalid sequence).  [skip] counts the bytes of the current
    rune still to pass over. *)
Fixpoint range_from (skip : nat) (s : gostring) : list rune :=
  match s with
  | [] => []
  | _ :: t =>
    match skip with
    | S k => range_from k t
    | O => let '(r, size) := DecodeRune s in r :: range_from (size - 1) t
    end
  end.

Definition runes (s : gostring) : list rune := range_from 0 s.
End utf8.

(* ===================================================================== *)
(** * bufio.Scanner with the default split function ScanLines *)
(* ===================================================================== *)

Module bufio.

(** [bufio.MaxScanTokenSize]: the buffer of a Scanner grows to 64 KiB and
    no further. *)
Definition MaxScanTokenSize : Z := 65536.

Inductive scanErr := EOF | ErrTooLong.

(** The state of a Scanner over a file: the bytes not yet consumed, the
    last token, and the sticky error. *)
Record Scanner := mkScanner {
  input : gostring;
  token : gostring;
  err : option scanErr
}.

Definition NewScanner (file : gostring) : Scanner :=
  {| input := file; token := []; err := None |}.

(** The bytes before the first newline, and what follows that newline
    ([None] when there is no newline). *)
Fixpoint break_line (s : gostring) : gostring * option gostring :=
  match s with
  | [] => ([], None)
  | c :: t =>
    if bool_decide (c = LF) then ([], Some t)
    else let '(l, r) := break_line t in (c :: l, r)
  end.

(** [dropCR]: drops one terminal carriage return. *)
Fixpoint dropCR (data : gostring) : gostring :=
  match data with
  | [] => []
  | [c] => if bool_decide (c = CR) then [] else [c]
  | c :: t => c :: dropCR t
  end.

(** [ScanLines] on the buffered bytes: a line ended by a newline, or at
    the end of the input the final line without one; [e] is the error to
    record when the input is exhausted. *)
Definition scanLine (data : gostring) (e : scanErr) (keep : option scanErr)
  : bool * Scanner :=
  let '(line, rest) := break_line data in
  match rest with
  | Some r => (true, {| input := r; token := dropCR line; err := keep |})
  | None =>
    match line with
    | [] => (false, {| input := []; token := []; err := Some e |})
    | _ => (true, {| input := []; token := dropCR line; err := Some e |})
    end
  end.

(** [Scanner.Scan].  A line is found when its newline (or the end of the
    file) comes within the [MaxScanTokenSize] bytes the buffer can hold;
    otherwise the scan stops with [ErrTooLong] and the token is empty.
    Once an error is set nothing more is read: the split function is
    offered what the buffer still holds ([atEOF] is [s.err != nil]), then
    every scan fails. *)
Definition Scan (s : Scanner) : bool * Scanner :=
  match err s with
  | None =>
    let '(line, _) := break_line (input s) in
    if (MaxScanTokenSize <=? Z.of_nat (length line))%Z then
      (false, {| input := take (Z.to_nat MaxScanTokenSize) line;
                 token := []; err := Some ErrTooLong |})
    else scanLine (input s) EOF None
  | Some e => scanLine (input s) e (Some e)
  end.

(** [Scanner.Text]. *)
Definition Text (s : Scanner) : gostring := token s.
End bufio.

(* ===================================================================== *)
(** * strconv and fmt: scanning and printing decimal integers *)
(* ===================================================================== *)

Module strconv.
Local Open Scope Z_scope.

Definition minInt64 : Z := - 2 ^ 63.
Definition maxInt64 : Z := 2 ^ 63 - 1.

Definition isDigit (r : rune) : bool := (48 <=? r) && (r <=? 57).

(** The loop of [strconv.ParseUint] in base 10: [n = n*10 + d] over the
    digits, a syntax error at any other character (in base 10 an
    underscore is one). *)
Fixpoint parseDigits (s : list rune) (n : Z) : option Z :=
  match s with
  | [] => Some n
  | c :: t => if isDigit c then parseDigits t (n * 10 + (c - 48)) else None
  end.

(** [strconv.ParseInt(tok, 10, 64)], the token given as its sign and the
    characters after it: a range error outside [int64]. *)
Definition ParseInt (neg : bool) (digits : list rune) : option Z :=
  match digits with
  | [] => None
  | _ =>
    match parseDigits digits 0 with
    | None => None
    | Some un =>
      let v := if neg then - un else un in
      if (minInt64 <=? v) && (v <=? maxInt64) then Some v else None
    end
  end.
End strconv.

Module fmt.
Local Open Scope Z_scope.

(** ** Scanning *)

(** The table [space] of fmt/scan.go. *)
Definition space : list (Z * Z) :=
  [ (9, 13); (32, 32); (133, 133); (160, 160); (5760, 5760);
    (8192, 8202); (8232, 8233); (8239, 8239); (8287, 8287);
    (12288, 12288) ].

Fixpoint isSpace_in (tbl : list (Z * Z)) (rx : Z) : bool :=
  match tbl with
  | [] => false
  | (lo, hi) :: t =>
    if rx <? lo then false
    else if rx <=? hi then true
    else isSpace_in t rx
  end.

Definition isSpace (r : rune) : bool :=
  if 65536 <=? r then false else isSpace_in space r.

Definition newline : rune := 10.
Definition carriage : rune := 13.

(** The characters [accept] takes for the verb [%d]. *)
Definition decimalDigits (r : rune) : bool :=
  strconv.isDigit r || (r =? 95).   (* "0123456789_" *)
Definition sign (r : rune) : bool := (r =? 43) || (r =? 45).  (* "+-" *)

(** [ss.SkipSpace] with [nlIsSpace = false], as [Sscanf] sets it: the
    input after the leading spaces, [None] for the error at a newline. *)
Fixpoint SkipSpace (inp : list rune) : option (list rune) :=
  match inp with
  | [] => Some []
  | r :: rest =>
    if (r =? carriage) && (match rest with c :: _ => c =? newline | [] => false end)
    then SkipSpace rest
    else if r =? newline then None
    else if isSpace r then SkipSpace rest
    else Some inp
  end.

(** The run of characters [accept(digits)] takes, and what follows it. *)
Fixpoint scanDigits (inp : list rune) : list rune * list rune :=
  match inp with
  | c :: rest =>
    if decimalDigits c then let '(tok, r) := scanDigits rest in (c :: tok, r)
    else ([], inp)
  | [] => ([], [])
  end.

(** [ss.scanInt('d', 64)]: skips spaces, takes an optional sign and a
    non-empty run of digits, and converts the token. *)
Definition scanInt (inp : list rune) : option (Z * list rune) :=
  inp ← SkipSpace inp;
  match inp with
  | [] => None                                         (* notEOF *)
  | c :: rest =>
    let '(neg, inp1) := if sign c then (c =? 45, rest) else (false, inp) in
    let '(tok, inp2) := scanDigits inp1 in
    match tok with
    | [] => None                                       (* expected integer *)
    | _ => v ← strconv.ParseInt neg tok; Some (v, inp2)
    end
  end.

(** The spaces [advance] skips for one space of the format. *)
Fixpoint skipBlank (inp : list rune) : list rune :=
  match inp with
  | c :: rest => if isSpace c && negb (c =? newline) then skipBlank rest else inp
  | [] => []
  end.

(** [ss.advance] over one space of the format that follows no newline: it
    must find a space, or the end of the input. *)
Definition advanceSpace (inp : list rune) : option (list rune) :=
  match inp with
  | [] => Some []
  | c :: _ =>
    if negb (isSpace c) then None
    else if c =? newline then None
    else Some (skipBlank inp)
  end.

(** [fmt.Sscanf(str, "%d %d", &a, &b)]: the number of operands stored,
    and the values of [a] and [b] afterwards.  An operand is stored as
    soon as it is scanned; after an error the others keep their values.
    (The scan state also stops after [1 << 30] runes; a line of the scanner
    is far shorter.) *)
Definition Sscanf_d_d (s : gostring) (a b : Z) : nat * Z * Z :=
  match (inp ← SkipSpace (utf8.runes s); scanInt inp) with
  | None => (0%nat, a, b)
  | Some (v1, inp) =>
    match (inp ← advanceSpace inp; inp ← SkipSpace inp; scanInt inp) with
    | None => (1%nat, v1, b)
    | Some (v2, _) => (2%nat, v1, v2)
    end
  end.

(** ** Printing *)

(** The digit loop of [fmt.fmtInteger] in base 10, right to left. *)
Fixpoint fmtDigits (fuel : nat) (u : Z) (buf : gostring) : gostring :=
  match fuel with
  | O => buf
  | S fuel' =>
    if 10 <=? u then fmtDigits fuel' (u / 10) (byte_of (48 + u mod 10) :: buf)
    else byte_of (48 + u) :: buf
  end.

(** The verb [%d] at an [int]: at most 19 digits and a sign. *)
Definition fmt_d (v : Z) : gostring :=
  let digits := fmtDigits 20 (Z.abs v) [] in
  if v <? 0 then byte_of 45 :: digits else digits.

(** The verb [%c]: the UTF-8 encoding of the code point. *)
Definition fmt_c (c : Z) : gostring :=
  utf8.EncodeRune (if utf8.MaxRune <? c then utf8.RuneError else c).

(** A [bufio.Writer] is the bytes written so far. *)
Abbreviation Writer := (list ascii) (only parsing).
Definition Fprint (w : Writer) (s : gostring) : Writer := w ++ s.
Definition Fprintln (w : Writer) : Writer := w ++ [LF].
End fmt.

(* ===================================================================== *)
(** * os: the files the program opens and creates *)
(* ===================================================================== *)

Module os.
(** The file system as the program sees it: the content of the files that
    can be opened, the names at which a file can be created, and how many
    bytes a file takes once it is created before a write to it fails
    ([None] when no write fails: a full disk, a quota and an I/O error all
    stop the writes after some number of bytes). *)
Record FileSystem := mkFS {
  content : gostring → option gostring;
  creatable : gostring → bool;
  room : gostring → option nat
}.

Definition Open (fs : FileSystem) (name : gostring) : option gostring :=
  content fs name.

Definition WriteFile (fs : FileSystem) (name : gostring) (bytes : gostring)
  : FileSystem :=
  {| content := λ n, if bool_decide (n = name) then Some bytes else content fs n;
     creatable := creatable fs;
     room := room fs |}.

(** The writes of [bytes] to the file created at [name]: the bytes that
    reach the file, and whether every write succeeded.  A write that fails
    leaves the bytes the file took before it. *)
Definition written (fs : FileSystem) (name : gostring) (bytes : gostring)
  : gostring * bool :=
  match room fs name with
  | Some n => if (n <? length bytes)%nat then (take n bytes, false)
              else (bytes, true)
  | None => (bytes, true)
  end.
End os.

(** Go's [error] values, as the program produces them. *)
Inductive error :=
  | PathError (op : string) (path : gostring)   (* from os.Open, os.Create *)
  | Errorf (msg : gostring).                    (* from fmt.Errorf *)

Inductive result (A : Type) :=
  | Ok (a : A)
  | Err (e : error).
Arguments Ok {A} a.
Arguments Err {A} e.

(* ===================================================================== *)
(** * pbm.go *)
(* ===================================================================== *)

(** [type PBM struct] *)
Record PBM := mkPBM {
  data : list (list bool);
  width : Z;
  height : Z;
  magicNumber : gostring
}.

(** ** Slices and loops *)

(** [s[i]]: [None] is the panic of an index out of range. *)
Definition index {A} (s : list A) (i : Z) : option A :=
  if (i <? 0)%Z then None else s !! Z.to_nat i.

(** [s[i] = v] *)
Definition assign {A} (s : list A) (i : Z) (v : A) : option (list A) :=
  if (0 <=? i)%Z && (i <? Z.of_nat (length s))%Z
  then Some (<[Z.to_nat i := v]> s) else None.

(** [n] iterations of a loop body from counter [i], stopping at a panic. *)
Fixpoint iterate {S} (n : nat) (i : Z) (body : Z → S → option S) (s : S)
  : option S :=
  match n with
  | O => Some s
  | S n' => s' ← body i s; iterate n' (i + 1)%Z body s'
  end.

(** [for i := lo; i < hi; i++ { body }], where the body leaves [hi] alone. *)
Definition for_range {S} (lo hi : Z) (body : Z → S → option S) (s : S)
  : option S :=
  iterate (Z.to_nat (hi - lo)) lo body s.

(** ** ReadPBM *)

Section Decoder.
Import bufio.
Local Open Scope Z_scope.

(** The inner loop of the P4 branch, [for j := 7; j >= 0; j--]. *)
Definition unpackBits (char : rune) (row : list bool) : list bool :=
  fold_left
    (λ row j, let bit := Z.land (Z.shiftr char j) 1 in row ++ [bit =? 1])
    [7; 6; 5; 4; 3; 2; 1; 0] row.

(** One row from one line: [for _, char := range line] in either branch. *)
Definition decodeRow (isP1 : bool) (line : gostring) : list bool :=
  if isP1 then
    fold_left
      (λ row char,
         if char =? 48 then row ++ [false]          (* '0' *)
         else if char =? 49 then row ++ [true]       (* '1' *)
         else row)
      (utf8.runes line) []
  else
    fold_left (λ row char, unpackBits char row) (utf8.runes line) [].

(** [for i := 0; i < height; i++]: a scan, a row, an append. *)
Fixpoint readRows (n : nat) (isP1 : bool) (scanner : Scanner)
  (data : list (list bool)) : Scanner * list (list bool) :=
  match n with
  | O => (scanner, data)
  | S n' =>
    let '(_, scanner) := Scan scanner in
    let line := Text scanner in
    readRows n' isP1 scanner (data ++ [decodeRow isP1 line])
  end.

(** The body of [ReadPBM] once the file is open, with the scanner as it
    is left. *)
Definition readPBM (file : gostring) : Scanner * result PBM :=
  let scanner := NewScanner file in
  let '(_, scanner) := Scan scanner in
  let magicNumber := Text scanner in
  let format :=
    if bool_decide (magicNumber = str "P1") then Some true
    else if bool_decide (magicNumber = str "P4") then Some false
    else None in
  match format with
  | None =>
    (scanner, Err (Errorf (str "unsupported PBM format: " ++ magicNumber)))
  | Some isP1 =>
    let '(_, scanner) := Scan scanner in
    let '(_, width, height) := fmt.Sscanf_d_d (Text scanner) 0 0 in
    let '(scanner, data) := readRows (Z.to_nat height) isP1 scanner [] in
    (scanner,
     Ok {| data := data; width := width; height := height;
           magicNumber := magicNumber |})
  end.

Definition ReadPBM (fs : os.FileSystem) (filename : gostring) : result PBM :=
  match os.Open fs filename with
  | None => Err (PathError "open" filename)
  | Some file => (readPBM file).2
  end.
End Decoder.

(** ** Size, At, Set *)

Definition Size (pbm : PBM) : Z * Z := (width pbm, height pbm).

Definition At (pbm : PBM) (x y : Z) : option bool :=
  row ← index (data pbm) y; index row x.

Definition Set_ (pbm : PBM) (x y : Z) (value : bool) : option PBM :=
  row ← index (data pbm) y;
  row' ← assign row x value;
  data' ← assign (data pbm) y row';
  Some {| data := data'; width := width pbm; height := height pbm;
          magicNumber := magicNumber pbm |}.

(** ** Save *)

Section Encoder.
Import fmt.

(** The inner loop of the P4 branch, [for j := 0; j < 8; j++]: the byte
    of the eight pixels from [i], those past the end of the row unset. *)
Definition packByte (row : list bool) (i : nat) : Z :=
  fold_left
    (λ byteValue j,
       if (i + j <? length row)%nat && default false (row !! (i + j)%nat)
       then Z.lor byteValue (Z.shiftl 1 (7 - Z.of_nat j))
       else byteValue)
    (seq 0 8) 0%Z.

(** [for i := 0; i < len(row); i += 8]; [fuel] bounds the iterations. *)
Fixpoint packLoop (fuel : nat) (row : list bool) (i : nat) (w : Writer)
  : Writer :=
  match fuel with
  | O => w
  | S fuel' =>
    if (i <? length row)%nat
    then packLoop fuel' row (i + 8) (Fprint w (fmt_c (packByte row i)))
    else w
  end.

(** The body of [for _, row := range pbm.data]. *)
Definition saveRow (magicNumber : gostring) (w : Writer) (row : list bool)
  : Writer :=
  let w :=
    if bool_decide (magicNumber = str "P1") then
      fold_left
        (λ w (pixel : bool),
           if pixel then Fprint w (str "1 ") else Fprint w (str "0 "))
        row w
    else packLoop (length row) row 0 w in
  Fprintln w.

(** The bytes [Save] prints to its writer, in order. *)
Definition saveBytes (pbm : PBM) : gostring :=
  let w : Writer := [] in
  (* "%s\n%d %d\n" *)
  let w := Fprint w (magicNumber pbm ++ [LF] ++ fmt_d (width pbm) ++ str " "
                       ++ fmt_d (height pbm) ++ [LF]) in
  fold_left (saveRow (magicNumber pbm)) (data pbm) w.

(** [Save]: os.Create, the prints to a [bufio.Writer] on the file, and
    [writer.Flush()] for the result.  The errors of the prints are dropped,
    but the writer keeps the first error of a write to the file, writes
    nothing after it, and Flush returns it: the file then holds the bytes
    it took before the failure, and Save returns the error of the write. *)
Definition Save (fs : os.FileSystem) (pbm : PBM) (filename : gostring)
  : os.FileSystem * option error :=
  if os.creatable fs filename
  then
    let '(stored, ok) := os.written fs filename (saveBytes pbm) in
    (os.WriteFile fs filename stored,
     if ok then None else Some (PathError "write" filename))
  else (fs, Some (PathError "open" filename)).
End Encoder.

(** ** Invert, Flip, Flop, SetMagicNumber *)

Local Open Scope Z_scope.

Definition Invert (pbm : PBM) : option PBM :=
  for_range 0 (height pbm) (λ y pbm,
    for_range 0 (width pbm) (λ x pbm,
      v ← At pbm x y;
      Set_ pbm x y (negb v)) pbm) pbm.

(** In the swap [a[i], a[j] = a[j], a[i]] both right-hand sides are read,
    in their order, before either element is written. *)
Definition Flip (pbm : PBM) : option PBM :=
  for_range 0 (height pbm) (λ y pbm,
    for_range 0 (width pbm `quot` 2) (λ x pbm,
      b ← At pbm (width pbm - x - 1) y;
      a ← At pbm x y;
      pbm ← Set_ pbm x y b;
      Set_ pbm (width pbm - x - 1) y a) pbm) pbm.

Definition Flop (pbm : PBM) : option PBM :=
  for_range 0 (height pbm `quot` 2) (λ y pbm,
    b ← index (data pbm) (height pbm - y - 1);
    a ← index (data pbm) y;
    d ← assign (data pbm) y b;
    d ← assign d (height pbm - y - 1) a;
    Some {| data := d; width := width pbm; height := height pbm;
            magicNumber := magicNumber pbm |}) pbm.

Definition SetMagicNumber (pbm : PBM) (magicNumber : gostring) : PBM :=
  {| data := data pbm; width := width pbm; height := height pbm;
     magicNumber := magicNumber |}.

Local Close Scope Z_scope.

(* ===================================================================== *)
(** * Notions used by the statements *)
(* ===================================================================== *)

(** The image with another grid of rows. *)
Definition with_data (pbm : PBM) (d : list (list bool)) : PBM :=
  {| data := d; width := width pbm; height := height pbm;
     magicNumber := magicNumber pbm |}.

(** The dimension invariant: [height] rows of [width] pixels each. *)
Definition dims_ok (pbm : PBM) : Prop :=
  Z.of_nat (length (data pbm)) = height pbm
  ∧ Forall (λ row, Z.of_nat (length row) = width pbm) (data pbm).

(** The bodies of the loops of Invert and of Flip as they act on the row
    (or, for Flop, on the list of rows) they index. *)
Definition negBody (x : Z) (row : list bool) : option (list bool) :=
  v ← index row x; assign row x (negb v).

Definition swapBody {A} (w : Z) (x : Z) (l : list A) : option (list A) :=
  b ← index l (w - x - 1)%Z;
  a ← index l x;
  l ← assign l x b;
  assign l (w - x - 1)%Z a.

(** The positions that [n] swaps from position [x0] have exchanged, among
    the first [w] of a list. *)
Definition swapped (w x0 n i : nat) : bool :=
  bool_decide (x0 ≤ i < x0 + n ∨ w - x0 - n ≤ i < w - x0).

(** A row with its first [w] pixels mirrored. *)
Definition flipRow {A} (w : Z) (row : list A) : list A :=
  reverse (take (Z.to_nat w) row) ++ drop (Z.to_nat w) row.

(** What Flip needs of an image not to index out of range: the rows up to
    [height] are there and hold [width] pixels at least. *)
Definition flip_safe (pbm : PBM) : Prop :=
  Z.to_nat (height pbm) ≤ length (data pbm)
  ∧ Forall (λ row, (width pbm ≤ Z.of_nat (length row))%Z)
      (take (Z.to_nat (height pbm)) (data pbm)).

(** The rows after Flip: those up to [height] mirrored, the others as they
    were. *)
Definition flipRows (pbm : PBM) : list (list bool) :=
  (flipRow (width pbm) <$> take (Z.to_nat (height pbm)) (data pbm))
    ++ drop (Z.to_nat (height pbm)) (data pbm).

(* ===================================================================== *)
(** * Notions used by the statements, continued *)
(* ===================================================================== *)

Import bufio.

(** Bytes below [utf8.RuneSelf] are runes of their own. *)
Definition ascii_only (s : gostring) : Prop := Forall (λ b, code b < 128)%Z s.

(** A line that holds no line feed and no carriage return. *)
Definition plain (s : gostring) : Prop := Forall (λ b, b ≠ LF ∧ b ≠ CR) s.

Definition is_int (z : Z) : Prop :=
  (strconv.minInt64 ≤ z ≤ strconv.maxInt64)%Z.

Definition digit_rune (c : rune) : Prop := (48 ≤ c ≤ 57)%Z.

(** What may follow a number in the input: nothing, or a character that
    [accept] does not take. *)
Definition ends_number (rest : list rune) : Prop :=
  match rest with [] => True | c :: _ => fmt.decimalDigits c = false end.

(** What the P1 branch of [Save] writes for a pixel and for a row. *)
Definition pixelToken (pixel : bool) : gostring :=
  if pixel then str "1 " else str "0 ".

Definition rowP1 (row : list bool) : gostring := row ≫= pixelToken.

(** The bytes of a row as either branch writes them, line feed included. *)
Definition rowBytes (magicNumber : gostring) (row : list bool) : gostring :=
  saveRow magicNumber [] row.

(** The two lines of the header. *)
Definition headerBytes (pbm : PBM) : gostring :=
  magicNumber pbm ++ [LF] ++ fmt.fmt_d (width pbm) ++ str " "
    ++ fmt.fmt_d (height pbm) ++ [LF].

Definition dimsLine (pbm : PBM) : gostring :=
  fmt.fmt_d (width pbm) ++ str " " ++ fmt.fmt_d (height pbm).

(** The scanner after [n] more calls of [Scan]. *)
Fixpoint scanN (n : nat) (s : Scanner) : Scanner :=
  match n with
  | O => s
  | S n' => scanN n' (Scan s).2
  end.

(** The scanner of [ReadPBM] after the magic number, and after the line of
    the dimensions. *)
Definition afterMagic (file : gostring) : Scanner := scanN 1 (NewScanner file).

Definition afterDims (file : gostring) : Scanner := scanN 2 (NewScanner file).

(** The magic number is one of the two [ReadPBM] accepts. *)
Definition validMagic (file : gostring) : Prop :=
  Text (afterMagic file) = str "P1" ∨ Text (afterMagic file) = str "P4".

Definition isP1 (file : gostring) : bool :=
  bool_decide (Text (afterMagic file) = str "P1").

(** The scanner at the end of the input. *)
Definition atEOF : Scanner := {| input := []; token := []; err := Some EOF |}.

(** The eight pixels at the head of [l], with [false] past its end. *)
Definition chunkBits (l : list bool) : list bool :=
  (λ k, default false (l !! k)) <$> seq 0 8.

(** A row cut into chunks of eight pixels, the last one filled with
    [false]: what ReadPBM makes of a packed row that was read whole. *)
Fixpoint padRow (fuel : nat) (l : list bool) : list bool :=
  match fuel with
  | O => []
  | S fuel' =>
    match l with
    | [] => []
    | _ => chunkBits l ++ padRow fuel' (drop 8 l)
    end
  end.

Definition padded (row : list bool) : list bool := padRow (length row) row.

(** No chunk of the row packs to a line feed or to a carriage return. *)
Definition no_terminator (row : list bool) : Prop :=
  ∀ k, packByte row (8 * k) ≠ 10%Z ∧ packByte row (8 * k) ≠ 13%Z.

(** A file given by its lines, each ended by a line feed. *)
Definition fileOfLines (lines : list string) : gostring :=
  concat ((λ l, str l ++ [LF]) <$> lines).

(** What [Sscanf] stores from the line of the dimensions. *)
Definition scanned (file : gostring) : nat * Z * Z :=
  fmt.Sscanf_d_d (Text (afterDims file)) 0 0.

Definition scannedCount (file : gostring) : nat := (scanned file).1.1.

Definition scannedWidth (file : gostring) : Z := (scanned file).1.2.

Definition scannedHeight (file : gostring) : Z := (scanned file).2.

(** The line of the dimensions as the specification words it: two
    non-negative integers separated by white space. *)
Definition isBlank (b : byte) : bool :=
  (code b =? 32)%Z || ((9 <=? code b)%Z && (code b <=? 13)%Z).

Definition isDigitByte (b : byte) : bool :=
  (48 <=? code b)%Z && (code b <=? 57)%Z.

Fixpoint fieldsFrom (s cur : gostring) : list gostring :=
  match s with
  | [] => match cur with [] => [] | _ => [cur] end
  | b :: t =>
    if isBlank b
    then match cur with [] => fieldsFrom t [] | _ => cur :: fieldsFrom t [] end
    else fieldsFrom t (cur ++ [b])
  end.

Definition twoNaturals (line : gostring) : bool :=
  match fieldsFrom line [] with
  | [a; b] => forallb isDigitByte a && forallb isDigitByte b
  | _ => false
  end.

Definition unsupported (magicNumber : gostring) : error :=
  Errorf (str "unsupported PBM format: " ++ magicNumber).

(** The line of the dimensions as ReadPBM hands it to Sscanf. *)
Definition dimsText (file : gostring) : gostring := Text (afterDims file).

(** A line without its leading blanks. *)
Fixpoint dropBlanks (s : gostring) : gostring :=
  match s with
  | b :: t => if isBlank b then dropBlanks t else s
  | [] => []
  end.

Definition isSignByte (b : byte) : bool :=
  (code b =? 43)%Z || (code b =? 45)%Z.

(** Whether a line begins, after its leading blanks, with a digit or with
    a sign and a digit. *)
Definition startsWithInteger (line : gostring) : bool :=
  match dropBlanks line with
  | [] => false
  | c :: t =>
    if isDigitByte c then true
    else if isSignByte c
         then match t with d :: _ => isDigitByte d | [] => false end
         else false
  end.

(** What may follow an integer on a line without making it longer: the
    end of the line, or a byte that is no digit and no underscore. *)
Definition endsInteger (rest : gostring) : bool :=
  match rest with
  | [] => true
  | c :: _ => negb (isDigitByte c) && negb (code c =? 95)%Z
  end.

(** The image of the scenario of the specification. *)
Definition image_3x2 : PBM :=
  {| data := [[true; false; true]; [false; true; false]];
     width := 3; height := 2; magicNumber := str "P1" |}.

(** One row of eight pixels, 00001010. *)
Definition newline_image : PBM :=
  {| data := [[false; false; false; false; true; false; true; false]];
     width := 8; height := 1; magicNumber := str "P4" |}.

(** The chunk 10100000 of the specification. *)
Definition chunk_A0 : list bool :=
  [true; false; true; false; false; false; false; false].

(** A file with the magic number of another format. *)
Definition p2_file : gostring := fileOfLines ["P2"; "3 2"; "101"; "010"].

(** A file whose second line holds one integer and a word. *)
Definition bad_dims_file : gostring := fileOfLines ["P1"; "5 x"].

(** A file whose second line holds no integer. *)
Definition no_dims_file : gostring := fileOfLines ["P4"; "wide"; "0101"].

(** One row of 32768 white pixels. *)
Definition wide_image : PBM :=
  {| data := [replicate (Z.to_nat 32768) false];
     width := 32768; height := 1; magicNumber := str "P1" |}.

(** A packed file of width 1: its one row is read as eight pixels. *)
Definition padded_file : gostring := fileOfLines ["P4"; "1 1"; "@"].

Definition padded_image : PBM :=
  {| data := [[false; true; false; false; false; false; false; false]];
     width := 1; height := 1; magicNumber := str "P4" |}.

(** A packed file of width 3: its one row, the byte 96, is read as the
    eight pixels 01100000. *)
Definition three_wide_file : gostring := fileOfLines ["P4"; "3 1"; "`"].

Definition three_wide_image : PBM :=
  {| data := [[false; true; true; false; false; false; false; false]];
     width := 3; height := 1; magicNumber := str "P4" |}.

(** A file that ends after its header. *)
Definition truncated_file : gostring := fileOfLines ["P1"; "2 1"].

Definition truncated_image : PBM :=
  {| data := [[]]; width := 2; height := 1; magicNumber := str "P1" |}.

(** A file of width zero that ends after its header. *)
Definition zero_width_file : gostring := fileOfLines ["P1"; "0 1"].

(** A file that announces two rows and holds one. *)
Definition short_file : gostring := fileOfLines ["P1"; "3 2"; "101"].

(** An image whose magic number was set to a string that is no PBM format. *)
Definition p5_image : PBM :=
  SetMagicNumber
    {| data := [[true; false; true; false; false; false; false; false; true]];
       width := 9; height := 1; magicNumber := str "P1" |} (str "P5").

(** The pixel [(x, y)] is in the grid as it is, whatever the declared
    width and height: row [y] is there and holds more than [x] pixels. *)
Definition in_grid (pbm : PBM) (x y : Z) : Prop :=
  (0 ≤ y)%Z ∧ ∃ row, data pbm !! Z.to_nat y = Some row
                    ∧ (0 ≤ x < Z.of_nat (length row))%Z.

(** A row with its first [w] pixels negated. *)
Definition invertRow (w : Z) (row : list bool) : list bool :=
  (negb <$> take (Z.to_nat w) row) ++ drop (Z.to_nat w) row.

(** The rows after Invert: the first [width] pixels of those up to
    [height] negated, the rest as it was. *)
Definition invertRows (pbm : PBM) : list (list bool) :=
  (invertRow (width pbm) <$> take (Z.to_nat (height pbm)) (data pbm))
    ++ drop (Z.to_nat (height pbm)) (data pbm).

(** The rows after Flop: those up to [height] in reverse order. *)
Definition flopRows (pbm : PBM) : list (list bool) :=
  flipRow (height pbm) (data pbm).

(** Two images with the same header and rows of the same lengths. *)
Definition same_shape (pbm pbm' : PBM) : Prop :=
  width pbm' = width pbm ∧ height pbm' = height pbm
  ∧ magicNumber pbm' = magicNumber pbm
  ∧ Forall2 (λ row row', length row' = length row) (data pbm) (data pbm').

(** A file system that holds one file, lets any file be created and
    takes every write. *)
Definition one_file (name bytes : gostring) : os.FileSystem :=
  {| os.content := λ n, if bool_decide (n = name) then Some bytes else None;
     os.creatable := λ _, true;
     os.room := λ _, None |}.

(** The same on a disk on which a new file takes [n] bytes and no more. *)
Definition small_disk (name bytes : gostring) (n : nat) : os.FileSystem :=
  {| os.content := λ n, if bool_decide (n = name) then Some bytes else None;
     os.creatable := λ _, true;
     os.room := λ _, Some n |}.

(** The rows that come back when an image written by Save is read again:
    the first [height] rows, then empty rows for the lines that the file
    does not hold. *)
Definition rereadRows (pbm : PBM) : list (list bool) :=
  take (Z.to_nat (height pbm)) (data pbm)
    ++ replicate (Z.to_nat (height pbm) - length (data pbm)) [].

(** Three rows of different lengths under a header that announces two
    columns and four rows. *)
Definition ragged_image : PBM :=
  {| data := [[true]; [false; true; true]; []];
     width := 2; height := 4; magicNumber := str "P1" |}.

(** The eight pixels of one character of a packed row: its bits 7 to 0. *)
Definition bits8 (char : rune) : list bool :=
  (λ j, Z.testbit char (7 - Z.of_nat j)) <$> seq 0 8.

(** A test for [no_terminator]: the chunks of the row are looked at one
    by one; past the end of the row a chunk packs to zero. *)
Definition no_terminator_b (row : list bool) : bool :=
  forallb (λ k, negb (packByte row (8 * k) =? 10)%Z
                && negb (packByte row (8 * k) =? 13)%Z)
    (seq 0 (length row)).

(** One packed row of ten pixels under a header that announces three. *)
Definition packed_ragged_image : PBM :=
  {| data := [[true; false; true; false; false; false; false; true;
               true; true]];
     width := 10; height := 3; magicNumber := str "P4" |}.

(** The pixel a byte of a P1 line stands for, if any. *)
Definition pixelOfByte (b : byte) : option bool :=
  if (code b =? 48)%Z then Some false
  else if (code b =? 49)%Z then Some true
  else None.

(** A file of lines ended by a line feed, and the same lines ended by a
    carriage return and a line feed. *)
Definition unixFile (lines : list gostring) : gostring :=
  concat ((λ l, l ++ [LF]) <$> lines).

Definition dosFile (lines : list gostring) : gostring :=
  concat ((λ l, l ++ [CR; LF]) <$> lines).

(** The operands [main] hands to the printing functions of fmt. *)
Inductive operand :=
  | VString (s : gostring)
  | VInt (v : Z)
  | VBool (b : bool)
  | VData (d : list (list bool))
  | VError (e : error).

(** A call that writes to the standard output: [fmt.Println] with its
    operands, or [fmt.Printf] with its format, as the source spells it,
    and its operands. *)
Inductive call :=
  | Println (operands : list operand)
  | Printf (format : string) (operands : list operand).

(** How [main] ends: it returns, or a slice index is out of range. *)
Inductive exit := Returned | Panicked.

(** [main] from a file system: the file system and the calls made when it
    ends, and how it ends. *)
Definition main (fs : os.FileSystem) : os.FileSystem * list call * exit :=
  let filename := str "example.pbm" in
  match ReadPBM fs filename with
  | Err err => (fs, [Println [VString (str "Error:"); VError err]], Returned)
  | Ok pbm =>
    let out :=
      [ Println [VString (str "PBM Image:")];
        Println [VString (str "Magic Number:"); VString (magicNumber pbm)];
        Println [VString (str "Width:"); VInt (width pbm)];
        Println [VString (str "Height:"); VInt (height pbm)];
        Println [VString (str "Data:"); VData (data pbm)] ] in
    let '(width, height) := Size pbm in
    let out := out ++ [Printf "Image Size: %d x %d\n" [VInt width; VInt height]] in
    match At pbm 2 3 with
    | None => (fs, out, Panicked)
    | Some value =>
      let out := out ++ [Printf "Value at (2, 3): %t\n" [VBool value]] in
      match Set_ pbm 2 3 true with
      | None => (fs, out, Panicked)
      | Some pbm =>
        let out :=
          out ++ [Println [VString (str "After setting value at (2, 3) to true:");
                           VData (data pbm)]] in
        match Save fs pbm (str "output.pbm") with
        | (fs, Some err) =>
          (fs, out ++ [Println [VString (str "Error saving PBM image:");
                                VError err]], Returned)
        | (fs, None) =>
          (fs, out ++ [Println [VString (str "Image saved successfully.")]],
           Returned)
        end
      end
    end
  end.

(** An image of four rows of three pixels, all unset. *)
Definition blank_3x4 : PBM :=
  {| data := replicate 4 [false; false; false];
     width := 3; height := 4; magicNumber := str "P1" |}.

(* ===================================================================== *)
(** * Slices and loops *)
(* ===================================================================== *)

Section Slices.
Context {A : Type}.
Implicit Types (s : list A) (i : nat) (v : A).

Lemma index_nat s i : index s (Z.of_nat i) = s !! i.
Proof.
  unfold index. destruct (Z.ltb_spec (Z.of_nat i) 0); [lia|].
  by rewrite Nat2Z.id.
Qed.

Lemma index_neg s (z : Z) : (z < 0)%Z → index s z = None.
Proof.
  intros Hz. unfold index. by destruct (Z.ltb_spec z 0); [|lia].
Qed.

Lemma assign_nat s i v :
  i < length s → assign s (Z.of_nat i) v = Some (<[i := v]> s).
Proof.
  intros Hi. unfold assign.
  destruct (Z.leb_spec 0 (Z.of_nat i)); [|lia].
  destruct (Z.ltb_spec (Z.of_nat i) (Z.of_nat (length s))); [|lia].
  by rewrite Nat2Z.id.
Qed.
End Slices.

Lemma iterate_S {S} n (i : Z) (body : Z → S → option S) s :
  iterate (Datatypes.S n) i body s = body i s ≫= iterate n (i + 1)%Z body.
Proof. done. Qed.

(** ** The swap loop of Flip (on a row) and Flop (on the rows) *)

Section SwapLoop.
Context {A : Type}.
Implicit Types (l : list A).

(** [n] swaps from position [x0], in the first [w] entries of a list. *)
Lemma swap_loop l (w x0 n : nat) :
  w ≤ length l →
  x0 + n ≤ w - (x0 + n) →
  ∃ l', iterate n (Z.of_nat x0) (swapBody (Z.of_nat w)) l = Some l'
    ∧ length l' = length l
    ∧ ∀ i, l' !! i = if swapped w x0 n i then l !! (w - 1 - i) else l !! i.
Proof.
  revert l x0. induction n as [|n IH]; intros l x0 Hw Hn.
  - exists l. split_and!; [done..|]. intros i. unfold swapped.
    rewrite bool_decide_eq_false_2; [done|lia].
  - assert (x0 < w) as Hx0 by lia.
    destruct (lookup_lt_is_Some_2 l x0) as [a Ha]; [lia|].
    destruct (lookup_lt_is_Some_2 l (w - x0 - 1)) as [b Hb]; [lia|].
    set (l1 := <[w - x0 - 1 := a]> (<[x0 := b]> l)).
    assert (length l1 = length l) as Hl1
      by (unfold l1; by rewrite !length_insert).
    assert (swapBody (Z.of_nat w) (Z.of_nat x0) l = Some l1) as Hstep.
    { unfold swapBody.
      replace (Z.of_nat w - Z.of_nat x0 - 1)%Z with (Z.of_nat (w - x0 - 1)) by lia.
      rewrite !index_nat, Hb, Ha. simpl.
      rewrite assign_nat by lia. simpl.
      rewrite assign_nat; [done|]. rewrite length_insert. lia. }
    destruct (IH l1 (S x0)) as (l' & Hrun & Hlen & Hl'); [lia..|].
    exists l'. split_and!.
    + rewrite iterate_S, Hstep. simpl.
      by replace (Z.of_nat x0 + 1)%Z with (Z.of_nat (S x0)) by lia.
    + lia.
    + intros i. rewrite Hl'. unfold swapped, l1.
      rewrite !list_lookup_insert, !length_insert.
      repeat case_bool_decide; repeat case_decide;
        try done; try lia;
        rewrite <- ?Ha, <- ?Hb; f_equal; lia.
Qed.

(** The whole loop mirrors the first [w] entries. *)
Lemma swap_loop_flip l (w : Z) :
  (w ≤ Z.of_nat (length l))%Z →
  iterate (Z.to_nat (w `quot` 2 - 0)) 0 (swapBody w) l = Some (flipRow w l).
Proof.
  intros Hw. unfold flipRow. destruct (Z.le_gt_cases 0 w) as [Hpos|Hneg].
  - set (n := Z.to_nat w). replace w with (Z.of_nat n) in * by lia.
    assert (Z.to_nat (Z.of_nat n `quot` 2 - 0) = n / 2) as ->.
    { rewrite Z.sub_0_r, Z.quot_div_nonneg by lia.
      change 2%Z with (Z.of_nat 2). by rewrite <- Nat2Z.inj_div, Nat2Z.id. }
    pose proof (Nat.div_mod_eq n 2) as Hdm.
    pose proof (Nat.mod_upper_bound n 2) as Hm.
    destruct (swap_loop l n 0 (n / 2)) as (l' & Hrun & Hlen & Hl'); [lia..|].
    change (Z.of_nat 0) with 0%Z in Hrun. rewrite Hrun. f_equal.
    apply list_eq. intros i. rewrite Hl'.
    destruct (decide (i < n)) as [Hi|Hi].
    + rewrite lookup_app_l by (rewrite length_reverse, length_take; lia).
      rewrite reverse_lookup by (rewrite length_take; lia).
      rewrite length_take, lookup_take_lt by lia.
      replace (n `min` length l) with n by lia.
      unfold swapped. case_bool_decide; f_equal; lia.
    + rewrite lookup_app_r by (rewrite length_reverse, length_take; lia).
      rewrite length_reverse, length_take, lookup_drop.
      unfold swapped. rewrite bool_decide_eq_false_2 by lia. f_equal. lia.
  - assert (Z.to_nat (w `quot` 2 - 0) = 0) as ->.
    { Z.quot_rem_to_equations. lia. }
    replace (Z.to_nat w) with 0 by lia. done.
Qed.

Lemma flipRow_length l (w : Z) : length (flipRow w l) = length l.
Proof.
  unfold flipRow. rewrite length_app, length_reverse, length_take, length_drop.
  lia.
Qed.

Lemma flipRow_full l : flipRow (Z.of_nat (length l)) l = reverse l.
Proof.
  unfold flipRow. by rewrite Nat2Z.id, firstn_all, drop_all, app_nil_r.
Qed.

Lemma flipRow_twice l (w : Z) :
  (w ≤ Z.of_nat (length l))%Z → flipRow w (flipRow w l) = l.
Proof.
  intros Hw. unfold flipRow.
  assert (length (reverse (take (Z.to_nat w) l)) = Z.to_nat w) as Hlen
    by (rewrite length_reverse, length_take; lia).
  rewrite take_app_length', drop_app_length' by done.
  by rewrite reverse_involutive, take_drop.
Qed.

(** The whole loop over a whole list reverses it. *)
Lemma swap_loop_reverse l :
  iterate (Z.to_nat (Z.of_nat (length l) `quot` 2 - 0)) 0
    (swapBody (Z.of_nat (length l))) l = Some (reverse l).
Proof. rewrite swap_loop_flip by lia. by rewrite flipRow_full. Qed.
End SwapLoop.

(** ** Loops that update a list in place, entry by entry *)

Section MapLoop.
Context {S A : Type} (proj : S → list A) (upd : S → list A → S).
Context (Inv : S → Prop) (P : A → Prop) (f : A → A) (body : Z → S → option S).
Hypothesis proj_upd : ∀ s l, proj (upd s l) = l.
Hypothesis upd_upd : ∀ s l l', upd (upd s l) l' = upd s l'.
Hypothesis Inv_upd : ∀ s l, Inv s → Inv (upd s l).
Hypothesis upd_proj : ∀ s, upd s (proj s) = s.
Hypothesis body_spec : ∀ (i : nat) s a,
  Inv s → proj s !! i = Some a → P a →
  body (Z.of_nat i) s = Some (upd s (<[i := f a]> (proj s))).

Lemma map_loop n (i0 : nat) s :
  Inv s → i0 + n ≤ length (proj s) →
  Forall P (take n (drop i0 (proj s))) →
  iterate n (Z.of_nat i0) body s
  = Some (upd s (take i0 (proj s) ++ (f <$> take n (drop i0 (proj s)))
                   ++ drop (i0 + n) (proj s))).
Proof.
  revert i0 s. induction n as [|n IH]; intros i0 s HI Hn HP.
  - simpl. rewrite Nat.add_0_r, take_drop. by rewrite upd_proj.
  - destruct (lookup_lt_is_Some_2 (proj s) i0) as [a Ha]; [lia|].
    rewrite (drop_S _ _ _ Ha) in HP. cbn [take] in HP.
    apply Forall_cons in HP as [Pa HP].
    rewrite iterate_S, (body_spec _ _ _ HI Ha Pa). simpl.
    replace (Z.of_nat i0 + 1)%Z with (Z.of_nat (Datatypes.S i0)) by lia.
    rewrite IH; rewrite ?proj_upd, ?length_insert; [|auto|lia|].
    + rewrite upd_upd. do 2 f_equal.
      rewrite (take_S_r _ _ (f a)) by (apply list_lookup_insert_eq; lia).
      rewrite take_insert_ge, drop_insert_lt by lia.
      rewrite (drop_S _ _ _ Ha). simpl. rewrite <- app_assoc. simpl.
      do 3 f_equal. rewrite drop_insert_lt by lia. f_equal. lia.
    + by rewrite drop_insert_lt by lia.
Qed.

Lemma map_loop_all s :
  Inv s → Forall P (proj s) →
  iterate (length (proj s)) 0 body s = Some (upd s (f <$> proj s)).
Proof.
  intros HI HP. change 0%Z with (Z.of_nat 0).
  rewrite map_loop by (simpl; rewrite ?firstn_all; auto with lia). simpl.
  by rewrite firstn_all, drop_all, app_nil_r.
Qed.
End MapLoop.

(* ===================================================================== *)
(** * Invert, Flip and Flop on an image that satisfies the invariant *)
(* ===================================================================== *)

Lemma with_data_id pbm : with_data pbm (data pbm) = pbm.
Proof. by destruct pbm. Qed.

Lemma with_data_twice pbm d d' : with_data (with_data pbm d) d' = with_data pbm d'.
Proof. done. Qed.

Section RowLoops.
Implicit Types (pbm : PBM) (row : list bool) (y : nat).

Lemma At_row pbm x y row :
  data pbm !! y = Some row → At pbm x (Z.of_nat y) = index row x.
Proof. intros Hy. unfold At. by rewrite index_nat, Hy. Qed.

Lemma Set_row pbm x y row v :
  data pbm !! y = Some row →
  Set_ pbm x (Z.of_nat y) v
  = row' ← assign row x v; Some (with_data pbm (<[y := row']> (data pbm))).
Proof.
  intros Hy. unfold Set_. rewrite index_nat, Hy. simpl.
  destruct (assign row x v) as [row'|]; [simpl|done].
  rewrite assign_nat; [done|]. by eapply lookup_lt_Some.
Qed.

(** A loop over the columns of row [y] is a loop on that row. *)
Lemma iterate_row (w : Z) y (pbody : Z → PBM → option PBM)
    (rbody : Z → list bool → option (list bool)) :
  (∀ x pbm row, width pbm = w → data pbm !! y = Some row →
     pbody x pbm
     = row' ← rbody x row; Some (with_data pbm (<[y := row']> (data pbm)))) →
  ∀ n x0 pbm row, width pbm = w → data pbm !! y = Some row →
    iterate n x0 pbody pbm
    = row' ← iterate n x0 rbody row;
      Some (with_data pbm (<[y := row']> (data pbm))).
Proof.
  intros Hbody. induction n as [|n IH]; intros x0 pbm row Hw Hy.
  - simpl. by rewrite list_insert_id, with_data_id.
  - rewrite !iterate_S, (Hbody _ _ _ Hw Hy).
    destruct (rbody x0 row) as [row1|]; [simpl|done].
    rewrite (IH _ _ row1); [|done|].
    + destruct (iterate n _ rbody row1) as [row'|]; [simpl|done].
      by rewrite with_data_twice, list_insert_insert_eq.
    + simpl. apply list_lookup_insert_eq. by eapply lookup_lt_Some.
Qed.

Lemma neg_loop row :
  iterate (length row) 0 negBody row = Some (negb <$> row).
Proof.
  apply (map_loop_all id (λ _ l, l) (λ _, True) (λ _, True) negb);
    try done.
  - intros i s a _ Ha _. simpl in Ha. unfold negBody.
    rewrite index_nat, Ha. simpl.
    rewrite assign_nat; [done|]. by eapply lookup_lt_Some.
  - by apply Forall_true.
Qed.
End RowLoops.

Lemma to_nat_range (n : nat) : Z.to_nat (Z.of_nat n - 0) = n.
Proof. lia. Qed.

Lemma Invert_spec pbm :
  dims_ok pbm → Invert pbm = Some (with_data pbm (map (map negb) (data pbm))).
Proof.
  intros [Hh Hw]. unfold Invert, for_range.
  rewrite <- Hh, to_nat_range.
  apply (map_loop_all data with_data (λ s, width s = width pbm)
           (λ row, Z.of_nat (length row) = width pbm) (fmap negb));
    [done|done|done|apply with_data_id| |done|done].
  intros y s row Hs Hy Hrow.
  rewrite Hs, <- Hrow, to_nat_range.
  erewrite (iterate_row (width pbm) y _ negBody); [|..|done]; [|clear|done].
  - by rewrite neg_loop.
  - intros x s' row' _ Hy'. unfold negBody.
    rewrite (At_row _ _ _ _ Hy').
    destruct (index row' x) as [v|]; [simpl|done].
    by rewrite (Set_row _ _ _ _ _ Hy').
Qed.

(** Flip on any image on which it does not index out of range: the rows up
    to [height] have their first [width] pixels mirrored. *)
Lemma Flip_general pbm :
  flip_safe pbm →
  Flip pbm
  = Some (with_data pbm
            ((flipRow (width pbm) <$> take (Z.to_nat (height pbm)) (data pbm))
               ++ drop (Z.to_nat (height pbm)) (data pbm))).
Proof.
  intros [Hh Hw]. unfold Flip, for_range.
  replace (Z.to_nat (height pbm - 0)) with (Z.to_nat (height pbm)) by lia.
  change 0%Z with (Z.of_nat 0) at 1.
  rewrite (map_loop data with_data (λ s, width s = width pbm)
             (λ row, (width pbm ≤ Z.of_nat (length row))%Z)
             (flipRow (width pbm)));
    [done|done|done|done|apply with_data_id| |done|simpl; lia|done].
  intros y s row Hs Hy Hrow.
  rewrite Hs.
  erewrite (iterate_row (width pbm) y _ (swapBody (width pbm))); [|..|done];
    [|clear|done].
  - by rewrite swap_loop_flip.
  - intros x s' row' Hs' Hy'. unfold swapBody. rewrite Hs'.
    rewrite !(At_row _ _ _ _ Hy').
    destruct (index row' (width pbm - x - 1)) as [b|]; [simpl|done].
    destruct (index row' x) as [a|]; [simpl|done].
    rewrite (Set_row _ _ _ _ _ Hy').
    destruct (assign row' x b) as [row1|]; [simpl|done].
    erewrite Set_row; [|simpl; apply list_lookup_insert_eq; by eapply lookup_lt_Some].
    simpl. rewrite Hs'. destruct (assign row1 _ a) as [row2|]; [simpl|done].
    by rewrite with_data_twice, list_insert_insert_eq.
Qed.

Lemma dims_ok_flip_safe pbm : dims_ok pbm → flip_safe pbm.
Proof.
  intros [Hh Hw]. split; [lia|].
  apply Forall_take. eapply Forall_impl; [exact Hw|].
  intros row Hrow. cbv beta in *. lia.
Qed.

Lemma Flip_spec pbm :
  dims_ok pbm → Flip pbm = Some (with_data pbm (map reverse (data pbm))).
Proof.
  intros Hok. rewrite Flip_general by by apply dims_ok_flip_safe.
  destruct Hok as [Hh Hw]. do 2 f_equal.
  rewrite <- Hh, Nat2Z.id, firstn_all, drop_all, app_nil_r.
  apply list_fmap_ext. intros _ row Hrow%list_elem_of_lookup_2.
  rewrite Forall_forall in Hw. rewrite <- (Hw row Hrow). apply flipRow_full.
Qed.

(** The loop of Flop is the swap loop on the list of rows. *)
Lemma Flop_loop n x0 pbm :
  iterate n x0 (λ y pbm,
    b ← index (data pbm) (height pbm - y - 1)%Z;
    a ← index (data pbm) y;
    d ← assign (data pbm) y b;
    d ← assign d (height pbm - y - 1)%Z a;
    Some {| data := d; width := width pbm; height := height pbm;
            magicNumber := magicNumber pbm |}) pbm
  = d ← iterate n x0 (swapBody (height pbm)) (data pbm); Some (with_data pbm d).
Proof.
  revert x0 pbm. induction n as [|n IH]; intros x0 pbm.
  - simpl. by rewrite with_data_id.
  - rewrite !iterate_S.
    change (swapBody (height pbm) x0 (data pbm)) with
      (b ← index (data pbm) (height pbm - x0 - 1)%Z;
       a ← index (data pbm) x0;
       l ← assign (data pbm) x0 b;
       assign l (height pbm - x0 - 1)%Z a).
    cbv beta.
    destruct (index (data pbm) (height pbm - x0 - 1)) as [b|]; simpl; [|done].
    destruct (index (data pbm) x0) as [a|]; simpl; [|done].
    destruct (assign (data pbm) x0 b) as [d1|]; simpl; [|done].
    destruct (assign d1 _ a) as [d2|]; simpl; [|done].
    by rewrite IH.
Qed.

Lemma Flop_spec pbm :
  Z.of_nat (length (data pbm)) = height pbm →
  Flop pbm = Some (with_data pbm (reverse (data pbm))).
Proof.
  intros Hh. unfold Flop, for_range. rewrite Flop_loop.
  by rewrite <- Hh, swap_loop_reverse.
Qed.

(* ===================================================================== *)
(** * Bytes and runes *)
(* ===================================================================== *)

Lemma code_range b : (0 ≤ code b < 256)%Z.
Proof.
  unfold code. pose proof (N_ascii_bounded b) as Hb. lia.
Qed.

Lemma code_byte_of z : (0 ≤ z < 256)%Z → code (byte_of z) = z.
Proof.
  intros Hz. unfold code, byte_of. rewrite N_ascii_embedding by lia. lia.
Qed.

Lemma DecodeRune_ascii b t :
  (code b < 128)%Z → utf8.DecodeRune (b :: t) = (code b, 1).
Proof.
  intros Hb. unfold utf8.DecodeRune, utf8.first.
  destruct (Z.ltb_spec (code b) 128); [|lia]. done.
Qed.

Lemma runes_cons_ascii b t :
  (code b < 128)%Z → utf8.runes (b :: t) = code b :: utf8.runes t.
Proof.
  intros Hb. unfold utf8.runes. cbn [utf8.range_from].
  by rewrite DecodeRune_ascii.
Qed.

Lemma runes_app_ascii s t :
  ascii_only s → utf8.runes (s ++ t) = (code <$> s) ++ utf8.runes t.
Proof.
  induction 1 as [|b s Hb _ IH]; [done|].
  simpl. by rewrite runes_cons_ascii, IH.
Qed.

Lemma runes_ascii s : ascii_only s → utf8.runes s = code <$> s.
Proof.
  intros Hs. rewrite <- (app_nil_r s) at 1.
  rewrite runes_app_ascii by done. apply app_nil_r.
Qed.

(* ===================================================================== *)
(** * The scanner on well-formed lines *)
(* ===================================================================== *)

Section Scanner.
Import bufio.

Lemma break_line_app line rest :
  plain line → break_line (line ++ LF :: rest) = (line, Some rest).
Proof.
  induction 1 as [|b line [Hb _] _ IH].
  - done.
  - cbn [app break_line]. by rewrite bool_decide_eq_false_2, IH.
Qed.

Lemma dropCR_plain line : plain line → dropCR line = line.
Proof.
  induction 1 as [|b line [_ Hb] Hline IH]; [done|].
  cbn [dropCR]. destruct line as [|c line].
  - by rewrite bool_decide_eq_false_2.
  - by rewrite IH.
Qed.

Lemma Scan_line line rest tok :
  plain line → (Z.of_nat (length line) < MaxScanTokenSize)%Z →
  Scan {| input := line ++ LF :: rest; token := tok; err := None |}
  = (true, {| input := rest; token := line; err := None |}).
Proof.
  intros Hp Hlen. unfold Scan, scanLine. simpl.
  rewrite break_line_app by done.
  destruct (Z.leb_spec MaxScanTokenSize (Z.of_nat (length line))); [lia|].
  by rewrite dropCR_plain.
Qed.
End Scanner.

(* ===================================================================== *)
(** * Printing and scanning decimal integers *)
(* ===================================================================== *)

Section Decimal.
Import strconv fmt.
Local Open Scope Z_scope.

Lemma fmtDigits_app fuel u buf :
  fmtDigits fuel u buf = fmtDigits fuel u [] ++ buf.
Proof.
  revert u buf. induction fuel as [|fuel IH]; intros u buf; [done|].
  simpl. destruct (10 <=? u); [|done].
  rewrite IH, (IH _ [_]). by rewrite <- app_assoc.
Qed.

Lemma fmtDigits_digits fuel u :
  0 ≤ u → Forall digit_rune (code <$> fmtDigits fuel u []).
Proof.
  revert u. induction fuel as [|fuel IH]; intros u Hu; [constructor|].
  simpl. destruct (Z.leb_spec 10 u).
  - rewrite fmtDigits_app, fmap_app. apply Forall_app. split.
    + apply IH. by apply Z.div_pos.
    + repeat constructor; rewrite code_byte_of;
        pose proof (Z.mod_pos_bound u 10); lia.
  - repeat constructor; rewrite code_byte_of; lia.
Qed.

Lemma fmtDigits_nonempty fuel u : fmtDigits (Datatypes.S fuel) u [] ≠ [].
Proof.
  simpl. destruct (10 <=? u); [|done].
  rewrite fmtDigits_app. by intros [_ ?]%app_eq_nil.
Qed.

Lemma fmtDigits_length fuel u : (length (fmtDigits fuel u []) ≤ fuel)%nat.
Proof.
  revert u. induction fuel as [|fuel IH]; intros u; [done|].
  simpl. destruct (10 <=? u); [|simpl; lia].
  rewrite fmtDigits_app, length_app. specialize (IH (u / 10)). simpl. lia.
Qed.

Lemma parseDigits_app l1 l2 n :
  parseDigits (l1 ++ l2) n = parseDigits l1 n ≫= parseDigits l2.
Proof.
  revert n. induction l1 as [|c l1 IH]; intros n; [done|].
  simpl. destruct (isDigit c); [apply IH|done].
Qed.

Lemma parse_fmtDigits fuel u :
  0 ≤ u < 10 ^ Z.of_nat fuel →
  parseDigits (code <$> fmtDigits fuel u []) 0 = Some u.
Proof.
  revert u. induction fuel as [|fuel IH]; intros u Hu.
  - simpl in *. f_equal. lia.
  - rewrite Nat2Z.inj_succ, Z.pow_succ_r in Hu by lia.
    simpl. destruct (Z.leb_spec 10 u).
    + rewrite fmtDigits_app, fmap_app, parseDigits_app.
      rewrite IH by (split; [apply Z.div_pos|apply Z.div_lt_upper_bound]; lia).
      simpl. pose proof (Z.mod_pos_bound u 10).
      rewrite code_byte_of by lia. unfold isDigit.
      destruct (Z.leb_spec 48 (48 + u mod 10)); [|lia].
      destruct (Z.leb_spec (48 + u mod 10) 57); [|lia].
      simpl. f_equal. pose proof (Z.div_mod u 10). lia.
    + simpl. rewrite code_byte_of by lia. unfold isDigit.
      destruct (Z.leb_spec 48 (48 + u)); [|lia].
      destruct (Z.leb_spec (48 + u) 57); [|lia].
      simpl. f_equal. lia.
Qed.

Lemma digit_decimalDigits c : digit_rune c → decimalDigits c = true.
Proof.
  intros [??]. unfold decimalDigits, isDigit.
  destruct (Z.leb_spec 48 c); [|lia]. by destruct (Z.leb_spec c 57); [|lia].
Qed.

Lemma scanDigits_app ds rest :
  Forall digit_rune ds → ends_number rest →
  scanDigits (ds ++ rest) = (ds, rest).
Proof.
  intros Hds Hrest. induction Hds as [|c ds Hc _ IH]; cbn [app scanDigits].
  - destruct rest as [|c rest]; [done|]. cbn [scanDigits].
    unfold ends_number in Hrest. by rewrite Hrest.
  - by rewrite (digit_decimalDigits c), IH.
Qed.

(** Printable characters other than the space are no spaces. *)
Lemma isSpace_printable c : 33 ≤ c < 128 → isSpace c = false.
Proof.
  intros Hc. unfold isSpace, isSpace_in, space.
  repeat match goal with
  | |- context [?a <=? ?b] => destruct (Z.leb_spec a b); try lia
  | |- context [?a <? ?b] => destruct (Z.ltb_spec a b); try lia
  end; done.
Qed.

Lemma SkipSpace_printable c rest :
  33 ≤ c < 128 → SkipSpace (c :: rest) = Some (c :: rest).
Proof.
  intros Hc. simpl. rewrite (isSpace_printable c) by done.
  unfold carriage, newline.
  destruct (Z.eqb_spec c 13); [lia|]. by destruct (Z.eqb_spec c 10); [lia|].
Qed.

Lemma fmt_d_runes v :
  is_int v →
  code <$> fmt_d v
  = (if v <? 0 then [45] else []) ++ (code <$> fmtDigits 20 (Z.abs v) []).
Proof.
  intros _. unfold fmt_d. destruct (v <? 0); [|done].
  cbn [fmap list_fmap app]. by rewrite code_byte_of.
Qed.

Lemma fmt_d_ascii v : ascii_only (fmt_d v).
Proof.
  unfold fmt_d, ascii_only.
  assert (Forall (λ b, code b < 128) (fmtDigits 20 (Z.abs v) [])) as Hd.
  { pose proof (fmtDigits_digits 20 (Z.abs v) (Z.abs_nonneg v)) as Hd.
    rewrite Forall_fmap in Hd. eapply Forall_impl; [exact Hd|].
    intros b [??]; cbv beta in *. lia. }
  destruct (v <? 0); [|done]. constructor; [|done]. by rewrite code_byte_of.
Qed.

Lemma ParseInt_fmtDigits (neg : bool) u :
  0 ≤ u → minInt64 ≤ (if neg then - u else u) ≤ maxInt64 →
  ParseInt neg (code <$> fmtDigits 20 u []) = Some (if neg then - u else u).
Proof.
  intros Hu Hr. unfold ParseInt.
  destruct (code <$> fmtDigits 20 u []) as [|c ds] eqn:E.
  { apply fmap_nil_inv in E. by apply (fmtDigits_nonempty 19) in E. }
  rewrite <- E, parse_fmtDigits.
  - destruct (Z.leb_spec minInt64 (if neg then - u else u)); [|lia].
    by destruct (Z.leb_spec (if neg then - u else u) maxInt64); [|lia].
  - unfold minInt64, maxInt64 in Hr. destruct neg; simpl; lia.
Qed.

Lemma scanInt_printable c inp :
  33 ≤ c < 128 →
  scanInt (c :: inp)
  = let '(neg, inp1) := if sign c then (c =? 45, inp) else (false, c :: inp) in
    let '(tok, inp2) := scanDigits inp1 in
    match tok with
    | [] => None
    | _ => v ← ParseInt neg tok; Some (v, inp2)
    end.
Proof. intros Hc. unfold scanInt. by rewrite SkipSpace_printable. Qed.

(** Scanning what [%d] printed gives the number back. *)
Lemma scanInt_fmt_d v rest :
  is_int v → ends_number rest →
  scanInt ((code <$> fmt_d v) ++ rest) = Some (v, rest).
Proof.
  intros Hv Hrest. unfold is_int in Hv.
  rewrite fmt_d_runes by done.
  pose proof (fmtDigits_digits 20 (Z.abs v) (Z.abs_nonneg v)) as Hd.
  destruct (Z.ltb_spec v 0) as [Hneg|Hpos].
  - pose proof (ParseInt_fmtDigits true (Z.abs v)) as Hparse.
    cbn [app]. rewrite scanInt_printable by lia.
    change (sign 45) with true. change (45 =? 45) with true. cbv iota beta.
    rewrite scanDigits_app by done. rewrite Hparse by lia.
    destruct (code <$> fmtDigits 20 (Z.abs v) []) as [|c ds] eqn:E.
    { apply fmap_nil_inv in E. by apply (fmtDigits_nonempty 19) in E. }
    simpl. do 2 f_equal. lia.
  - pose proof (ParseInt_fmtDigits false (Z.abs v)) as Hparse.
    cbn [app].
    destruct (code <$> fmtDigits 20 (Z.abs v) []) as [|c ds] eqn:E.
    { apply fmap_nil_inv in E. by apply (fmtDigits_nonempty 19) in E. }
    assert (digit_rune c) as Hc by (by inversion Hd).
    unfold digit_rune in Hc. cbn [app].
    rewrite scanInt_printable by lia.
    assert (sign c = false) as ->.
    { unfold sign. destruct (Z.eqb_spec c 43); [lia|].
      by destruct (Z.eqb_spec c 45); [lia|]. }
    cbv iota beta. change (c :: ds ++ rest) with ((c :: ds) ++ rest).
    rewrite scanDigits_app by done. rewrite Hparse by lia.
    simpl. do 2 f_equal. lia.
Qed.

Lemma fmt_d_head v :
  ∃ c ds, code <$> fmt_d v = c :: ds ∧ 33 ≤ c < 128.
Proof.
  unfold fmt_d. destruct (v <? 0).
  - eexists _, _. split; [done|]. by rewrite code_byte_of.
  - pose proof (fmtDigits_digits 20 (Z.abs v) (Z.abs_nonneg v)) as Hd.
    destruct (code <$> fmtDigits 20 (Z.abs v) []) as [|c ds] eqn:E.
    { apply fmap_nil_inv in E. by apply (fmtDigits_nonempty 19) in E. }
    exists c, ds. split; [done|]. inversion Hd as [|?? [??]]; lia.
Qed.

(** The header line [Save] prints is the header [ReadPBM] scans. *)
Lemma Sscanf_header w h a b :
  is_int w → is_int h →
  Sscanf_d_d (fmt_d w ++ str " " ++ fmt_d h) a b = (2%nat, w, h).
Proof.
  intros Hw Hh. unfold Sscanf_d_d.
  rewrite runes_app_ascii by apply fmt_d_ascii.
  change (str " " ++ fmt_d h) with (byte_of 32 :: fmt_d h).
  rewrite runes_cons_ascii by (by rewrite code_byte_of).
  rewrite runes_ascii by apply fmt_d_ascii.
  rewrite code_byte_of by lia.
  destruct (fmt_d_head w) as (cw & dw & Ew & Hcw).
  destruct (fmt_d_head h) as (ch & dh & Eh & Hch).
  pose proof (scanInt_fmt_d w (32 :: (code <$> fmt_d h)) Hw eq_refl) as Hs1.
  pose proof (scanInt_fmt_d h [] Hh I) as Hs2. rewrite app_nil_r in Hs2.
  revert Hs1 Hs2. rewrite Ew, Eh. cbn [app]. intros Hs1 Hs2.
  rewrite SkipSpace_printable by done. cbn [mbind option_bind].
  rewrite Hs1.
  unfold advanceSpace. change (isSpace 32) with true.
  change (32 =? newline) with false. cbv iota beta. cbn [negb skipBlank].
  change (isSpace 32 && negb (32 =? newline)) with true. cbv iota.
  rewrite isSpace_printable by done. cbn [andb mbind option_bind].
  rewrite SkipSpace_printable by done. cbn [mbind option_bind].
  by rewrite Hs2.
Qed.
End Decimal.

(* ===================================================================== *)
(** * What Save writes *)
(* ===================================================================== *)

Section EncoderFacts.
Import fmt.

Lemma packLoop_app fuel row i w :
  packLoop fuel row i w = w ++ packLoop fuel row i [].
Proof.
  revert i w. induction fuel as [|fuel IH]; intros i w; cbn [packLoop].
  - by rewrite app_nil_r.
  - destruct (i <? length row)%nat; [|by rewrite app_nil_r].
    rewrite IH, (IH _ (Fprint [] _)). unfold Fprint.
    by rewrite app_assoc.
Qed.

Lemma saveP1_fold row w :
  fold_left
    (λ w (pixel : bool),
       if pixel then Fprint w (str "1 ") else Fprint w (str "0 ")) row w
  = w ++ rowP1 row.
Proof.
  revert w. induction row as [|pixel row IH]; intros w.
  - simpl. by rewrite app_nil_r.
  - cbn [fold_left]. rewrite IH. unfold rowP1. cbn [mbind list_bind].
    fold (rowP1 row). unfold Fprint, pixelToken.
    destruct pixel; by rewrite <- app_assoc.
Qed.

Lemma saveRow_app m w row : saveRow m w row = w ++ rowBytes m row.
Proof.
  unfold rowBytes, saveRow, Fprintln. case_bool_decide.
  - rewrite !saveP1_fold. by rewrite <- app_assoc.
  - rewrite packLoop_app. by rewrite <- app_assoc.
Qed.

Lemma rowBytes_P1 row : rowBytes (str "P1") row = rowP1 row ++ [LF].
Proof.
  unfold rowBytes, saveRow, Fprintln.
  rewrite bool_decide_eq_true_2 by done. by rewrite saveP1_fold.
Qed.

Lemma saveRows_fold m d w :
  fold_left (saveRow m) d w = w ++ concat (rowBytes m <$> d).
Proof.
  revert w. induction d as [|row d IH]; intros w; simpl.
  - by rewrite app_nil_r.
  - rewrite IH, saveRow_app. by rewrite <- app_assoc.
Qed.

(** The file is the header followed by the rows, one line each. *)
Lemma saveBytes_spec pbm :
  saveBytes pbm
  = headerBytes pbm ++ concat (rowBytes (magicNumber pbm) <$> data pbm).
Proof. unfold saveBytes. by rewrite saveRows_fold. Qed.
End EncoderFacts.

(* ===================================================================== *)
(** * Reading back the rows of a plain-text image *)
(* ===================================================================== *)

Lemma pixelToken_ascii (pixel : bool) : ascii_only (pixelToken pixel).
Proof. destruct pixel; repeat constructor. Qed.

Lemma rowP1_ascii row : ascii_only (rowP1 row).
Proof.
  induction row as [|pixel row IH]; [constructor|].
  apply Forall_app. split; [apply pixelToken_ascii|done].
Qed.

Lemma rowP1_plain row : plain (rowP1 row).
Proof.
  induction row as [|pixel row IH]; [constructor|].
  apply Forall_app. split; [|done].
  destruct pixel; repeat constructor; done.
Qed.

Lemma rowP1_length row : length (rowP1 row) = 2 * length row.
Proof.
  induction row as [|pixel row IH]; [done|].
  unfold rowP1 in *. cbn [mbind list_bind]. rewrite length_app, IH.
  destruct pixel; simpl; lia.
Qed.

Lemma decodeRow_P1_fold row acc :
  fold_left
    (λ row char,
       if (char =? 48)%Z then row ++ [false]
       else if (char =? 49)%Z then row ++ [true]
       else row)
    (code <$> rowP1 row) acc
  = acc ++ row.
Proof.
  revert acc. induction row as [|pixel row IH]; intros acc.
  - simpl. by rewrite app_nil_r.
  - unfold rowP1. cbn [mbind list_bind]. fold (rowP1 row).
    rewrite fmap_app, fold_left_app, IH.
    destruct pixel; simpl; by rewrite <- app_assoc.
Qed.

Lemma decodeRow_rowP1 row : decodeRow true (rowP1 row) = row.
Proof.
  unfold decodeRow. rewrite runes_ascii by apply rowP1_ascii.
  apply decodeRow_P1_fold.
Qed.

Section ReadRows.
Import bufio.

(** [n] well-formed lines are read as [n] rows. *)
Lemma readRows_lines isP1 (lines : list gostring) rest tok acc :
  Forall (λ l, plain l ∧ (Z.of_nat (length l) < MaxScanTokenSize)%Z) lines →
  (readRows (length lines) isP1
     {| input := concat ((λ l, l ++ [LF]) <$> lines) ++ rest;
        token := tok; err := None |} acc).2
  = acc ++ (decodeRow isP1 <$> lines).
Proof.
  intros Hlines. revert tok acc.
  induction Hlines as [|l lines [Hp Hlen] _ IH]; intros tok acc.
  - simpl. by rewrite app_nil_r.
  - cbn [length readRows fmap list_fmap concat].
    rewrite <- !app_assoc. cbn [app].
    rewrite Scan_line by done. cbn [Text token].
    rewrite IH. by rewrite <- app_assoc.
Qed.
End ReadRows.

Lemma plain_printable s : Forall (λ b, 32 ≤ code b)%Z s → plain s.
Proof.
  intros Hs. eapply Forall_impl; [exact Hs|].
  intros b Hb. split; intros ->; by vm_compute in Hb.
Qed.

Lemma fmt_d_printable v : Forall (λ b, 32 ≤ code b)%Z (fmt.fmt_d v).
Proof.
  destruct (fmt_d_head v) as (c & ds & E & Hc).
  unfold fmt.fmt_d in *.
  pose proof (fmtDigits_digits 20 (Z.abs v) (Z.abs_nonneg v)) as Hd.
  rewrite Forall_fmap in Hd.
  assert (Forall (λ b, 32 ≤ code b)%Z (fmt.fmtDigits 20 (Z.abs v) [])) as Hd'.
  { eapply Forall_impl; [exact Hd|]. intros b [??]; cbv beta in *. lia. }
  destruct (v <? 0)%Z; [|done]. constructor; [|done]. by rewrite code_byte_of.
Qed.

Lemma fmt_d_length v : length (fmt.fmt_d v) ≤ 21.
Proof.
  unfold fmt.fmt_d. pose proof (fmtDigits_length 20 (Z.abs v)).
  destruct (v <? 0)%Z; cbn [length]; lia.
Qed.

Section RoundTrip.
Import bufio.

Lemma dimsLine_plain pbm : plain (dimsLine pbm).
Proof.
  apply plain_printable. unfold dimsLine.
  rewrite !Forall_app. split_and!; [apply fmt_d_printable| |apply fmt_d_printable].
  repeat constructor. by vm_compute.
Qed.

Lemma dimsLine_length pbm :
  (Z.of_nat (length (dimsLine pbm)) < MaxScanTokenSize)%Z.
Proof.
  unfold dimsLine, MaxScanTokenSize. rewrite !length_app.
  pose proof (fmt_d_length (width pbm)). pose proof (fmt_d_length (height pbm)).
  simpl. lia.
Qed.

(** The bytes [Save] writes for a plain-text image, line by line. *)
Lemma saveBytes_P1 pbm :
  magicNumber pbm = str "P1" →
  saveBytes pbm
  = str "P1" ++ LF :: dimsLine pbm ++ LF ::
      concat ((λ l, l ++ [LF]) <$> (rowP1 <$> data pbm)) ++ [].
Proof.
  intros Hm. rewrite saveBytes_spec. unfold headerBytes, dimsLine.
  rewrite Hm, app_nil_r. rewrite <- !app_assoc. cbn [app].
  do 2 f_equal. do 3 apply (f_equal2 app eq_refl).
  rewrite <- list_fmap_compose. apply (f_equal (cons LF)), (f_equal (@concat ascii)), list_fmap_ext.
  intros _ row _. apply rowBytes_P1.
Qed.

Lemma readPBM_saveBytes_P1 pbm :
  magicNumber pbm = str "P1" →
  dims_ok pbm →
  is_int (width pbm) → is_int (height pbm) →
  (width pbm < 32768)%Z →
  (readPBM (saveBytes pbm)).2 = Ok pbm.
Proof.
  intros Hm [Hh Hw] Hiw Hih Hlim.
  rewrite saveBytes_P1 by done. unfold readPBM, NewScanner.
  rewrite Scan_line; [|by repeat constructor|done].
  cbn [Text token]. rewrite bool_decide_eq_true_2 by done.
  rewrite Scan_line by (apply dimsLine_plain || apply dimsLine_length).
  cbn [Text token]. unfold dimsLine. rewrite Sscanf_header by done.
  rewrite <- Hh, Nat2Z.id.
  rewrite <- (length_fmap rowP1).
  destruct (readRows _ _ _ _) as [sc rows] eqn:Hrows.
  apply (f_equal snd) in Hrows. rewrite readRows_lines in Hrows.
  - cbn [snd] in *. subst rows. rewrite app_nil_l, <- list_fmap_compose.
    rewrite (list_fmap_ext _ id (data pbm)), list_fmap_id.
    + rewrite length_fmap, Hh, <- Hm. by destruct pbm.
    + intros _ row _. apply decodeRow_rowP1.
  - apply Forall_fmap. eapply Forall_impl; [exact Hw|].
    intros row Hrow. cbv beta in *. split; [apply rowP1_plain|].
    rewrite rowP1_length. unfold MaxScanTokenSize. lia.
Qed.
End RoundTrip.

Lemma scanN_S_r n s : scanN (S n) s = (Scan (scanN n s)).2.
Proof. revert s. induction n as [|n IH]; intros s; [done|]. apply IH. Qed.

Lemma Scan_false s : (Scan s).1 = false → Text (Scan s).2 = [].
Proof.
  unfold Scan, scanLine. destruct (err s).
  - destruct (break_line (input s)) as [line [r|]]; [done|].
    by destruct line.
  - destruct (break_line (input s)) as [line rest].
    destruct (_ <=? _)%Z; [done|].
    destruct rest as [r|]; [done|]. by destruct line.
Qed.

Lemma Scan_EOF s :
  (Scan s).1 = false → err (Scan s).2 = Some EOF → (Scan s).2 = atEOF.
Proof.
  unfold Scan, scanLine. destruct (err s) as [e|].
  - destruct (break_line (input s)) as [line [r|]]; [done|].
    destruct line; [|done]. simpl. by intros _ [= ->].
  - destruct (break_line (input s)) as [line rest].
    destruct (_ <=? _)%Z; [done|].
    destruct rest as [r|]; [done|]. by destruct line.
Qed.

Lemma scanN_atEOF n : scanN n atEOF = atEOF.
Proof. induction n as [|n IH]; [done|]. exact IH. Qed.

Lemma scanN_add a b s : scanN (a + b) s = scanN a (scanN b s).
Proof.
  revert s. induction b as [|b IH]; intros s.
  - by rewrite Nat.add_0_r.
  - rewrite Nat.add_succ_r. simpl. apply IH.
Qed.

(** Once a scan has failed at the end of the input, every scan fails. *)
Lemma scanN_after_EOF s k i :
  (Scan (scanN k s)).1 = false → err (Scan (scanN k s)).2 = Some EOF →
  k ≤ i → scanN (S i) s = atEOF.
Proof.
  intros Hf He Hi. pose proof (Scan_EOF _ Hf He) as Hk.
  rewrite <- scanN_S_r in Hk.
  replace (S i) with ((i - k) + S k) by lia.
  by rewrite scanN_add, Hk, scanN_atEOF.
Qed.

(** The rows [readRows] appends are the rows of the lines it scans. *)
Lemma readRows_spec n p1 s acc :
  (readRows n p1 s acc).2
  = acc ++ ((λ i, decodeRow p1 (Text (scanN (S i) s))) <$> seq 0 n).
Proof.
  revert s acc. induction n as [|n IH]; intros s acc.
  - simpl. by rewrite app_nil_r.
  - cbn [readRows]. destruct (Scan s) as [ok s'] eqn:Hs.
    rewrite IH, <- app_assoc. f_equal.
    cbn [seq fmap list_fmap app]. f_equal.
    + simpl. by rewrite Hs.
    + rewrite <- fmap_S_seq, <- list_fmap_compose.
      apply list_fmap_ext. intros _ i _. simpl. by rewrite Hs.
Qed.

(** [ReadPBM] on a file with a valid magic number: it does not fail, and
    the image is what the two header lines and the following [height]
    scans give. *)
Lemma readPBM_valid file :
  validMagic file →
  let '(n, w, h) := fmt.Sscanf_d_d (Text (afterDims file)) 0 0 in
  (readPBM file).2
  = Ok {| data := (λ i, decodeRow (isP1 file)
                           (Text (scanN (S i) (afterDims file))))
                    <$> seq 0 (Z.to_nat h);
          width := w; height := h;
          magicNumber := Text (afterMagic file) |}.
Proof.
  intros Hm. unfold validMagic, afterMagic in Hm.
  unfold readPBM, isP1, afterDims, afterMagic.
  cbn [scanN] in *.
  destruct (Scan (NewScanner file)) as [ok1 s1]. cbn [snd] in *.
  assert ((if bool_decide (Text s1 = str "P1") then Some true
           else if bool_decide (Text s1 = str "P4") then Some false else None)
          = Some (bool_decide (Text s1 = str "P1"))) as ->.
  { destruct Hm as [-> | ->]; done. }
  destruct (Scan s1) as [ok2 s2]. cbn [snd].
  destruct (fmt.Sscanf_d_d (Text s2) 0 0) as [[n w] h].
  destruct (readRows _ _ _ _) as [s3 rows] eqn:Hrows.
  apply (f_equal snd) in Hrows. rewrite readRows_spec in Hrows.
  cbn [snd] in *. by subst rows.
Qed.

(* ===================================================================== *)
(** * The packed rows that do round-trip *)
(* ===================================================================== *)

Lemma guard_lookup (row : list bool) n :
  (n <? length row) && default false (row !! n) = default false (row !! n).
Proof.
  destruct (Nat.ltb_spec n (length row)); [done|].
  by rewrite lookup_ge_None_2.
Qed.

(** The byte of a chunk depends on its eight pixels only. *)
Lemma packByte_chunk row i :
  packByte row i = packByte (chunkBits (drop i row)) 0.
Proof.
  unfold packByte. cbn [seq fold_left].
  rewrite !guard_lookup. unfold chunkBits. cbn [seq fmap list_fmap lookup list_lookup Nat.add].
  rewrite !lookup_drop. cbn [default from_option id]. done.
Qed.

Lemma chunk_facts (b0 b1 b2 b3 b4 b5 b6 b7 : bool) :
  let c := [b0; b1; b2; b3; b4; b5; b6; b7] in
  let v := packByte c 0 in
  (0 ≤ v < 256)%Z
  ∧ (∀ t, utf8.runes (fmt.fmt_c v ++ t) = v :: utf8.runes t)
  ∧ (∀ acc, unpackBits v acc = acc ++ c)
  ∧ (v ≠ 10%Z → v ≠ 13%Z → plain (fmt.fmt_c v))
  ∧ length (fmt.fmt_c v) ≤ 2.
Proof.
  destruct b0, b1, b2, b3, b4, b5, b6, b7; cbv zeta;
    (refine (conj _ (conj _ (conj _ (conj _ _))));
     [ by vm_compute
     | intros t; reflexivity
     | intros acc; cbn; by rewrite <- ?app_assoc
     | intros H10 H13; vm_compute in H10, H13; try done;
       unfold plain; vm_compute (fmt.fmt_c _);
       repeat first [ apply Forall_nil_2
                    | apply Forall_cons_2; [split; by vm_compute|] ]
     | vm_compute; lia ]).
Qed.

(** The facts of [chunk_facts] at the chunk that starts at pixel [i]. *)
Lemma packByte_facts row i :
  let v := packByte row i in
  (0 ≤ v < 256)%Z
  ∧ (∀ t, utf8.runes (fmt.fmt_c v ++ t) = v :: utf8.runes t)
  ∧ (∀ acc, unpackBits v acc = acc ++ chunkBits (drop i row))
  ∧ (v ≠ 10%Z → v ≠ 13%Z → plain (fmt.fmt_c v))
  ∧ length (fmt.fmt_c v) ≤ 2.
Proof.
  cbv zeta. rewrite packByte_chunk. unfold chunkBits at 1 3 5 7 8 9.
  cbn [seq fmap list_fmap]. apply chunk_facts.
Qed.

Section PackedRows.
Import fmt.

Lemma packLoop_step fuel row i :
  i < length row →
  packLoop (S fuel) row i []
  = fmt_c (packByte row i) ++ packLoop fuel row (i + 8) [].
Proof.
  intros Hi. cbn [packLoop]. destruct (Nat.ltb_spec i (length row)); [|lia].
  by rewrite packLoop_app.
Qed.

Lemma packLoop_done fuel row i :
  length row ≤ i → packLoop fuel row i [] = [].
Proof.
  intros Hi. destruct fuel; [done|]. cbn [packLoop].
  by destruct (Nat.ltb_spec i (length row)); [lia|].
Qed.

Lemma drop_nil_length {A} (l : list A) i : drop i l = [] ↔ length l ≤ i.
Proof.
  split.
  - intros H. apply (f_equal length) in H. rewrite length_drop in H.
    simpl in H. lia.
  - apply drop_ge.
Qed.

(** Reading a packed row gives its chunks, the last one filled. *)
Lemma decode_packLoop fuel row i acc :
  fold_left (λ row char, unpackBits char row)
    (utf8.runes (packLoop fuel row i [])) acc
  = acc ++ padRow fuel (drop i row).
Proof.
  revert i acc. induction fuel as [|fuel IH]; intros i acc.
  - simpl. by rewrite app_nil_r.
  - destruct (decide (i < length row)) as [Hi|Hi].
    + rewrite packLoop_step by done.
      destruct (packByte_facts row i) as (_ & Hrunes & Hbits & _).
      rewrite Hrunes. cbn [fold_left]. rewrite Hbits, IH.
      cbn [padRow]. destruct (drop i row) as [|b l] eqn:E.
      { apply drop_nil_length in E. lia. }
      rewrite <- E, drop_drop, <- app_assoc. repeat f_equal; lia.
    + rewrite packLoop_done by lia. rewrite drop_ge by lia.
      simpl. by rewrite app_nil_r.
Qed.

Lemma packLoop_plain fuel row k :
  no_terminator row → plain (packLoop fuel row (8 * k) []).
Proof.
  intros Hrow. revert k. induction fuel as [|fuel IH]; intros k.
  - constructor.
  - destruct (decide (8 * k < length row)) as [Hi|Hi].
    + rewrite packLoop_step by done. apply Forall_app. split.
      * destruct (packByte_facts row (8 * k)) as (_ & _ & _ & Hplain & _).
        apply Hplain; apply Hrow.
      * replace (8 * k + 8) with (8 * S k) by lia. apply IH.
    + rewrite packLoop_done by lia. constructor.
Qed.

(** Two bytes at most for every eight pixels. *)
Lemma packLoop_length fuel row i :
  4 * length (packLoop fuel row i []) ≤ (length row - i) + 7.
Proof.
  revert i. induction fuel as [|fuel IH]; intros i; [simpl; lia|].
  destruct (decide (i < length row)) as [Hi|Hi].
  - rewrite packLoop_step by done. rewrite length_app.
    destruct (packByte_facts row i) as (_ & _ & _ & _ & Hlen).
    destruct (decide (i + 8 < length row)) as [Hj|Hj].
    + specialize (IH (i + 8)). lia.
    + rewrite packLoop_done by lia. simpl. lia.
  - rewrite packLoop_done by lia. simpl. lia.
Qed.

Lemma decodeRow_packed row :
  decodeRow false (packLoop (length row) row 0 []) = padded row.
Proof. unfold decodeRow. by rewrite decode_packLoop. Qed.
End PackedRows.

(** ** What the filling adds *)

Lemma padRow_nil fuel : padRow fuel [] = [].
Proof. by destruct fuel. Qed.

Lemma chunkBits_full (l : list bool) : 8 ≤ length l → chunkBits l = take 8 l.
Proof.
  intros Hl. apply list_eq. intros k. unfold chunkBits.
  rewrite list_lookup_fmap. destruct (decide (k < 8)) as [Hk|Hk].
  - rewrite lookup_seq_lt, lookup_take_lt by done. simpl.
    destruct (lookup_lt_is_Some_2 l k) as [x ->]; [lia|done].
  - rewrite lookup_seq_ge, lookup_take_ge by lia. done.
Qed.

Lemma chunkBits_short (l : list bool) :
  length l < 8 → chunkBits l = l ++ replicate (8 - length l) false.
Proof.
  intros Hl. apply list_eq. intros k. unfold chunkBits.
  rewrite list_lookup_fmap. destruct (decide (k < 8)) as [Hk|Hk].
  - rewrite lookup_seq_lt by done. simpl.
    destruct (decide (k < length l)) as [Hkl|Hkl].
    + rewrite lookup_app_l by done.
      destruct (lookup_lt_is_Some_2 l k) as [x ->]; [lia|done].
    + rewrite lookup_app_r, lookup_ge_None_2 by lia. simpl.
      symmetry. apply lookup_replicate_2. lia.
  - rewrite lookup_seq_ge by lia. simpl. symmetry.
    apply lookup_ge_None_2. rewrite length_app, length_replicate. lia.
Qed.

(** The filled row is the row followed by [false] up to the next multiple
    of eight. *)
Lemma padRow_spec fuel (l : list bool) :
  length l ≤ 8 * fuel →
  padRow fuel l = l ++ replicate ((8 - length l `mod` 8) `mod` 8) false.
Proof.
  revert l. induction fuel as [|fuel IH]; intros l Hl.
  - destruct l; [done|simpl in Hl; lia].
  - destruct l as [|b l']; [done|]. set (l := b :: l') in *.
    cbn [padRow]. fold l.
    destruct (decide (8 ≤ length l)) as [Hfull|Hshort].
    + rewrite chunkBits_full by done. rewrite IH by (rewrite length_drop; lia).
      rewrite app_assoc, take_drop, length_drop. do 3 f_equal.
      replace (length l) with ((length l - 8) + 1 * 8) at 2 by lia.
      by rewrite Nat.Div0.mod_add.
    + rewrite chunkBits_short by lia. rewrite drop_ge, padRow_nil by lia.
      rewrite app_nil_r. do 2 f_equal.
      rewrite (Nat.mod_small (length l)) by lia.
      assert (0 < length l) by (unfold l; simpl; lia).
      rewrite Nat.mod_small; lia.
Qed.

Lemma padded_spec row :
  padded row = row ++ replicate ((8 - length row `mod` 8) `mod` 8) false.
Proof. apply padRow_spec. lia. Qed.

Lemma padded_full row : length row `mod` 8 = 0 → padded row = row.
Proof. intros H. rewrite padded_spec, H. simpl. apply app_nil_r. Qed.

(** ** The round trip of the packed images without line terminators *)

Lemma saveBytes_P4 pbm :
  magicNumber pbm = str "P4" →
  saveBytes pbm
  = str "P4" ++ LF :: dimsLine pbm ++ LF ::
      concat ((λ l, l ++ [LF])
                <$> ((λ row, packLoop (length row) row 0 []) <$> data pbm))
      ++ [].
Proof.
  intros Hm. rewrite saveBytes_spec. unfold headerBytes, dimsLine.
  rewrite Hm, app_nil_r. rewrite <- !app_assoc. cbn [app].
  do 2 f_equal. do 3 apply (f_equal2 app eq_refl).
  rewrite <- list_fmap_compose.
  apply (f_equal (cons LF)), (f_equal (@concat ascii)), list_fmap_ext.
  intros _ row _. unfold rowBytes, saveRow, fmt.Fprintln.
  by rewrite bool_decide_eq_false_2.
Qed.

(** A packed image whose rows match its dimensions, hold no chunk that
    packs to a line feed or a carriage return, and are at most 262136
    pixels wide (32767 chunks, which fit the buffer of the scanner at two
    bytes each), is read back with every row filled to a multiple of eight
    pixels; and as it was when the width is a multiple of eight. *)
Theorem packed_roundtrip pbm :
  magicNumber pbm = str "P4" →
  dims_ok pbm →
  is_int (width pbm) → is_int (height pbm) →
  (width pbm ≤ 262136)%Z →
  Forall no_terminator (data pbm) →
  (readPBM (saveBytes pbm)).2 = Ok (with_data pbm (padded <$> data pbm))
  ∧ ((width pbm `mod` 8 = 0)%Z → (readPBM (saveBytes pbm)).2 = Ok pbm).
Proof.
  intros Hm [Hh Hw] Hiw Hih Hlim Hterm.
  assert ((readPBM (saveBytes pbm)).2 = Ok (with_data pbm (padded <$> data pbm)))
    as Hread.
  { rewrite saveBytes_P4 by done. unfold readPBM, NewScanner.
    rewrite Scan_line; [|by repeat constructor|done].
    cbn [Text token]. rewrite bool_decide_eq_false_2 by done.
    rewrite bool_decide_eq_true_2 by done.
    rewrite Scan_line by (apply dimsLine_plain || apply dimsLine_length).
    cbn [Text token]. unfold dimsLine. rewrite Sscanf_header by done.
    rewrite <- Hh, Nat2Z.id.
    rewrite <- (length_fmap (λ row, packLoop (length row) row 0 [])).
    destruct (readRows _ _ _ _) as [sc rows] eqn:Hrows.
    apply (f_equal snd) in Hrows. rewrite readRows_lines in Hrows.
    - cbn [snd] in *. subst rows. rewrite app_nil_l, <- list_fmap_compose.
      rewrite (list_fmap_ext _ padded (data pbm)).
      + rewrite length_fmap, Hh, <- Hm. by destruct pbm.
      + intros _ row _. apply decodeRow_packed.
    - apply Forall_fmap. rewrite Forall_forall in Hw, Hterm.
      apply Forall_forall. intros row Hrow. cbv beta. split.
      + apply (packLoop_plain _ _ 0). by apply Hterm.
      + pose proof (packLoop_length (length row) row 0).
        specialize (Hw row Hrow). unfold MaxScanTokenSize. lia. }
  split; [done|]. intros Hmod. rewrite Hread. f_equal.
  assert (padded <$> data pbm = data pbm) as ->; [|apply with_data_id].
  rewrite <- (list_fmap_id (data pbm)) at 2. apply list_fmap_ext.
  intros _ row Hrow%list_elem_of_lookup_2. apply padded_full.
  rewrite Forall_forall in Hw. specialize (Hw row Hrow).
  apply Nat2Z.inj. rewrite Nat2Z.inj_mod. cbv beta in Hw.
  change (id row) with row. by rewrite Hw.
Qed.

Lemma dims_ok_with_data pbm (f : list bool → list bool) :
  (∀ row, length (f row) = length row) →
  dims_ok pbm → dims_ok (with_data pbm (f <$> data pbm)).
Proof.
  intros Hf [Hh Hw]. split; simpl.
  - by rewrite length_fmap.
  - apply Forall_fmap. eapply Forall_impl; [exact Hw|].
    intros row Hrow. simpl. by rewrite Hf.
Qed.

Lemma dims_ok_reverse pbm :
  dims_ok pbm → dims_ok (with_data pbm (reverse (data pbm))).
Proof.
  intros [Hh Hw]. split; simpl.
  - by rewrite length_reverse.
  - by apply Forall_reverse.
Qed.

Lemma map_map_negb (d : list (list bool)) :
  map (map negb) (map (map negb) d) = d.
Proof.
  rewrite map_map. rewrite <- (map_id d) at 2. apply map_ext. intros row.
  rewrite map_map. rewrite <- (map_id row) at 2. apply map_ext.
  apply negb_involutive.
Qed.

Lemma concat_Forall2_Permutation {A} (d1 d2 : list (list A)) :
  Forall2 Permutation d1 d2 → concat d1 ≡ₚ concat d2.
Proof.
  induction 1 as [|r1 r2 d1 d2 Hr _ IH]; [done|]. simpl. by rewrite Hr, IH.
Qed.

Lemma flipRow_middle {A} (row : list A) (w : Z) :
  (w ≤ Z.of_nat (length row))%Z → Z.odd w = true →
  index (flipRow w row) (w `quot` 2) = index row (w `quot` 2).
Proof.
  intros Hlen [m Hm]%Z.odd_spec. unfold flipRow.
  destruct (Z.le_gt_cases 0 w) as [Hpos|Hneg].
  - assert (w `quot` 2 = m)%Z as -> by (Z.quot_rem_to_equations; lia).
    replace m with (Z.of_nat (Z.to_nat m)) by lia. rewrite !index_nat.
    rewrite lookup_app_l by (rewrite length_reverse, length_take; lia).
    rewrite reverse_lookup by (rewrite length_take; lia).
    rewrite length_take, lookup_take_lt by lia. f_equal. lia.
  - by replace (Z.to_nat w) with 0 by lia.
Qed.

Lemma flipRows_length pbm :
  flip_safe pbm → length (flipRows pbm) = length (data pbm).
Proof.
  intros [Hh _]. unfold flipRows.
  rewrite length_app, length_fmap, length_take, length_drop. lia.
Qed.

Lemma flipRows_take pbm :
  flip_safe pbm →
  take (Z.to_nat (height pbm)) (flipRows pbm)
  = flipRow (width pbm) <$> take (Z.to_nat (height pbm)) (data pbm).
Proof.
  intros [Hh _]. unfold flipRows.
  apply take_app_length'. rewrite length_fmap, length_take. lia.
Qed.

Lemma flipRows_drop pbm :
  flip_safe pbm →
  drop (Z.to_nat (height pbm)) (flipRows pbm)
  = drop (Z.to_nat (height pbm)) (data pbm).
Proof.
  intros [Hh _]. unfold flipRows.
  apply drop_app_length'. rewrite length_fmap, length_take. lia.
Qed.

Lemma flip_safe_flipRows pbm :
  flip_safe pbm → flip_safe (with_data pbm (flipRows pbm)).
Proof.
  intros Hs. pose proof Hs as [Hh Hw]. split; cbn [data height width with_data].
  - rewrite flipRows_length by done. lia.
  - rewrite flipRows_take by done. apply Forall_fmap.
    eapply Forall_impl; [exact Hw|]. intros row Hrow.
    unfold compose. cbv beta in *. by rewrite flipRow_length.
Qed.

Lemma flipRows_twice pbm :
  flip_safe pbm → flipRows (with_data pbm (flipRows pbm)) = data pbm.
Proof.
  intros Hs. pose proof Hs as [Hh Hw].
  unfold flipRows at 1. cbn [data height width with_data].
  rewrite flipRows_take, flipRows_drop by done.
  rewrite <- list_fmap_compose.
  rewrite (list_fmap_ext _ id (take (Z.to_nat (height pbm)) (data pbm))).
  - by rewrite list_fmap_id, take_drop.
  - intros _ row Hrow%list_elem_of_lookup_2. rewrite Forall_forall in Hw.
    apply flipRow_twice. by apply Hw.
Qed.

Lemma decodeRow_nil p1 : decodeRow p1 [] = [].
Proof. by destruct p1. Qed.

(** Whatever makes a scan of the body fail, the row of that scan is
    empty. *)
Lemma failed_scan_row file (i : nat) :
  validMagic file →
  (Z.of_nat i < scannedHeight file)%Z →
  (Scan (scanN i (afterDims file))).1 = false →
  ∃ pbm, (readPBM file).2 = Ok pbm ∧ data pbm !! i = Some [].
Proof.
  intros Hm Hi Hfail. pose proof (readPBM_valid file Hm) as Hread.
  unfold scannedHeight, scanned in Hi.
  destruct (fmt.Sscanf_d_d _ 0 0) as [[n w] h]. cbn [snd] in Hi.
  eexists. split; [exact Hread|]. cbn [data].
  rewrite list_lookup_fmap, lookup_seq_lt by lia.
  cbn [fmap option_fmap option_map Nat.add].
  by rewrite scanN_S_r, (Scan_false _ Hfail), decodeRow_nil.
Qed.

(* ===================================================================== *)
(** * A line of dimensions that is not two integers *)
(* ===================================================================== *)

Section Malformed.
Import strconv fmt.
Local Open Scope Z_scope.

(** Comparisons that the bounds at hand settle. *)
Ltac settle :=
  repeat first
    [ rewrite (proj2 (Z.leb_le _ _)) by lia
    | rewrite (proj2 (Z.leb_gt _ _)) by lia
    | rewrite (proj2 (Z.ltb_lt _ _)) by lia
    | rewrite (proj2 (Z.ltb_ge _ _)) by lia
    | rewrite (proj2 (Z.eqb_eq _ _)) by lia
    | rewrite (proj2 (Z.eqb_neq _ _)) by lia ].

Lemma isSpace_ascii (b : byte) :
  code b < 128 → isSpace (code b) = isBlank b.
Proof.
  intros Hb. pose proof (code_range b) as Hr. unfold isBlank.
  generalize dependent (code b). intros r Hb Hr.
  unfold isSpace, space. cbn [isSpace_in].
  assert (r < 9 ∨ 9 ≤ r ≤ 13 ∨ 13 < r < 32 ∨ r = 32 ∨ 32 < r)
    as [H|[H|[H|[H|H]]]] by lia; settle; reflexivity.
Qed.

Lemma dropBlanks_ascii s : ascii_only s → ascii_only (dropBlanks s).
Proof.
  induction 1 as [|b t Hb Ht IH]; [constructor|].
  cbn [dropBlanks]. destruct (isBlank b); [done|by constructor].
Qed.

Lemma dropBlanks_head s c t : dropBlanks s = c :: t → isBlank c = false.
Proof.
  induction s as [|b s IH]; [done|]. cbn [dropBlanks].
  destruct (isBlank b) eqn:Hb; [done|]. by intros [= <- _].
Qed.

(** Skipping the spaces of an ASCII line either stops at a newline, with
    an error, or leaves the line without its leading blanks. *)
Lemma SkipSpace_ascii s :
  ascii_only s →
  SkipSpace (code <$> s) = None
  ∨ SkipSpace (code <$> s) = Some (code <$> dropBlanks s).
Proof.
  induction 1 as [|b t Hb Ht IH]; [by right|].
  cbn [fmap list_fmap SkipSpace dropBlanks].
  change (list_fmap _ _ code t) with (code <$> t).
  rewrite (isSpace_ascii b Hb).
  destruct (_ && _) eqn:Hcr.
  - apply andb_prop in Hcr as [Hcr _].
    assert (isBlank b = true) as ->; [|done].
    unfold isBlank, carriage in *.
    destruct (Z.eqb_spec (code b) 13); [|done].
    replace (code b) with 13 by done. reflexivity.
  - destruct (Z.eqb_spec (code b) newline); [by left|].
    destruct (isBlank b); [done|by right].
Qed.

Lemma SkipSpace_stopped c t :
  code c < 128 → isBlank c = false →
  SkipSpace (code c :: t) = Some (code c :: t).
Proof.
  intros Hc Hb. cbn [SkipSpace]. rewrite (isSpace_ascii c Hc), Hb.
  unfold isBlank, carriage, newline in *.
  destruct (Z.eqb_spec (code c) 13) as [E|_].
  { rewrite E in Hb. done. }
  cbn [andb]. destruct (Z.eqb_spec (code c) 10) as [E|_]; [|done].
  rewrite E in Hb. done.
Qed.

Lemma scanDigits_head inp tok rest :
  scanDigits inp = (tok, rest) →
  match inp with
  | c :: _ => if decimalDigits c then ∃ tok', tok = c :: tok' else tok = []
  | [] => tok = []
  end.
Proof.
  destruct inp as [|c inp]; cbn [scanDigits]; [by intros [= <- _]|].
  destruct (decimalDigits c); [|by intros [= <- _]].
  destruct (scanDigits inp) as [tok' r]. intros [= <- _]. by eexists.
Qed.

(** A token that does not begin with a digit is no integer. *)
Lemma scan_no_digit neg inp :
  match inp with c :: _ => isDigit c = false | [] => True end →
  (let '(tok, inp2) := scanDigits inp in
   match tok with
   | [] => None
   | _ => v ← ParseInt neg tok; Some (v, inp2)
   end) = None.
Proof.
  intros Hhead. destruct (scanDigits inp) as [tok r] eqn:Hscan.
  apply scanDigits_head in Hscan.
  destruct inp as [|c inp]; [by subst|].
  destruct (decimalDigits c); [|by subst].
  destruct Hscan as [tok' ->]. unfold ParseInt. cbn [parseDigits].
  by rewrite Hhead.
Qed.

Lemma isDigit_byte c : isDigit (code c) = isDigitByte c.
Proof. done. Qed.

Lemma sign_byte c : sign (code c) = isSignByte c.
Proof. done. Qed.

(** Scanning an integer where none begins. *)
Lemma scanInt_none s :
  ascii_only s → startsWithInteger s = false →
  scanInt (code <$> dropBlanks s) = None.
Proof.
  intros Hs Hstart. unfold startsWithInteger in Hstart.
  pose proof (dropBlanks_ascii s Hs) as Hd.
  destruct (dropBlanks s) as [|c t] eqn:Hdrop; [done|].
  apply dropBlanks_head in Hdrop.
  apply Forall_cons in Hd as [Hc Ht].
  unfold scanInt. cbn [fmap list_fmap].
  change (list_fmap _ _ code t) with (code <$> t).
  rewrite SkipSpace_stopped by done. cbn [mbind option_bind].
  rewrite sign_byte.
  destruct (isDigitByte c) eqn:Hdig; [done|].
  destruct (isSignByte c) eqn:Hsign.
  - apply scan_no_digit. destruct t as [|d t]; [done|].
    cbn [fmap list_fmap]. by rewrite isDigit_byte.
  - apply (scan_no_digit false (code c :: (code <$> t))).
    by rewrite isDigit_byte.
Qed.

Lemma scan_after_spaces s :
  ascii_only s → startsWithInteger s = false →
  (inp ← SkipSpace (code <$> s); scanInt inp) = None.
Proof.
  intros Hs Hstart. destruct (SkipSpace_ascii s Hs) as [-> | ->]; [done|].
  cbn [mbind option_bind]. by apply scanInt_none.
Qed.

(** Nothing is stored from a line on which no integer begins. *)
Lemma Sscanf_nothing line a b :
  ascii_only line → startsWithInteger line = false →
  Sscanf_d_d line a b = (0%nat, a, b).
Proof.
  intros Hl Hstart. unfold Sscanf_d_d. rewrite runes_ascii by done.
  by rewrite scan_after_spaces.
Qed.

Lemma skipBlank_ascii s :
  ascii_only s →
  ∃ s', skipBlank (code <$> s) = code <$> s'
    ∧ ascii_only s' ∧ dropBlanks s' = dropBlanks s.
Proof.
  induction 1 as [|b t Hb Ht IH].
  { exists []. split_and!; [done|constructor|done]. }
  cbn [fmap list_fmap skipBlank].
  change (list_fmap _ _ code t) with (code <$> t).
  rewrite (isSpace_ascii b Hb).
  destruct (isBlank b) eqn:Hblank.
  - destruct (Z.eqb_spec (code b) newline) as [E|_]; cbn [andb negb].
    + exists (b :: t). split_and!; [done|by constructor|done].
    + destruct IH as (s' & -> & Hs' & Hdrop). exists s'.
      split_and!; [done|done|]. cbn [dropBlanks]. by rewrite Hblank.
  - cbn [andb]. exists (b :: t). split_and!; [done|by constructor|done].
Qed.

Lemma endsInteger_ends_number rest :
  endsInteger rest = true → ends_number (code <$> rest).
Proof.
  destruct rest as [|c rest]; [done|]. cbn. unfold decimalDigits.
  intros [H1 H2]%andb_prop. rewrite isDigit_byte.
  apply negb_true_iff in H1, H2. by rewrite H1, H2.
Qed.

(** The first integer is stored and the second is not, where the line
    goes on without one. *)
Lemma Sscanf_first_only w rest a b :
  is_int w → ascii_only rest →
  endsInteger rest = true → startsWithInteger rest = false →
  Sscanf_d_d (fmt_d w ++ rest) a b = (1%nat, w, b).
Proof.
  intros Hw Hrest Hends Hstart. unfold Sscanf_d_d.
  rewrite runes_app_ascii by apply fmt_d_ascii.
  rewrite runes_ascii by done.
  destruct (fmt_d_head w) as (cw & dw & Ew & Hcw).
  pose proof (scanInt_fmt_d w (code <$> rest) Hw
                (endsInteger_ends_number rest Hends)) as Hs1.
  revert Hs1. rewrite Ew. cbn [app]. intros Hs1.
  rewrite SkipSpace_printable by done. cbn [mbind option_bind].
  rewrite Hs1.
  assert ((inp ← advanceSpace (code <$> rest); inp ← SkipSpace inp;
           scanInt inp) = None) as ->; [|done].
  destruct rest as [|c t]; [done|].
  apply Forall_cons in Hrest as Hct. destruct Hct as [Hc Ht].
  unfold advanceSpace. cbn [fmap list_fmap].
  change (list_fmap _ _ code t) with (code <$> t).
  destruct (isSpace (code c)) eqn:Hsp; [|done]. cbn [negb].
  destruct (Z.eqb_spec (code c) newline); [done|].
  cbn [mbind option_bind].
  destruct (skipBlank_ascii (c :: t) Hrest) as (s' & Hskip & Hs' & Hdrop).
  cbn [fmap list_fmap] in Hskip.
  change (list_fmap _ _ code t) with (code <$> t) in Hskip.
  rewrite Hskip. apply scan_after_spaces; [done|].
  unfold startsWithInteger in *. by rewrite Hdrop.
Qed.
End Malformed.

(** ** Such lines are not two natural numbers *)

Lemma fieldsFrom_dropBlanks s : fieldsFrom s [] = fieldsFrom (dropBlanks s) [].
Proof.
  induction s as [|b s IH]; [done|]. cbn [fieldsFrom dropBlanks].
  destruct (isBlank b) eqn:Hb; [done|]. cbn [fieldsFrom]. by rewrite Hb.
Qed.

Lemma fieldsFrom_first s cur :
  cur ≠ [] → ∃ pre more, fieldsFrom s cur = (cur ++ pre) :: more.
Proof.
  revert cur. induction s as [|b s IH]; intros cur Hcur.
  - exists [], []. cbn. rewrite app_nil_r. by destruct cur.
  - cbn [fieldsFrom]. destruct (isBlank b).
    + exists [], (fieldsFrom s []). rewrite app_nil_r. by destruct cur.
    + destruct (IH (cur ++ [b])) as (pre & more & ->); [by destruct cur|].
      exists (b :: pre), more. by rewrite <- app_assoc.
Qed.

Lemma fieldsFrom_app d rest cur :
  Forall (λ b, isBlank b = false) d →
  fieldsFrom (d ++ rest) cur = fieldsFrom rest (cur ++ d).
Proof.
  intros Hd. revert cur. induction Hd as [|b d Hb _ IH]; intros cur.
  - by rewrite app_nil_r.
  - cbn [app fieldsFrom]. rewrite Hb, IH, <- app_assoc. done.
Qed.

Lemma twoNaturals_fields line :
  (∀ a b, fieldsFrom line [] = [a; b] →
     forallb isDigitByte a && forallb isDigitByte b = false) →
  twoNaturals line = false.
Proof.
  intros H. unfold twoNaturals.
  destruct (fieldsFrom line []) as [|a [|b [|c l]]]; try done. by apply H.
Qed.

Lemma forallb_digit_mid (l1 l2 : gostring) c :
  isDigitByte c = false → forallb isDigitByte (l1 ++ c :: l2) = false.
Proof.
  intros Hc. rewrite forallb_app. cbn [forallb]. rewrite Hc.
  apply andb_false_r.
Qed.

Lemma startsWithInteger_head s :
  startsWithInteger s = false →
  dropBlanks s = [] ∨ ∃ c t, dropBlanks s = c :: t ∧ isDigitByte c = false.
Proof.
  unfold startsWithInteger. destruct (dropBlanks s) as [|c t]; [by left|].
  right. exists c, t. split; [done|]. by destruct (isDigitByte c).
Qed.

Lemma second_field_none s :
  startsWithInteger s = false →
  fieldsFrom s [] = []
  ∨ ∃ c pre more, fieldsFrom s [] = (c :: pre) :: more
                  ∧ isDigitByte c = false.
Proof.
  intros Hstart. rewrite fieldsFrom_dropBlanks.
  destruct (startsWithInteger_head s Hstart) as [->|(c & t & Hd & Hc)];
    [by left|].
  right. pose proof (dropBlanks_head _ _ _ Hd) as Hb. rewrite Hd.
  cbn [fieldsFrom]. rewrite Hb.
  destruct (fieldsFrom_first t ([] ++ [c])) as (pre & more & ->); [done|].
  by exists c, pre, more.
Qed.

(** A line on which no integer begins is not two natural numbers. *)
Lemma twoNaturals_nothing line :
  startsWithInteger line = false → twoNaturals line = false.
Proof.
  intros Hstart. apply twoNaturals_fields. intros a b Hf.
  destruct (second_field_none line Hstart) as [E|(c & pre & more & E & Hc)];
    rewrite E in Hf; [done|].
  injection Hf as <- _. cbn [forallb]. by rewrite Hc.
Qed.

Lemma fmt_d_no_blank w : Forall (λ b, isBlank b = false) (fmt.fmt_d w).
Proof.
  pose proof (fmt_d_printable w) as Hp. pose proof (fmt_d_ascii w) as Ha.
  assert (Forall (λ b, code b ≠ 32%Z) (fmt.fmt_d w)) as Hns.
  { unfold fmt.fmt_d.
    pose proof (fmtDigits_digits 20 (Z.abs w) (Z.abs_nonneg w)) as Hd.
    rewrite Forall_fmap in Hd.
    assert (Forall (λ b, code b ≠ 32%Z) (fmt.fmtDigits 20 (Z.abs w) [])).
    { eapply Forall_impl; [exact Hd|]. intros b Hb. unfold compose in Hb.
      unfold digit_rune in Hb. lia. }
    destruct (w <? 0)%Z; [|done]. constructor; [|done].
    by rewrite code_byte_of. }
  rewrite Forall_forall in Hp, Hns. apply Forall_forall. intros b Hb.
  specialize (Hp b Hb). specialize (Hns b Hb). unfold isBlank.
  destruct (Z.eqb_spec (code b) 32); [done|].
  destruct (Z.leb_spec 9 (code b)), (Z.leb_spec (code b) 13); try done; lia.
Qed.

(** A line that is one integer and goes on without a second one is not
    two natural numbers. *)
Lemma twoNaturals_first_only w rest :
  endsInteger rest = true → startsWithInteger rest = false →
  twoNaturals (fmt.fmt_d w ++ rest) = false.
Proof.
  intros Hends Hstart. apply twoNaturals_fields. intros a b.
  rewrite (fieldsFrom_app _ _ _ (fmt_d_no_blank w)). cbn [app].
  assert (fmt.fmt_d w ≠ []) as Hne.
  { destruct (fmt_d_head w) as (c & ds & E & _). intros E'.
    by rewrite E' in E. }
  destruct rest as [|c t].
  - cbn [fieldsFrom]. by destruct (fmt.fmt_d w).
  - cbn [fieldsFrom]. destruct (isBlank c) eqn:Hb.
    + assert (fieldsFrom t [] = fieldsFrom (c :: t) []) as Ht
        by (cbn [fieldsFrom]; by rewrite Hb).
      destruct (second_field_none (c :: t) Hstart)
        as [E|(c' & pre & more & E & Hc')]; rewrite <- Ht in E.
      * rewrite E. by destruct (fmt.fmt_d w).
      * rewrite E. destruct (fmt.fmt_d w) as [|d ds]; [done|].
        intros [= <- <- _]. cbn [forallb]. rewrite Hc'.
        apply andb_false_r.
    + cbn [endsInteger] in Hends. apply andb_prop in Hends as [Hc _].
      apply negb_true_iff in Hc.
      destruct (fieldsFrom_first t (fmt.fmt_d w ++ [c])) as (pre & more & ->);
        [by destruct (fmt.fmt_d w)|].
      intros [= <- _]. rewrite <- app_assoc. cbn [app].
      by rewrite forallb_digit_mid.
Qed.

(* ===================================================================== *)
(** * The claims *)
(* ===================================================================== *)

(** C1 fails on the code.  The eight pixels 00001010 pack to the byte 10,
    the line feed: Save writes it into the row, and ReadPBM, which reads the
    rows line by line, finds an empty line where the row was. *)
Theorem C1_packed_roundtrip_breaks_at_line_feed :
  dims_ok newline_image
  ∧ (width newline_image `mod` 8 = 0)%Z
  ∧ saveBytes newline_image = str "P4" ++ [LF] ++ str "8 1" ++ [LF] ++ [LF; LF]
  ∧ (readPBM (saveBytes newline_image)).2 = Ok (with_data newline_image [[]])
  ∧ (readPBM (saveBytes newline_image)).2 ≠ Ok newline_image.
Proof.
  split_and!; try reflexivity; [|by vm_compute].
  split; [reflexivity|]. by repeat constructor.
Qed.

(** C2 fails on the code.  The chunk packs to the value 160, but the verb
    %c writes it as the two bytes of the UTF-8 encoding of U+00A0; and a
    row that is the single byte 160 is no valid UTF-8: the range loop reads
    it as U+FFFD, whose low eight bits give 11111101. *)
Theorem C2_byte_A0_is_not_written_nor_read_as_one_byte :
  packByte chunk_A0 0 = 160%Z
  ∧ saveRow (str "P4") [] chunk_A0 = [byte_of 194; byte_of 160; LF]
  ∧ decodeRow false [byte_of 160]
    = [true; true; true; true; true; true; false; true]
  ∧ (readPBM (str "P4" ++ [LF] ++ str "8 1" ++ [LF] ++ [byte_of 160; LF])).2
    = Ok {| data := [[true; true; true; true; true; true; false; true]];
            width := 8; height := 1; magicNumber := str "P4" |}.
Proof. split_and!; reflexivity. Qed.

(** C3.  When the first line is neither P1 nor P4, ReadPBM fails with the
    error "unsupported PBM format: <first line>", no image is produced, and
    the scanner is left as the one scan of the first line left it: no line
    of the dimensions or of the rows has been consumed. *)
Theorem C3_format_rejection file :
  Text (afterMagic file) ≠ str "P1" → Text (afterMagic file) ≠ str "P4" →
  readPBM file = (afterMagic file, Err (unsupported (Text (afterMagic file))))
  ∧ ∀ fs filename, os.Open fs filename = Some file →
      ReadPBM fs filename = Err (unsupported (Text (afterMagic file))).
Proof.
  intros H1 H4.
  assert (readPBM file
          = (afterMagic file, Err (unsupported (Text (afterMagic file)))))
    as Hread.
  { unfold readPBM, afterMagic in *. cbn [scanN] in *.
    destruct (Scan (NewScanner file)) as [ok s1]. cbn [snd] in *.
    by rewrite !bool_decide_eq_false_2. }
  split; [done|]. intros fs filename Hopen.
  unfold ReadPBM. by rewrite Hopen, Hread.
Qed.

Lemma C3_format_rejection_witness :
  (Text (afterMagic p2_file) ≠ str "P1" ∧ Text (afterMagic p2_file) ≠ str "P4")
  ∧ readPBM p2_file
    = ({| input := fileOfLines ["3 2"; "101"; "010"]; token := str "P2";
          err := None |},
       Err (unsupported (str "P2"))).
Proof.
  assert (Text (afterMagic p2_file) ≠ str "P1") as H1 by (by vm_compute).
  assert (Text (afterMagic p2_file) ≠ str "P4") as H4 by (by vm_compute).
  split; [done|]. exact (proj1 (C3_format_rejection p2_file H1 H4)).
Defined.

(** C4 as stated fails: on the line "5 x", which is not two integers, the
    width that was scanned before the error stays. *)
Lemma C4_counterexample :
  validMagic bad_dims_file
  ∧ twoNaturals (Text (afterDims bad_dims_file)) = false
  ∧ (readPBM bad_dims_file).2
    = Ok {| data := []; width := 5; height := 0; magicNumber := str "P1" |}
  ∧ ¬ (∃ pbm, (readPBM bad_dims_file).2 = Ok pbm
            ∧ width pbm = 0%Z ∧ height pbm = 0%Z).
Proof.
  split_and!; [by left|done|done|].
  intros (pbm & Hread & Hw & _). vm_compute in Hread.
  injection Hread as <-. discriminate Hw.
Qed.

(** C4, amended.  Take a source with a valid magic number whose second
    line, made of ASCII characters, is malformed in one of two ways.  If
    no integer begins the line, that is, after its leading blanks comes
    nothing, or a character that is no digit, or a sign that no digit
    follows, then ReadPBM does not fail and the width and the height are
    both zero.  If the line is an integer in decimal followed by text that
    does not continue the number and in which, after leading blanks, no
    integer begins (as in "5", "5 x" and "5x"), then ReadPBM does not fail,
    the width is that integer and the height is zero.  In both cases the
    line is not two natural numbers and the image has no rows. *)
Theorem C4_malformed_header file :
  validMagic file →
  (ascii_only (dimsText file) → startsWithInteger (dimsText file) = false →
     twoNaturals (dimsText file) = false
     ∧ (readPBM file).2
       = Ok {| data := []; width := 0; height := 0;
               magicNumber := Text (afterMagic file) |})
  ∧ (∀ w rest,
       dimsText file = fmt.fmt_d w ++ rest →
       is_int w → ascii_only rest →
       endsInteger rest = true → startsWithInteger rest = false →
       twoNaturals (dimsText file) = false
       ∧ (readPBM file).2
         = Ok {| data := []; width := w; height := 0;
                 magicNumber := Text (afterMagic file) |}).
Proof.
  intros Hm. pose proof (readPBM_valid file Hm) as Hread.
  fold (dimsText file) in Hread. split.
  - intros Hascii Hstart. split; [by apply twoNaturals_nothing|].
    by rewrite Sscanf_nothing in Hread.
  - intros w rest Hline Hw Hrest Hends Hstart. rewrite Hline in *.
    split; [by apply twoNaturals_first_only|].
    by rewrite Sscanf_first_only in Hread.
Qed.

Lemma C4_malformed_header_witness :
  (validMagic no_dims_file
   ∧ dimsText no_dims_file = str "wide"
   ∧ ascii_only (dimsText no_dims_file)
   ∧ startsWithInteger (dimsText no_dims_file) = false)
  ∧ (twoNaturals (dimsText no_dims_file) = false
     ∧ (readPBM no_dims_file).2
       = Ok {| data := []; width := 0; height := 0;
               magicNumber := str "P4" |})
  ∧ (validMagic bad_dims_file
     ∧ dimsText bad_dims_file = fmt.fmt_d 5 ++ str " x"
     ∧ is_int 5%Z ∧ ascii_only (str " x")
     ∧ endsInteger (str " x") = true
     ∧ startsWithInteger (str " x") = false)
  ∧ (twoNaturals (dimsText bad_dims_file) = false
     ∧ (readPBM bad_dims_file).2
       = Ok {| data := []; width := 5%Z; height := 0%Z;
               magicNumber := str "P1" |}).
Proof.
  assert (validMagic no_dims_file) as Hm by (right; reflexivity).
  assert (ascii_only (dimsText no_dims_file)) as Ha
    by (repeat (apply Forall_cons_2; [by vm_compute|]); apply Forall_nil_2).
  assert (startsWithInteger (dimsText no_dims_file) = false) as Hs
    by reflexivity.
  assert (validMagic bad_dims_file) as Hm' by (left; reflexivity).
  assert (dimsText bad_dims_file = fmt.fmt_d 5 ++ str " x") as Hl
    by reflexivity.
  assert (is_int 5) as Hw by (split; by vm_compute).
  assert (ascii_only (str " x")) as Ha'
    by (repeat (apply Forall_cons_2; [by vm_compute|]); apply Forall_nil_2).
  split; [by split_and!|]. split.
  { exact (proj1 (C4_malformed_header no_dims_file Hm) Ha Hs). }
  split; [by split_and!|].
  exact (proj2 (C4_malformed_header bad_dims_file Hm') 5%Z (str " x")
           Hl Hw Ha' eq_refl eq_refl).
Defined.

(** C5 fails on the code.  A row of 32768 pixels is written as a line of
    65536 bytes.  The scanner of ReadPBM, left with its default buffer of
    64 KiB, stops at that line with ErrTooLong; ReadPBM looks neither at
    the result of Scan nor at the error of the scanner, and returns, with
    no error, the image with an empty row. *)
Theorem C5_plaintext_roundtrip_breaks_at_long_rows :
  magicNumber wide_image = str "P1"
  ∧ dims_ok wide_image
  ∧ (Scan (afterDims (saveBytes wide_image))).1 = false
  ∧ err (readPBM (saveBytes wide_image)).1 = Some ErrTooLong
  ∧ (readPBM (saveBytes wide_image)).2 = Ok (with_data wide_image [[]])
  ∧ (readPBM (saveBytes wide_image)).2 ≠ Ok wide_image.
Proof.
  assert ((readPBM (saveBytes wide_image)).2 = Ok (with_data wide_image [[]]))
    as Hread.
  { rewrite saveBytes_P1 by done. vm_compute. reflexivity. }
  split_and!; [done| | | |done|].
  - split; [reflexivity|]. constructor; [by vm_compute|constructor].
  - rewrite saveBytes_P1 by done. vm_compute. reflexivity.
  - rewrite saveBytes_P1 by done. vm_compute. reflexivity.
  - rewrite Hread. by intros [=].
Qed.

(** C6 as stated fails on an image whose rows are longer than its width,
    such as ReadPBM builds from a P4 file of width 1: Invert negates the
    first pixel of the row and leaves the seven others. *)
Lemma C6_counterexample :
  (readPBM padded_file).2 = Ok padded_image
  ∧ Invert padded_image
    = Some (with_data padded_image
              [[true; true; false; false; false; false; false; false]])
  ∧ ¬ (∃ pbm', Invert padded_image = Some pbm'
         ∧ data pbm' = map (map negb) (data padded_image)).
Proof.
  split_and!; [reflexivity..|].
  intros (pbm' & Hinv & Hdata). vm_compute in Hinv.
  injection Hinv as <-. discriminate Hdata.
Qed.

(** C6, amended.  For every image that satisfies the dimension invariant,
    Invert succeeds and replaces every pixel of the grid with its negation,
    leaving width, height and magic number as they were; and inverting the
    result gives the image back. *)
Theorem C6_invert_negates pbm :
  dims_ok pbm →
  ∃ pbm', Invert pbm = Some pbm'
    ∧ data pbm' = map (map negb) (data pbm)
    ∧ width pbm' = width pbm ∧ height pbm' = height pbm
    ∧ magicNumber pbm' = magicNumber pbm
    ∧ Invert pbm' = Some pbm.
Proof.
  intros Hok. exists (with_data pbm (map (map negb) (data pbm))).
  split_and!; try done.
  - by apply Invert_spec.
  - rewrite Invert_spec.
    + destruct pbm; unfold with_data; simpl. by rewrite map_map_negb.
    + apply dims_ok_with_data; [|done]. intros row. apply length_map.
Qed.

Lemma C6_invert_negates_witness :
  dims_ok image_3x2
  ∧ ∃ pbm', Invert image_3x2 = Some pbm'
    ∧ data pbm' = map (map negb) (data image_3x2)
    ∧ width pbm' = width image_3x2 ∧ height pbm' = height image_3x2
    ∧ magicNumber pbm' = magicNumber image_3x2
    ∧ Invert pbm' = Some image_3x2.
Proof.
  assert (dims_ok image_3x2) as Hok
    by (split; [reflexivity | repeat constructor]).
  split; [exact Hok | apply (C6_invert_negates image_3x2 Hok)].
Defined.

(** C7 as stated fails on an image with a row shorter than its width, such
    as ReadPBM builds from a file that ends before its rows: Flip indexes
    past the end of the row and panics. *)
Lemma C7_counterexample :
  (readPBM truncated_file).2 = Ok truncated_image
  ∧ Flip truncated_image = None
  ∧ ¬ (∃ pbm', Flip truncated_image = Some pbm'
         ∧ Flip pbm' = Some truncated_image).
Proof.
  split_and!; [reflexivity..|]. by intros (pbm' & Hflip & _).
Qed.

(** C7, amended.  For every image whose rows up to [height] are present
    and hold at least [width] pixels each, Flip succeeds and a second Flip
    gives the image back; when the width is odd, the pixels of the middle
    column (index width/2) are the same after one Flip. *)
Theorem C7_flip_twice pbm :
  flip_safe pbm →
  ∃ pbm', Flip pbm = Some pbm'
    ∧ Flip pbm' = Some pbm
    ∧ (Z.odd (width pbm) = true →
       ∀ y, At pbm' (width pbm `quot` 2) y = At pbm (width pbm `quot` 2) y).
Proof.
  intros Hs. exists (with_data pbm (flipRows pbm)).
  split_and!.
  - by apply Flip_general.
  - rewrite Flip_general by by apply flip_safe_flipRows.
    fold (flipRows (with_data pbm (flipRows pbm))).
    rewrite flipRows_twice by done. by rewrite with_data_twice, with_data_id.
  - intros Hodd y. unfold At. cbn [data with_data].
    destruct (Z.ltb_spec y 0) as [Hy|Hy]; [by rewrite !index_neg|].
    set (i := Z.to_nat y). replace y with (Z.of_nat i) by lia.
    rewrite !index_nat. destruct Hs as [Hh Hw]. unfold flipRows.
    destruct (decide (i < Z.to_nat (height pbm))) as [Hi|Hi].
    + rewrite lookup_app_l by (rewrite length_fmap, length_take; lia).
      rewrite list_lookup_fmap, lookup_take_lt by done.
      destruct (data pbm !! i) as [row|] eqn:Hrow; [|done].
      cbn [fmap option_fmap option_map mbind option_bind].
      apply flipRow_middle; [|done].
      rewrite Forall_forall in Hw. apply Hw.
      apply list_elem_of_lookup. exists i. by rewrite lookup_take_lt.
    + rewrite lookup_app_r by (rewrite length_fmap, length_take; lia).
      rewrite length_fmap, length_take, lookup_drop. do 2 f_equal. lia.
Qed.

Lemma C7_flip_twice_witness :
  flip_safe three_wide_image
  ∧ ∃ pbm', Flip three_wide_image = Some pbm'
    ∧ data pbm' = [[true; true; false; false; false; false; false; false]]
    ∧ Flip pbm' = Some three_wide_image
    ∧ ∀ y, At pbm' 1 y = At three_wide_image 1 y.
Proof.
  assert (flip_safe three_wide_image) as Hs
    by (split; [vm_compute; lia | repeat constructor; by vm_compute]).
  destruct (C7_flip_twice three_wide_image Hs) as (pbm' & H1 & H2 & H3).
  split; [exact Hs|]. exists pbm'. split_and!.
  - exact H1.
  - assert (Flip three_wide_image
            = Some (with_data three_wide_image
                      [[true; true; false; false; false; false; false;
                        false]])) as Hflip by reflexivity.
    rewrite Hflip in H1. by injection H1 as <-.
  - exact H2.
  - exact (H3 eq_refl).
Defined.

(** An image decoded from a packed file need not meet that condition: a
    line of one character gives a row of eight pixels, and under a width
    of nine Flip indexes past its end. *)
Example flip_panics_on_a_short_packed_row :
  (readPBM (fileOfLines ["P4"; "9 1"; "@"])).2
  = Ok {| data := [[false; true; false; false; false; false; false; false]];
          width := 9; height := 1; magicNumber := str "P4" |}
  ∧ Flip {| data := [[false; true; false; false; false; false; false; false]];
            width := 9; height := 1; magicNumber := str "P4" |} = None.
Proof. split; reflexivity. Qed.

(** C8.  On an image that satisfies the dimension invariant, Invert, Flip
    and Flop succeed and keep the invariant, the width and the height;
    Invert negates the grid element-wise, Flip permutes the pixels within
    each row, Flop permutes the rows, and both leave the multiset of pixels
    as it was. *)
Theorem C8_transforms_preserve_invariant pbm :
  dims_ok pbm →
  (∃ p, Invert pbm = Some p ∧ dims_ok p
      ∧ width p = width pbm ∧ height p = height pbm
      ∧ data p = map (map negb) (data pbm))
  ∧ (∃ p, Flip pbm = Some p ∧ dims_ok p
      ∧ width p = width pbm ∧ height p = height pbm
      ∧ Forall2 Permutation (data p) (data pbm)
      ∧ concat (data p) ≡ₚ concat (data pbm))
  ∧ (∃ p, Flop pbm = Some p ∧ dims_ok p
      ∧ width p = width pbm ∧ height p = height pbm
      ∧ data p ≡ₚ data pbm
      ∧ concat (data p) ≡ₚ concat (data pbm)).
Proof.
  intros Hok. split_and!.
  - exists (with_data pbm (map (map negb) (data pbm))). split_and!; try done.
    + by apply Invert_spec.
    + apply dims_ok_with_data; [|done]. intros row. apply length_map.
  - exists (with_data pbm (map reverse (data pbm))).
    assert (Forall2 Permutation (map reverse (data pbm)) (data pbm)) as Hperm.
    { apply Forall2_fmap_l, Forall_Forall2_diag, Forall_forall.
      intros row _. apply reverse_Permutation. }
    split_and!; try done.
    + by apply Flip_spec.
    + apply dims_ok_with_data; [|done]. intros row. apply length_reverse.
    + by apply concat_Forall2_Permutation.
  - exists (with_data pbm (reverse (data pbm))).
    split_and!; try done.
    + apply Flop_spec, Hok.
    + by apply dims_ok_reverse.
    + apply reverse_Permutation.
    + simpl. by rewrite reverse_Permutation.
Qed.

Lemma C8_transforms_preserve_invariant_witness :
  dims_ok image_3x2
  ∧ (∃ p, Invert image_3x2 = Some p ∧ dims_ok p
      ∧ width p = width image_3x2 ∧ height p = height image_3x2
      ∧ data p = map (map negb) (data image_3x2))
  ∧ (∃ p, Flip image_3x2 = Some p ∧ dims_ok p
      ∧ width p = width image_3x2 ∧ height p = height image_3x2
      ∧ Forall2 Permutation (data p) (data image_3x2)
      ∧ concat (data p) ≡ₚ concat (data image_3x2))
  ∧ (∃ p, Flop image_3x2 = Some p ∧ dims_ok p
      ∧ width p = width image_3x2 ∧ height p = height image_3x2
      ∧ data p ≡ₚ data image_3x2
      ∧ concat (data p) ≡ₚ concat (data image_3x2)).
Proof.
  assert (dims_ok image_3x2) as Hok
    by (split; [reflexivity | repeat constructor]).
  split; [exact Hok | apply (C8_transforms_preserve_invariant image_3x2 Hok)].
Defined.

(** C9 as stated fails where the width is zero: the rows of the missing
    lines are empty, and no row is shorter than the width. *)
Lemma C9_counterexample :
  validMagic zero_width_file
  ∧ scanned zero_width_file = (2, 0%Z, 1%Z)
  ∧ (Scan (afterDims zero_width_file)).1 = false
  ∧ (readPBM zero_width_file).2
    = Ok {| data := [[]]; width := 0; height := 1; magicNumber := str "P1" |}
  ∧ ¬ (∃ pbm, (readPBM zero_width_file).2 = Ok pbm
        ∧ ∃ row, row ∈ data pbm ∧ (Z.of_nat (length row) < width pbm)%Z).
Proof.
  split_and!; [by left|done|done|done|].
  intros (pbm & Hread & row & Hrow & Hlt). vm_compute in Hread.
  injection Hread as <-. simpl in *.
  apply list_elem_of_singleton in Hrow as ->. simpl in Hlt. lia.
Qed.

(** C9, amended.  Take a source with a valid magic number in which the
    input ends at the scan of body line [k], before the [height] lines the
    header announces.  ReadPBM does not fail; the image has exactly [height]
    rows; the rows before [k] are those of the lines present, and every row
    from [k] on is empty, so that those rows are shorter than the width
    whenever the width is positive. *)
Theorem C9_missing_lines file (k : nat) :
  validMagic file →
  (Z.of_nat k < scannedHeight file)%Z →
  (Scan (scanN k (afterDims file))).1 = false →
  err (Scan (scanN k (afterDims file))).2 = Some EOF →
  ∃ pbm, (readPBM file).2 = Ok pbm
    ∧ width pbm = scannedWidth file ∧ height pbm = scannedHeight file
    ∧ Z.of_nat (length (data pbm)) = height pbm
    ∧ (∀ i, i < k →
         data pbm !! i
         = Some (decodeRow (isP1 file) (Text (scanN (S i) (afterDims file)))))
    ∧ (∀ i, k ≤ i → (Z.of_nat i < height pbm)%Z → data pbm !! i = Some [])
    ∧ ((0 < width pbm)%Z →
         ∃ i row, data pbm !! i = Some row
                  ∧ (Z.of_nat (length row) < width pbm)%Z).
Proof.
  intros Hm Hk Hfail Heof. pose proof (readPBM_valid file Hm) as Hread.
  unfold scannedWidth, scannedHeight, scanned in *.
  destruct (fmt.Sscanf_d_d _ 0 0) as [[n w] h]. cbn [fst snd] in *.
  eexists. split; [exact Hread|]. cbn [magicNumber width height data].
  assert (∀ i, (Z.of_nat i < h)%Z →
    ((λ i, decodeRow (isP1 file) (Text (scanN (S i) (afterDims file))))
       <$> seq 0 (Z.to_nat h)) !! i
    = Some (decodeRow (isP1 file) (Text (scanN (S i) (afterDims file)))))
    as Hrow.
  { intros i Hi. rewrite list_lookup_fmap, lookup_seq_lt by lia. done. }
  assert (∀ i, k ≤ i → (Z.of_nat i < h)%Z →
    ((λ i, decodeRow (isP1 file) (Text (scanN (S i) (afterDims file))))
       <$> seq 0 (Z.to_nat h)) !! i = Some []) as Hempty.
  { intros i Hki Hi. rewrite Hrow by done.
    by rewrite (scanN_after_EOF _ k i), decodeRow_nil. }
  split_and!; try done.
  - rewrite length_fmap, length_seq. lia.
  - intros i Hi. apply Hrow. lia.
  - intros Hw. exists k, []. split; [by apply Hempty|]. simpl. lia.
Qed.

Lemma C9_missing_lines_witness :
  (validMagic short_file
   ∧ (Z.of_nat 1 < scannedHeight short_file)%Z
   ∧ (Scan (scanN 1 (afterDims short_file))).1 = false
   ∧ err (Scan (scanN 1 (afterDims short_file))).2 = Some EOF)
  ∧ ∃ pbm, (readPBM short_file).2 = Ok pbm
    ∧ width pbm = scannedWidth short_file
    ∧ height pbm = scannedHeight short_file
    ∧ Z.of_nat (length (data pbm)) = height pbm
    ∧ (∀ i, i < 1 →
         data pbm !! i
         = Some (decodeRow (isP1 short_file)
                   (Text (scanN (S i) (afterDims short_file)))))
    ∧ (∀ i, 1 ≤ i → (Z.of_nat i < height pbm)%Z → data pbm !! i = Some [])
    ∧ ((0 < width pbm)%Z →
         ∃ i row, data pbm !! i = Some row
                  ∧ (Z.of_nat (length row) < width pbm)%Z).
Proof.
  assert (validMagic short_file) as Hm by (left; reflexivity).
  assert (Z.of_nat 1 < scannedHeight short_file)%Z as Hk by reflexivity.
  assert ((Scan (scanN 1 (afterDims short_file))).1 = false) as Hf
    by reflexivity.
  assert (err (Scan (scanN 1 (afterDims short_file))).2 = Some EOF) as He
    by reflexivity.
  split; [done | apply (C9_missing_lines short_file 1 Hm Hk Hf He)].
Defined.

(** C10.  Save tests the magic number against "P1" and nothing else: with
    any other magic number the file is that magic number on a line, the
    width and the height on the next, and each row as the P4 branch packs
    it, followed by a line feed.  SetMagicNumber stores any string and
    leaves the rows, the width and the height as they were. *)
Theorem C10_save_dispatch pbm :
  magicNumber pbm ≠ str "P1" →
  saveBytes pbm
  = magicNumber pbm ++ [LF] ++ fmt.fmt_d (width pbm) ++ str " "
      ++ fmt.fmt_d (height pbm) ++ [LF]
      ++ concat ((λ row, packLoop (length row) row 0 [] ++ [LF]) <$> data pbm)
  ∧ ∀ tag,
      magicNumber (SetMagicNumber pbm tag) = tag
      ∧ data (SetMagicNumber pbm tag) = data pbm
      ∧ width (SetMagicNumber pbm tag) = width pbm
      ∧ height (SetMagicNumber pbm tag) = height pbm.
Proof.
  intros Hm. split; [|done].
  rewrite saveBytes_spec. unfold headerBytes. rewrite <- !app_assoc.
  do 6 apply (f_equal2 app eq_refl). apply (f_equal (@concat ascii)).
  apply list_fmap_ext. intros _ row _.
  unfold rowBytes, saveRow, fmt.Fprintln. by rewrite bool_decide_eq_false_2.
Qed.

Lemma C10_save_dispatch_witness :
  magicNumber p5_image ≠ str "P1"
  ∧ saveBytes p5_image = str "P5" ++ [LF] ++ str "9 1" ++ [LF]
      ++ [byte_of 194; byte_of 160; byte_of 194; byte_of 128; LF].
Proof.
  assert (magicNumber p5_image ≠ str "P1") as Hm by (by vm_compute).
  split; [exact Hm|].
  rewrite (proj1 (C10_save_dispatch p5_image Hm)). reflexivity.
Defined.

(** ** The scenarios of the specification *)

Example scenario_decode :
  (readPBM (fileOfLines ["P1"; "3 2"; "101"; "010"])).2 = Ok image_3x2.
Proof. reflexivity. Qed.

Example scenario_flip_palindromic : Flip image_3x2 = Some image_3x2.
Proof. reflexivity. Qed.

Example scenario_flip_row :
  Flip {| data := [[true; true; false]]; width := 3; height := 1;
          magicNumber := str "P1" |}
  = Some {| data := [[false; true; true]]; width := 3; height := 1;
            magicNumber := str "P1" |}.
Proof. reflexivity. Qed.

(* ===================================================================== *)
(** * At and Set *)
(* ===================================================================== *)

Lemma index_Some {A} (s : list A) (z : Z) a :
  index s z = Some a ↔ (0 ≤ z)%Z ∧ s !! Z.to_nat z = Some a.
Proof.
  unfold index. destruct (Z.ltb_spec z 0).
  - split; [done|]. intros [? _]. lia.
  - split; [by split|by intros [_ ?]].
Qed.

Lemma index_is_Some {A} (s : list A) (z : Z) :
  is_Some (index s z) ↔ (0 ≤ z < Z.of_nat (length s))%Z.
Proof.
  unfold index. destruct (Z.ltb_spec z 0).
  - split; [by intros [? ?]|lia].
  - rewrite lookup_lt_is_Some. lia.
Qed.

Lemma assign_is_Some {A} (s : list A) (z : Z) v :
  is_Some (assign s z v) ↔ (0 ≤ z < Z.of_nat (length s))%Z.
Proof.
  unfold assign.
  destruct (Z.leb_spec 0 z), (Z.ltb_spec z (Z.of_nat (length s))); simpl;
    (split; [intros [? ?]; try done; lia | intros; try lia; by eexists]).
Qed.

Lemma At_is_Some pbm x y : is_Some (At pbm x y) ↔ in_grid pbm x y.
Proof.
  unfold At, in_grid. split.
  - intros [v Hv]. destruct (index (data pbm) y) as [row|] eqn:Hy; [|done].
    simpl in Hv. apply index_Some in Hy as [Hy0 Hy].
    split; [done|]. exists row. split; [done|].
    apply index_is_Some. by exists v.
  - intros (Hy0 & row & Hy & Hx).
    assert (index (data pbm) y = Some row) as -> by (by apply index_Some).
    simpl. by apply index_is_Some.
Qed.

Lemma Set_is_Some pbm x y v : is_Some (Set_ pbm x y v) ↔ in_grid pbm x y.
Proof.
  unfold Set_, in_grid. split.
  - intros [p Hp]. destruct (index (data pbm) y) as [row|] eqn:Hy; [|done].
    simpl in Hp. apply index_Some in Hy as [Hy0 Hy].
    split; [done|]. exists row. split; [done|].
    destruct (assign row x v) as [row'|] eqn:Hx; [|done].
    apply (assign_is_Some row x v). by exists row'.
  - intros (Hy0 & row & Hy & Hx).
    assert (index (data pbm) y = Some row) as -> by (by apply index_Some).
    simpl. destruct (proj2 (assign_is_Some row x v) Hx) as [row' ->]. simpl.
    destruct (proj2 (assign_is_Some (data pbm) y row')) as [d ->]; [|by eexists].
    apply lookup_lt_Some in Hy. lia.
Qed.

(** X1.  At and Set index the grid as it is, not as the header declares
    it: each returns exactly when row [y] exists and holds more than [x]
    pixels, and panics otherwise, also inside the declared dimensions. *)
Theorem At_Set_defined_on_the_grid pbm x y v :
  (is_Some (At pbm x y) ↔ in_grid pbm x y)
  ∧ (is_Some (Set_ pbm x y v) ↔ in_grid pbm x y)
  ∧ (dims_ok pbm →
     (in_grid pbm x y ↔ (0 ≤ x < width pbm)%Z ∧ (0 ≤ y < height pbm)%Z)).
Proof.
  split_and!; [apply At_is_Some | apply Set_is_Some |].
  intros [Hh Hw]. rewrite Forall_forall in Hw. unfold in_grid. split.
  - intros (Hy0 & row & Hy & Hx).
    pose proof (lookup_lt_Some _ _ _ Hy).
    rewrite <- (Hw row) by by eapply list_elem_of_lookup_2. lia.
  - intros [Hx Hy]. split; [lia|].
    destruct (lookup_lt_is_Some_2 (data pbm) (Z.to_nat y)) as [row Hrow]; [lia|].
    exists row. split; [done|].
    rewrite (Hw row) by by eapply list_elem_of_lookup_2. lia.
Qed.

Lemma Set_then_At_rows pbm x y v :
  in_grid pbm x y →
  ∃ row, data pbm !! Z.to_nat y = Some row
    ∧ Set_ pbm x y v
      = Some (with_data pbm
                (<[Z.to_nat y := <[Z.to_nat x := v]> row]> (data pbm)))
    ∧ At (with_data pbm
            (<[Z.to_nat y := <[Z.to_nat x := v]> row]> (data pbm))) x y
      = Some v
    ∧ ∀ x' y', (x', y') ≠ (x, y) →
        At (with_data pbm
              (<[Z.to_nat y := <[Z.to_nat x := v]> row]> (data pbm))) x' y'
        = At pbm x' y'.
Proof.
  intros (Hy0 & row & Hy & Hx). exists row. split; [done|].
  pose proof (lookup_lt_Some _ _ _ Hy) as Hylen.
  set (j := Z.to_nat y) in *. set (i := Z.to_nat x).
  split_and!.
  - replace y with (Z.of_nat j) by lia. rewrite (Set_row _ _ _ _ _ Hy).
    replace x with (Z.of_nat i) by lia. rewrite assign_nat by lia. done.
  - unfold At. cbn [data with_data].
    replace y with (Z.of_nat j) by lia. rewrite index_nat.
    rewrite list_lookup_insert_eq by done. simpl.
    replace x with (Z.of_nat i) by lia. rewrite index_nat.
    apply list_lookup_insert_eq. lia.
  - intros x' y' Hne. unfold At. cbn [data with_data].
    destruct (Z.ltb_spec y' 0) as [Hneg|Hpos]; [by rewrite !index_neg|].
    replace y' with (Z.of_nat (Z.to_nat y')) by lia. rewrite !index_nat.
    destruct (decide (Z.to_nat y' = j)) as [Hj|Hj].
    + rewrite Hj, list_lookup_insert_eq, Hy by done. simpl.
      destruct (Z.ltb_spec x' 0) as [Hxn|Hxp]; [by rewrite !index_neg|].
      replace x' with (Z.of_nat (Z.to_nat x')) by lia. rewrite !index_nat.
      apply list_lookup_insert_ne. intros Hi. apply Hne. f_equal; lia.
    + by rewrite list_lookup_insert_ne.
Qed.

(** X2.  A pixel that is in the grid can be set; it then reads as the
    value written, every other pixel reads as before, and the width, the
    height and the magic number are unchanged. *)
Theorem Set_then_At pbm x y v :
  in_grid pbm x y →
  ∃ pbm', Set_ pbm x y v = Some pbm'
    ∧ At pbm' x y = Some v
    ∧ (∀ x' y', (x', y') ≠ (x, y) → At pbm' x' y' = At pbm x' y')
    ∧ Size pbm' = Size pbm ∧ magicNumber pbm' = magicNumber pbm.
Proof.
  intros Hin.
  destruct (Set_then_At_rows pbm x y v Hin) as (row & _ & HSet & HAt & Hfr).
  eexists. split; [exact HSet|]. by split_and!.
Qed.

Lemma Set_then_At_witness :
  in_grid image_3x2 2 1
  ∧ ∃ pbm', Set_ image_3x2 2 1 true = Some pbm'
    ∧ At pbm' 2 1 = Some true
    ∧ (∀ x' y', (x', y') ≠ (2, 1)%Z → At pbm' x' y' = At image_3x2 x' y')
    ∧ Size pbm' = Size image_3x2
    ∧ magicNumber pbm' = magicNumber image_3x2.
Proof.
  assert (in_grid image_3x2 2 1) as Hg.
  { split; [lia|]. exists [false; true; false]. split; [reflexivity|].
    simpl. lia. }
  split; [exact Hg | apply (Set_then_At image_3x2 2 1 true Hg)].
Defined.

(* ===================================================================== *)
(** * Loops that stop at a panic *)
(* ===================================================================== *)

Lemma iterate_add {S} (a b : nat) (i : Z) (body : Z → S → option S) s :
  iterate (a + b) i body s
  = iterate a i body s ≫= iterate b (i + Z.of_nat a)%Z body.
Proof.
  revert i s. induction a as [|a IH]; intros i s.
  - simpl. by rewrite Z.add_0_r.
  - cbn [Nat.add]. rewrite !iterate_S.
    destruct (body i s) as [s1|]; [simpl|done].
    rewrite IH. do 2 f_equal. lia.
Qed.

Lemma iterate_panic {S} (n a : nat) (i : Z) (body : Z → S → option S) s s' :
  a < n →
  iterate a i body s = Some s' →
  body (i + Z.of_nat a)%Z s' = None →
  iterate n i body s = None.
Proof.
  intros Han Hrun Hbody.
  replace n with (a + Datatypes.S (n - a - 1)) by lia.
  rewrite iterate_add, Hrun. simpl. by rewrite Hbody.
Qed.

Lemma iterate_skip {S} (n : nat) (i : Z) (body : Z → S → option S) s :
  (∀ j, body j s = Some s) → iterate n i body s = Some s.
Proof.
  intros Hbody. revert i. induction n as [|n IH]; intros i; [done|].
  rewrite iterate_S, Hbody. simpl. apply IH.
Qed.

(** The first entry of a list that fails a decidable test. *)
Lemma first_failure {A} (P : A → Prop) `{!∀ a, Decision (P a)} (l : list A) :
  ¬ Forall P l →
  ∃ i a, l !! i = Some a ∧ ¬ P a ∧ Forall P (take i l).
Proof.
  induction l as [|a l IH]; intros Hl.
  - destruct Hl. constructor.
  - destruct (decide (P a)) as [Ha|Ha].
    + destruct IH as (i & b & Hi & Hb & Htake).
      { intros Hl'. apply Hl. by constructor. }
      exists (Datatypes.S i), b. split_and!; [done|done|]. simpl. by constructor.
    + exists 0, a. split_and!; [done|done|]. simpl. constructor.
Qed.

(** Where [flip_safe] fails: the first row up to [height] that is missing
    or holds fewer than [width] pixels. *)
Lemma unsafe_row pbm :
  ¬ flip_safe pbm →
  ∃ y, y < Z.to_nat (height pbm) ∧ y ≤ length (data pbm)
     ∧ Forall (λ row, (width pbm ≤ Z.of_nat (length row))%Z) (take y (data pbm))
     ∧ (data pbm !! y = None
        ∨ ∃ row, data pbm !! y = Some row
                 ∧ (Z.of_nat (length row) < width pbm)%Z).
Proof.
  intros Hns. set (h := Z.to_nat (height pbm)) in *.
  set (P := λ row : list bool, (width pbm ≤ Z.of_nat (length row))%Z).
  destruct (decide (Forall P (take h (data pbm)))) as [Hall|Hnot].
  - assert (length (data pbm) < h) as Hlen.
    { destruct (decide (h ≤ length (data pbm))); [|lia].
      destruct Hns. by split. }
    exists (length (data pbm)). split_and!; [done|done| |].
    + rewrite firstn_all. by rewrite take_ge in Hall by lia.
    + left. apply lookup_ge_None. lia.
  - destruct (first_failure P _ Hnot) as (y & row & Hy & Hrow & Htake).
    pose proof (lookup_lt_Some _ _ _ Hy) as Hlt. rewrite length_take in Hlt.
    exists y. split_and!; [lia|lia| |].
    + by rewrite take_take, Nat.min_l in Htake by lia.
    + right. exists row. rewrite lookup_take_lt in Hy by lia.
      split; [done|]. unfold P in Hrow. lia.
Qed.

(* ===================================================================== *)
(** * Invert on any image *)
(* ===================================================================== *)

Lemma invertRow_length w row : length (invertRow w row) = length row.
Proof.
  unfold invertRow.
  rewrite length_app, length_fmap, length_take, length_drop. lia.
Qed.

Lemma invertRow_short w row :
  length row ≤ Z.to_nat w → invertRow w row = negb <$> row.
Proof.
  intros Hw. unfold invertRow. by rewrite take_ge, drop_ge, app_nil_r by lia.
Qed.

Lemma invertRow_twice w row : invertRow w (invertRow w row) = row.
Proof.
  destruct (decide (Z.to_nat w ≤ length row)) as [Hw|Hw].
  - unfold invertRow.
    rewrite take_app_length', drop_app_length'
      by (rewrite length_fmap, length_take; lia).
    rewrite <- list_fmap_compose.
    rewrite (list_fmap_ext _ id (take (Z.to_nat w) row)).
    + rewrite list_fmap_id. apply take_drop.
    + intros _ b _. apply negb_involutive.
  - rewrite (invertRow_short w row) by lia.
    rewrite invertRow_short by (rewrite length_fmap; lia).
    rewrite <- list_fmap_compose.
    rewrite (list_fmap_ext _ id row); [apply list_fmap_id|].
    intros _ b _. apply negb_involutive.
Qed.

Lemma invertRow_full row :
  invertRow (Z.of_nat (length row)) row = negb <$> row.
Proof.
  unfold invertRow. by rewrite Nat2Z.id, firstn_all, drop_all, app_nil_r.
Qed.

(** The inner loop of Invert on a row that is long enough. *)
Lemma neg_loop_general (w : Z) row :
  (w ≤ Z.of_nat (length row))%Z →
  iterate (Z.to_nat (w - 0)) 0 negBody row = Some (invertRow w row).
Proof.
  intros Hw. replace (Z.to_nat (w - 0)) with (Z.to_nat w) by lia.
  change 0%Z with (Z.of_nat 0).
  rewrite (map_loop id (λ _ l, l) (λ _, True) (λ _, True) negb);
    try done.
  - intros i s a _ Ha _. simpl in Ha. unfold negBody.
    rewrite index_nat, Ha. simpl.
    rewrite assign_nat; [done|]. by eapply lookup_lt_Some.
  - simpl. lia.
  - by apply Forall_true.
Qed.

(** ... and on a row that is too short. *)
Lemma neg_loop_panic (w : Z) row :
  (Z.of_nat (length row) < w)%Z →
  iterate (Z.to_nat (w - 0)) 0 negBody row = None.
Proof.
  intros Hw.
  apply (iterate_panic _ (length row) _ _ _ (negb <$> row)); [lia| |].
  - apply neg_loop.
  - unfold negBody. rewrite Z.add_0_l, index_nat.
    rewrite (proj2 (lookup_ge_None _ _)); [done|]. by rewrite length_fmap.
Qed.

(** The body of the outer loop of Invert is the inner loop on row [y]. *)
Lemma Invert_body (y : nat) pbm row :
  data pbm !! y = Some row →
  for_range 0 (width pbm) (λ x pbm,
      v ← At pbm x (Z.of_nat y);
      Set_ pbm x (Z.of_nat y) (negb v)) pbm
  = row' ← iterate (Z.to_nat (width pbm - 0)) 0 negBody row;
    Some (with_data pbm (<[y := row']> (data pbm))).
Proof.
  intros Hy. unfold for_range.
  apply (iterate_row (width pbm) y _ negBody); [|done|done].
  intros x s' row' _ Hy'. unfold negBody.
  rewrite (At_row _ _ _ _ Hy').
  destruct (index row' x) as [v|]; [simpl|done].
  by rewrite (Set_row _ _ _ _ _ Hy').
Qed.

Lemma Invert_rows (n : nat) pbm :
  n ≤ length (data pbm) →
  Forall (λ row, (width pbm ≤ Z.of_nat (length row))%Z) (take n (data pbm)) →
  iterate n 0 (λ y pbm,
    for_range 0 (width pbm) (λ x pbm,
      v ← At pbm x y;
      Set_ pbm x y (negb v)) pbm) pbm
  = Some (with_data pbm
            ((invertRow (width pbm) <$> take n (data pbm))
               ++ drop n (data pbm))).
Proof.
  intros Hn Hw. change 0%Z with (Z.of_nat 0) at 1.
  rewrite (map_loop data with_data (λ s, width s = width pbm)
             (λ row, (width pbm ≤ Z.of_nat (length row))%Z)
             (invertRow (width pbm)));
    [done|done|done|done|apply with_data_id| |done|simpl; lia|done].
  intros y s row Hs Hy Hrow.
  rewrite (Invert_body _ _ _ Hy), Hs.
  by rewrite neg_loop_general.
Qed.

Lemma Invert_safe pbm :
  flip_safe pbm → Invert pbm = Some (with_data pbm (invertRows pbm)).
Proof.
  intros [Hh Hw]. unfold Invert, for_range.
  replace (Z.to_nat (height pbm - 0)) with (Z.to_nat (height pbm)) by lia.
  by rewrite Invert_rows.
Qed.

Lemma Invert_narrow pbm : (width pbm ≤ 0)%Z → Invert pbm = Some pbm.
Proof.
  intros Hw. unfold Invert, for_range. apply iterate_skip. intros y.
  by replace (Z.to_nat (width pbm - 0)) with 0 by lia.
Qed.

Lemma Invert_panic pbm :
  (0 < width pbm)%Z → ¬ flip_safe pbm → Invert pbm = None.
Proof.
  intros Hw (y & Hy & Hlen & Hrows & Hbad)%unsafe_row.
  unfold Invert, for_range.
  replace (Z.to_nat (height pbm - 0)) with (Z.to_nat (height pbm)) by lia.
  eapply (iterate_panic _ y); [done|by apply Invert_rows|].
  set (s := with_data pbm _).
  assert (data s !! y = data pbm !! y) as Hsy.
  { unfold s. cbn [data with_data]. rewrite lookup_app_r
      by (rewrite length_fmap, length_take; lia).
    rewrite length_fmap, length_take, lookup_drop. f_equal. lia. }
  rewrite Z.add_0_l. cbv beta.
  destruct Hbad as [Hnone|(row & Hrow & Hshort)].
  - unfold for_range. change (width s) with (width pbm).
    replace (Z.to_nat (width pbm - 0))
      with (Datatypes.S (Z.to_nat (width pbm) - 1)) by lia.
    rewrite iterate_S. unfold At. by rewrite index_nat, Hsy, Hnone.
  - pose proof (Invert_body y s row) as Hbody. unfold for_range in Hbody.
    rewrite Hbody by (by rewrite Hsy).
    change (width s) with (width pbm). by rewrite neg_loop_panic.
Qed.

(* ===================================================================== *)
(** * Flip on any image *)
(* ===================================================================== *)

(** The body of the outer loop of Flip is the swap loop on row [y]. *)
Lemma Flip_body (y : nat) pbm row :
  data pbm !! y = Some row →
  iterate (Z.to_nat (width pbm `quot` 2 - 0)) 0 (λ x pbm,
      b ← At pbm (width pbm - x - 1) (Z.of_nat y);
      a ← At pbm x (Z.of_nat y);
      pbm ← Set_ pbm x (Z.of_nat y) b;
      Set_ pbm (width pbm - x - 1) (Z.of_nat y) a)%Z pbm
  = row' ← iterate (Z.to_nat (width pbm `quot` 2 - 0)) 0
             (swapBody (width pbm)) row;
    Some (with_data pbm (<[y := row']> (data pbm))).
Proof.
  intros Hy.
  apply (iterate_row (width pbm) y _ (swapBody (width pbm))); [|done|done].
  intros x s' row' Hs' Hy'. unfold swapBody. rewrite Hs'.
  rewrite !(At_row _ _ _ _ Hy').
  destruct (index row' (width pbm - x - 1)) as [b|]; [simpl|done].
  destruct (index row' x) as [a|]; [simpl|done].
  rewrite (Set_row _ _ _ _ _ Hy').
  destruct (assign row' x b) as [row1|]; [simpl|done].
  erewrite Set_row; [|simpl; apply list_lookup_insert_eq; by eapply lookup_lt_Some].
  simpl. rewrite Hs'. destruct (assign row1 _ a) as [row2|]; [simpl|done].
  by rewrite with_data_twice, list_insert_insert_eq.
Qed.

Lemma Flip_rows (n : nat) pbm :
  n ≤ length (data pbm) →
  Forall (λ row, (width pbm ≤ Z.of_nat (length row))%Z) (take n (data pbm)) →
  iterate n 0 (λ y pbm,
    for_range 0 (width pbm `quot` 2) (λ x pbm,
      b ← At pbm (width pbm - x - 1) y;
      a ← At pbm x y;
      pbm ← Set_ pbm x y b;
      Set_ pbm (width pbm - x - 1) y a) pbm)%Z pbm
  = Some (with_data pbm
            ((flipRow (width pbm) <$> take n (data pbm))
               ++ drop n (data pbm))).
Proof.
  intros Hn Hw. change 0%Z with (Z.of_nat 0) at 1.
  rewrite (map_loop data with_data (λ s, width s = width pbm)
             (λ row, (width pbm ≤ Z.of_nat (length row))%Z)
             (flipRow (width pbm)));
    [done|done|done|done|apply with_data_id| |done|simpl; lia|done].
  intros y s row Hs Hy Hrow. unfold for_range.
  rewrite (Flip_body _ _ _ Hy), Hs.
  by rewrite swap_loop_flip.
Qed.

Lemma Flip_narrow pbm : (width pbm < 2)%Z → Flip pbm = Some pbm.
Proof.
  intros Hw. unfold Flip, for_range. apply iterate_skip. intros y.
  assert (Z.to_nat (width pbm `quot` 2 - 0) = 0) as ->; [|done].
  Z.quot_rem_to_equations. lia.
Qed.

Lemma swap_loop_panic {A} (w : Z) (l : list A) :
  (2 ≤ w)%Z → (Z.of_nat (length l) < w)%Z →
  iterate (Z.to_nat (w `quot` 2 - 0)) 0 (swapBody w) l = None.
Proof.
  intros Hw Hl.
  assert (∃ n, Z.to_nat (w `quot` 2 - 0) = Datatypes.S n) as [n ->].
  { exists (Z.to_nat (w `quot` 2 - 0) - 1).
    Z.quot_rem_to_equations. lia. }
  rewrite iterate_S. unfold swapBody.
  replace (w - 0 - 1)%Z with (Z.of_nat (Z.to_nat (w - 1))) by lia.
  rewrite index_nat, (proj2 (lookup_ge_None _ _)); [done|lia].
Qed.

Lemma Flip_panic pbm :
  (2 ≤ width pbm)%Z → ¬ flip_safe pbm → Flip pbm = None.
Proof.
  intros Hw (y & Hy & Hlen & Hrows & Hbad)%unsafe_row.
  unfold Flip, for_range.
  replace (Z.to_nat (height pbm - 0)) with (Z.to_nat (height pbm)) by lia.
  eapply (iterate_panic _ y); [done|by apply Flip_rows|].
  set (s := with_data pbm _).
  assert (data s !! y = data pbm !! y) as Hsy.
  { unfold s. cbn [data with_data]. rewrite lookup_app_r
      by (rewrite length_fmap, length_take; lia).
    rewrite length_fmap, length_take, lookup_drop. f_equal. lia. }
  rewrite Z.add_0_l. cbv beta.
  destruct Hbad as [Hnone|(row & Hrow & Hshort)].
  - change (width s) with (width pbm).
    assert (∃ n, Z.to_nat (width pbm `quot` 2 - 0) = Datatypes.S n) as [n ->].
    { exists (Z.to_nat (width pbm `quot` 2 - 0) - 1).
      Z.quot_rem_to_equations. lia. }
    rewrite iterate_S. unfold At. by rewrite index_nat, Hsy, Hnone.
  - rewrite (Flip_body y s row) by (by rewrite Hsy).
    change (width s) with (width pbm). by rewrite swap_loop_panic.
Qed.

(* ===================================================================== *)
(** * Flop on any image *)
(* ===================================================================== *)

Lemma Flop_safe pbm :
  (height pbm ≤ Z.of_nat (length (data pbm)))%Z →
  Flop pbm = Some (with_data pbm (flopRows pbm)).
Proof.
  intros Hh. unfold Flop, for_range. rewrite Flop_loop.
  by rewrite swap_loop_flip.
Qed.

Lemma Flop_narrow pbm : (height pbm < 2)%Z → Flop pbm = Some pbm.
Proof.
  intros Hh. unfold Flop, for_range.
  assert (Z.to_nat (height pbm `quot` 2 - 0) = 0) as ->; [|done].
  Z.quot_rem_to_equations. lia.
Qed.

Lemma Flop_panic pbm :
  (2 ≤ height pbm)%Z → (Z.of_nat (length (data pbm)) < height pbm)%Z →
  Flop pbm = None.
Proof.
  intros Hh Hl. unfold Flop, for_range. rewrite Flop_loop.
  by rewrite swap_loop_panic.
Qed.

Lemma flopRows_twice pbm :
  (height pbm ≤ Z.of_nat (length (data pbm)))%Z →
  flopRows (with_data pbm (flopRows pbm)) = data pbm.
Proof. intros Hh. unfold flopRows. simpl. by apply flipRow_twice. Qed.

Lemma invertRows_length pbm : length (invertRows pbm) = length (data pbm).
Proof.
  unfold invertRows.
  rewrite length_app, length_fmap, length_take, length_drop. lia.
Qed.

Lemma invertRows_twice pbm :
  flip_safe pbm → invertRows (with_data pbm (invertRows pbm)) = data pbm.
Proof.
  intros [Hh Hw]. unfold invertRows at 1. cbn [data height width with_data].
  unfold invertRows.
  rewrite take_app_length', drop_app_length'
    by (rewrite length_fmap, length_take; lia).
  rewrite <- list_fmap_compose.
  rewrite (list_fmap_ext _ id (take (Z.to_nat (height pbm)) (data pbm))).
  - rewrite list_fmap_id. apply take_drop.
  - intros _ row _. apply invertRow_twice.
Qed.

Lemma flip_safe_invertRows pbm :
  flip_safe pbm → flip_safe (with_data pbm (invertRows pbm)).
Proof.
  intros [Hh Hw]. split; cbn [data height width with_data].
  - by rewrite invertRows_length.
  - unfold invertRows. rewrite take_app_length'
      by (rewrite length_fmap, length_take; lia).
    apply Forall_fmap. eapply Forall_impl; [exact Hw|]. intros row Hrow.
    unfold compose. cbv beta in *. by rewrite invertRow_length.
Qed.

(* ===================================================================== *)
(** * Invert, Flip and Flop on any image *)
(* ===================================================================== *)

(** X3.  Invert returns exactly when the width is not positive (it then
    touches nothing) or the rows up to [height] are all there and hold
    [width] pixels at least; on every other image it panics with an index
    out of range. *)
Theorem Invert_returns_iff pbm :
  is_Some (Invert pbm) ↔ (width pbm ≤ 0)%Z ∨ flip_safe pbm.
Proof.
  split.
  - intros Hsome. destruct (decide (width pbm ≤ 0)%Z); [by left|right].
    destruct (decide (flip_safe pbm)) as [|Hns]; [done|].
    rewrite Invert_panic in Hsome by (done || lia). by destruct Hsome.
  - intros [Hw|Hs]; [rewrite Invert_narrow by done|rewrite Invert_safe by done];
      by eexists.
Qed.

(** X4.  Where the rows up to [height] hold [width] pixels at least,
    Invert negates the first [width] pixels of each of the first [height]
    rows and leaves every other pixel and row as it was; a second Invert
    restores the image. *)
Theorem Invert_result pbm :
  flip_safe pbm →
  Invert pbm = Some (with_data pbm (invertRows pbm))
  ∧ Invert (with_data pbm (invertRows pbm)) = Some pbm.
Proof.
  intros Hs. split; [by apply Invert_safe|].
  rewrite Invert_safe by by apply flip_safe_invertRows.
  by rewrite with_data_twice, invertRows_twice, with_data_id.
Qed.

Lemma Invert_result_witness :
  flip_safe padded_image
  ∧ Invert padded_image
    = Some (with_data padded_image (invertRows padded_image))
  ∧ Invert (with_data padded_image (invertRows padded_image))
    = Some padded_image.
Proof.
  assert (flip_safe padded_image) as Hs
    by (split; [vm_compute; lia | repeat constructor; by vm_compute]).
  split; [exact Hs | apply (Invert_result padded_image Hs)].
Defined.

(** X5.  Flip returns exactly when the width is below 2 (it then touches
    nothing) or the rows up to [height] are all there and hold [width]
    pixels at least; on every other image it panics. *)
Theorem Flip_returns_iff pbm :
  is_Some (Flip pbm) ↔ (width pbm < 2)%Z ∨ flip_safe pbm.
Proof.
  split.
  - intros Hsome. destruct (decide (width pbm < 2)%Z); [by left|right].
    destruct (decide (flip_safe pbm)) as [|Hns]; [done|].
    rewrite Flip_panic in Hsome by (done || lia). by destruct Hsome.
  - intros [Hw|Hs]; [rewrite Flip_narrow by done|rewrite Flip_general by done];
      by eexists.
Qed.

(** X6.  Where it does not panic for want of pixels, Flip mirrors the
    first [width] pixels of each of the first [height] rows and leaves
    the pixels past [width] and the rows past [height] where they were. *)
Theorem Flip_result pbm :
  flip_safe pbm →
  Flip pbm = Some (with_data pbm (flipRows pbm))
  ∧ length (flipRows pbm) = length (data pbm)
  ∧ ∀ (y : nat) row, data pbm !! y = Some row →
      flipRows pbm !! y
      = Some (if decide (y < Z.to_nat (height pbm))
              then reverse (take (Z.to_nat (width pbm)) row)
                     ++ drop (Z.to_nat (width pbm)) row
              else row).
Proof.
  intros Hs. split_and!; [by apply Flip_general|by apply flipRows_length|].
  intros y row Hy. destruct Hs as [Hh _]. unfold flipRows.
  case_decide as Hlt.
  - rewrite lookup_app_l by (rewrite length_fmap, length_take; lia).
    by rewrite list_lookup_fmap, lookup_take_lt, Hy by lia.
  - rewrite lookup_app_r by (rewrite length_fmap, length_take; lia).
    rewrite length_fmap, length_take, lookup_drop, <- Hy. f_equal. lia.
Qed.

Lemma Flip_result_witness :
  flip_safe three_wide_image
  ∧ Flip three_wide_image
    = Some (with_data three_wide_image
              [[true; true; false; false; false; false; false; false]])
  ∧ length (flipRows three_wide_image) = length (data three_wide_image)
  ∧ flipRows three_wide_image !! 0
    = Some (reverse [false; true; true]
              ++ [false; false; false; false; false]).
Proof.
  assert (flip_safe three_wide_image) as Hs
    by (split; [vm_compute; lia | repeat constructor; by vm_compute]).
  destruct (Flip_result three_wide_image Hs) as (H1 & H2 & H3).
  split_and!; [exact Hs|exact H1|exact H2|].
  exact (H3 0 [false; true; true; false; false; false; false; false] eq_refl).
Defined.

(** X7.  Flop returns exactly when the height is below 2 (it then touches
    nothing) or there are [height] rows at least; with fewer rows it
    panics at its first swap. *)
Theorem Flop_returns_iff pbm :
  is_Some (Flop pbm)
  ↔ (height pbm < 2)%Z ∨ (height pbm ≤ Z.of_nat (length (data pbm)))%Z.
Proof.
  split.
  - intros Hsome. destruct (decide (height pbm < 2)%Z); [by left|right].
    destruct (decide (height pbm ≤ Z.of_nat (length (data pbm)))%Z); [done|].
    rewrite Flop_panic in Hsome by lia. by destruct Hsome.
  - intros [Hw|Hs]; [rewrite Flop_narrow by done|rewrite Flop_safe by done];
      by eexists.
Qed.

(** X8.  With [height] rows at least, Flop reverses the order of the
    first [height] rows, whatever their lengths, and leaves the rows past
    [height] in place; a second Flop restores the image, and for an odd
    height the middle row stays where it is. *)
Theorem Flop_result pbm :
  (height pbm ≤ Z.of_nat (length (data pbm)))%Z →
  Flop pbm
  = Some (with_data pbm
            (reverse (take (Z.to_nat (height pbm)) (data pbm))
               ++ drop (Z.to_nat (height pbm)) (data pbm)))
  ∧ (Flop pbm ≫= Flop) = Some pbm
  ∧ (Z.odd (height pbm) = true →
     ∀ p, Flop pbm = Some p →
       index (data p) (height pbm `quot` 2)
       = index (data pbm) (height pbm `quot` 2)).
Proof.
  intros Hh. rewrite (Flop_safe _ Hh). split_and!; [done| |].
  - simpl. rewrite Flop_safe by (simpl; unfold flopRows;
      by rewrite flipRow_length).
    by rewrite with_data_twice, flopRows_twice, with_data_id.
  - intros Hodd p [= <-]. simpl. by apply flipRow_middle.
Qed.

Lemma Flop_result_witness :
  (height image_3x2 ≤ Z.of_nat (length (data image_3x2)))%Z
  ∧ Flop image_3x2
    = Some (with_data image_3x2
              (reverse (take (Z.to_nat (height image_3x2)) (data image_3x2))
                 ++ drop (Z.to_nat (height image_3x2)) (data image_3x2)))
  ∧ (Flop image_3x2 ≫= Flop) = Some image_3x2
  ∧ (Z.odd (height image_3x2) = true →
     ∀ p, Flop image_3x2 = Some p →
       index (data p) (height image_3x2 `quot` 2)
       = index (data image_3x2) (height image_3x2 `quot` 2)).
Proof.
  assert (height image_3x2 ≤ Z.of_nat (length (data image_3x2)))%Z as Hh
    by (vm_compute; discriminate).
  split; [exact Hh | apply (Flop_result image_3x2 Hh)].
Defined.

(* ===================================================================== *)
(** * What the methods never change *)
(* ===================================================================== *)

Lemma same_shape_refl pbm : same_shape pbm pbm.
Proof.
  split_and!; [done..|]. apply Forall2_same_length_lookup. split; [done|].
  intros i row row' H1 H2. congruence.
Qed.

Lemma same_shape_rows pbm (f : list bool → list bool) (n : nat) :
  (∀ row, length (f row) = length row) →
  same_shape pbm
    (with_data pbm ((f <$> take n (data pbm)) ++ drop n (data pbm))).
Proof.
  intros Hf. split_and!; [done..|]. simpl.
  rewrite <- (take_drop n (data pbm)) at 1.
  apply Forall2_app.
  - apply Forall2_fmap_r, Forall_Forall2_diag, Forall_true. intros row. apply Hf.
  - apply Forall_Forall2_diag, Forall_true. done.
Qed.

Lemma Set_result pbm x y v pbm' :
  Set_ pbm x y v = Some pbm' →
  ∃ row, data pbm !! Z.to_nat y = Some row
    ∧ pbm' = with_data pbm
               (<[Z.to_nat y := <[Z.to_nat x := v]> row]> (data pbm)).
Proof.
  intros HSet.
  destruct (proj1 (Set_is_Some pbm x y v)) as (Hy0 & row & Hy & Hx);
    [by eexists|].
  exists row. split; [done|].
  replace y with (Z.of_nat (Z.to_nat y)) in HSet by lia.
  rewrite (Set_row _ _ _ _ _ Hy) in HSet.
  replace x with (Z.of_nat (Z.to_nat x)) in HSet by lia.
  rewrite assign_nat in HSet by lia. by injection HSet as <-.
Qed.

(** X9.  Set, Invert and Flip, whenever they return, leave the width,
    the height and the magic number as they were, and every row at its
    place with its length: they only change pixel values. *)
Theorem pixel_methods_keep_shape pbm pbm' :
  (∃ x y v, Set_ pbm x y v = Some pbm')
  ∨ Invert pbm = Some pbm' ∨ Flip pbm = Some pbm' →
  same_shape pbm pbm'.
Proof.
  intros [(x & y & v & HSet)|[HInv|HFlip]].
  - apply Set_result in HSet as (row & Hy & ->).
    split_and!; [done..|]. simpl.
    apply Forall2_same_length_lookup. split; [by rewrite length_insert|].
    intros i r r' Hr Hr'.
    destruct (decide (i = Z.to_nat y)) as [->|Hne].
    + rewrite list_lookup_insert_eq in Hr' by by eapply lookup_lt_Some.
      injection Hr' as <-. rewrite length_insert. congruence.
    + rewrite list_lookup_insert_ne in Hr' by done. congruence.
  - destruct (decide (width pbm ≤ 0)%Z) as [Hw|Hw].
    { rewrite Invert_narrow in HInv by done. injection HInv as <-.
      apply same_shape_refl. }
    destruct (decide (flip_safe pbm)) as [Hs|Hs].
    + rewrite Invert_safe in HInv by done. injection HInv as <-.
      apply same_shape_rows, invertRow_length.
    + by rewrite Invert_panic in HInv by (done || lia).
  - destruct (decide (width pbm < 2)%Z) as [Hw|Hw].
    { rewrite Flip_narrow in HFlip by done. injection HFlip as <-.
      apply same_shape_refl. }
    destruct (decide (flip_safe pbm)) as [Hs|Hs].
    + rewrite Flip_general in HFlip by done. injection HFlip as <-.
      apply same_shape_rows. intros row. apply flipRow_length.
    + by rewrite Flip_panic in HFlip by (done || lia).
Qed.

Lemma pixel_methods_keep_shape_witness :
  ((∃ x y v, Set_ image_3x2 x y v = Some image_3x2)
   ∨ Invert image_3x2
     = Some (with_data image_3x2
               [[false; true; false]; [true; false; true]])
   ∨ Flip image_3x2
     = Some (with_data image_3x2
               [[false; true; false]; [true; false; true]]))
  ∧ same_shape image_3x2
      (with_data image_3x2 [[false; true; false]; [true; false; true]]).
Proof.
  assert (Invert image_3x2
          = Some (with_data image_3x2
                    [[false; true; false]; [true; false; true]])) as HInv
    by reflexivity.
  split; [right; left; exact HInv|].
  apply (pixel_methods_keep_shape image_3x2 _ (or_intror (or_introl HInv))).
Defined.

(** X10.  Flop, whenever it returns, leaves the width, the height and the
    magic number as they were and only reorders the rows: the grid after
    it is a permutation of the rows before it, so no row is resized, lost
    or duplicated. *)
Theorem Flop_permutes_rows pbm pbm' :
  Flop pbm = Some pbm' →
  width pbm' = width pbm ∧ height pbm' = height pbm
  ∧ magicNumber pbm' = magicNumber pbm
  ∧ data pbm' ≡ₚ data pbm.
Proof.
  intros HFlop. destruct (decide (height pbm < 2)%Z) as [Hh|Hh].
  { rewrite Flop_narrow in HFlop by done. by injection HFlop as <-. }
  destruct (decide (height pbm ≤ Z.of_nat (length (data pbm)))%Z) as [Hl|Hl].
  - rewrite Flop_safe in HFlop by done. injection HFlop as <-.
    split_and!; [done..|]. simpl. unfold flopRows, flipRow.
    rewrite reverse_Permutation. by rewrite take_drop.
  - by rewrite Flop_panic in HFlop by lia.
Qed.

Lemma Flop_permutes_rows_witness :
  Flop image_3x2 = Some (with_data image_3x2 (reverse (data image_3x2)))
  ∧ width (with_data image_3x2 (reverse (data image_3x2))) = width image_3x2
  ∧ height (with_data image_3x2 (reverse (data image_3x2)))
    = height image_3x2
  ∧ magicNumber (with_data image_3x2 (reverse (data image_3x2)))
    = magicNumber image_3x2
  ∧ data (with_data image_3x2 (reverse (data image_3x2)))
    ≡ₚ data image_3x2.
Proof.
  assert (Flop image_3x2
          = Some (with_data image_3x2 (reverse (data image_3x2)))) as HFlop
    by reflexivity.
  split; [exact HFlop | apply (Flop_permutes_rows image_3x2 _ HFlop)].
Defined.

(* ===================================================================== *)
(** * The transforms pixel by pixel *)
(* ===================================================================== *)

Lemma index_fmap {A B} (f : A → B) (l : list A) (i : Z) :
  index (f <$> l) i = f <$> index l i.
Proof.
  unfold index. destruct (Z.ltb_spec i 0); [done|]. apply list_lookup_fmap.
Qed.

Lemma index_reverse {A} (l : list A) (i : Z) :
  index (reverse l) i = index l (Z.of_nat (length l) - 1 - i).
Proof.
  unfold index.
  destruct (Z.ltb_spec i 0) as [Hi|Hi];
    destruct (Z.ltb_spec (Z.of_nat (length l) - 1 - i) 0) as [Hj|Hj];
    try done.
  - symmetry. apply lookup_ge_None. lia.
  - apply lookup_ge_None. rewrite length_reverse. lia.
  - rewrite reverse_lookup by lia. f_equal. lia.
Qed.

(** X11.  On an image that satisfies the dimension invariant, read with
    At: after Invert every pixel is the negation of what it was, after
    Flip the pixel at [(x, y)] is the former pixel at [(width-1-x, y)],
    after Flop it is the former pixel at [(x, height-1-y)]; outside the
    grid At panics before and after alike. *)
Theorem transforms_pixelwise pbm :
  dims_ok pbm →
  (∃ p, Invert pbm = Some p ∧ ∀ x y, At p x y = negb <$> At pbm x y)
  ∧ (∃ p, Flip pbm = Some p
        ∧ ∀ x y, At p x y = At pbm (width pbm - 1 - x) y)
  ∧ (∃ p, Flop pbm = Some p
        ∧ ∀ x y, At p x y = At pbm x (height pbm - 1 - y)).
Proof.
  intros Hok. pose proof Hok as [Hh Hw]. rewrite Forall_forall in Hw.
  split_and!.
  - rewrite Invert_spec by done. eexists. split; [done|].
    intros x y. unfold At. cbn [data with_data].
    change (map (map negb) (data pbm)) with (fmap (M:=list) negb <$> data pbm).
    rewrite index_fmap. destruct (index (data pbm) y) as [row|]; [simpl|done].
    apply index_fmap.
  - rewrite Flip_spec by done. eexists. split; [done|].
    intros x y. unfold At. cbn [data with_data].
    change (map reverse (data pbm)) with (reverse <$> data pbm).
    rewrite index_fmap.
    destruct (index (data pbm) y) as [row|] eqn:Hy; [simpl|done].
    rewrite index_reverse, (Hw row); [done|].
    apply index_Some in Hy as [_ Hy]. by eapply list_elem_of_lookup_2.
  - rewrite Flop_spec by done. eexists. split; [done|].
    intros x y. unfold At. cbn [data with_data].
    by rewrite index_reverse, Hh.
Qed.

Lemma transforms_pixelwise_witness :
  dims_ok image_3x2
  ∧ (∃ p, Invert image_3x2 = Some p
        ∧ ∀ x y, At p x y = negb <$> At image_3x2 x y)
  ∧ (∃ p, Flip image_3x2 = Some p
        ∧ ∀ x y, At p x y = At image_3x2 (width image_3x2 - 1 - x) y)
  ∧ (∃ p, Flop image_3x2 = Some p
        ∧ ∀ x y, At p x y = At image_3x2 x (height image_3x2 - 1 - y)).
Proof.
  assert (dims_ok image_3x2) as Hok
    by (split; [reflexivity | repeat constructor]).
  split; [exact Hok | apply (transforms_pixelwise image_3x2 Hok)].
Defined.

(* ===================================================================== *)
(** * The transforms composed *)
(* ===================================================================== *)

(** X12.  On an image that satisfies the dimension invariant the three
    transforms commute with one another, and Flip after Flop (in either
    order) is the half turn: the rows in reverse order, each reversed. *)
Theorem transforms_commute pbm :
  dims_ok pbm →
  (Invert pbm ≫= Flip) = (Flip pbm ≫= Invert)
  ∧ (Invert pbm ≫= Flop) = (Flop pbm ≫= Invert)
  ∧ (Flip pbm ≫= Flop) = (Flop pbm ≫= Flip)
  ∧ (Flip pbm ≫= Flop)
    = Some (with_data pbm (reverse (reverse <$> data pbm)))
  ∧ (((Flip pbm ≫= Flop) ≫= Flip) ≫= Flop) = Some pbm.
Proof.
  intros Hok.
  assert (∀ p, dims_ok p → Z.of_nat (length (data p)) = height p) as Hlen
    by (by intros p [? _]).
  assert (dims_ok (with_data pbm (map (map negb) (data pbm)))) as HokI
    by exact (dims_ok_with_data pbm (fmap (M:=list) negb)
                (λ row, length_fmap negb row) Hok).
  assert (∀ p, dims_ok p → dims_ok (with_data p (map reverse (data p))))
    as HF by (intros p Hp;
              exact (dims_ok_with_data p reverse
                       (λ row, length_reverse row) Hp)).
  pose proof (HF _ Hok) as HokF.
  pose proof (dims_ok_reverse pbm Hok) as HokR.
  assert (dims_ok (with_data pbm (reverse (map reverse (data pbm)))))
    as HokT by exact (dims_ok_reverse _ HokF).
  assert (dims_ok (with_data pbm
                     (map reverse (reverse (map reverse (data pbm))))))
    as HokTF by exact (HF _ HokT).
  assert (Invert pbm ≫= Flip
          = Some (with_data pbm (map reverse (map (map negb) (data pbm)))))
    as ->.
  { rewrite (Invert_spec pbm Hok). cbn [mbind option_bind].
    by rewrite (Flip_spec _ HokI). }
  assert (Flip pbm ≫= Invert
          = Some (with_data pbm (map (map negb) (map reverse (data pbm)))))
    as ->.
  { rewrite (Flip_spec pbm Hok). cbn [mbind option_bind].
    by rewrite (Invert_spec _ HokF). }
  assert (Invert pbm ≫= Flop
          = Some (with_data pbm (reverse (map (map negb) (data pbm)))))
    as ->.
  { rewrite (Invert_spec pbm Hok). cbn [mbind option_bind].
    by rewrite (Flop_spec _ (Hlen _ HokI)). }
  assert (Flop pbm ≫= Invert
          = Some (with_data pbm (map (map negb) (reverse (data pbm)))))
    as ->.
  { rewrite (Flop_spec pbm (Hlen _ Hok)). cbn [mbind option_bind].
    by rewrite (Invert_spec _ HokR). }
  assert (Flip pbm ≫= Flop
          = Some (with_data pbm (reverse (map reverse (data pbm)))))
    as ->.
  { rewrite (Flip_spec pbm Hok). cbn [mbind option_bind].
    by rewrite (Flop_spec _ (Hlen _ HokF)). }
  assert (Flop pbm ≫= Flip
          = Some (with_data pbm (map reverse (reverse (data pbm)))))
    as ->.
  { rewrite (Flop_spec pbm (Hlen _ Hok)). cbn [mbind option_bind].
    by rewrite (Flip_spec _ HokR). }
  cbn [mbind option_bind].
  assert (Flip (with_data pbm (reverse (map reverse (data pbm))))
          = Some (with_data pbm
                    (map reverse (reverse (map reverse (data pbm))))))
    as -> by (by rewrite (Flip_spec _ HokT)).
  cbn [mbind option_bind].
  rewrite (Flop_spec _ (Hlen _ HokTF)). cbn [data with_data].
  split_and!.
  - do 2 f_equal. change (map ?f ?l) with (f <$> l).
    rewrite <- !list_fmap_compose. apply list_fmap_ext.
    intros _ row _. simpl. by rewrite fmap_reverse.
  - do 2 f_equal. change (map ?f ?l) with (f <$> l). by rewrite fmap_reverse.
  - do 2 f_equal. change (map ?f ?l) with (f <$> l). by rewrite fmap_reverse.
  - done.
  - f_equal. etransitivity; [|apply with_data_id]. f_equal.
    change (reverse (reverse <$> reverse (reverse <$> data pbm)) = data pbm).
    rewrite fmap_reverse, reverse_involutive, <- list_fmap_compose.
    rewrite <- (list_fmap_id (data pbm)) at 2. apply list_fmap_ext.
    intros _ row _. simpl. apply reverse_involutive.
Qed.

Lemma transforms_commute_witness :
  dims_ok image_3x2
  ∧ (Invert image_3x2 ≫= Flip) = (Flip image_3x2 ≫= Invert)
  ∧ (Invert image_3x2 ≫= Flop) = (Flop image_3x2 ≫= Invert)
  ∧ (Flip image_3x2 ≫= Flop) = (Flop image_3x2 ≫= Flip)
  ∧ (Flip image_3x2 ≫= Flop)
    = Some (with_data image_3x2 (reverse (reverse <$> data image_3x2)))
  ∧ (((Flip image_3x2 ≫= Flop) ≫= Flip) ≫= Flop) = Some image_3x2.
Proof.
  assert (dims_ok image_3x2) as Hok
    by (split; [reflexivity | repeat constructor]).
  split; [exact Hok | apply (transforms_commute image_3x2 Hok)].
Defined.

(* ===================================================================== *)
(** * What ReadPBM returns *)
(* ===================================================================== *)

Section Scanned.
Import strconv fmt.

Lemma ParseInt_is_int neg ds v : ParseInt neg ds = Some v → is_int v.
Proof.
  unfold ParseInt. destruct ds as [|c ds]; [done|].
  destruct (parseDigits _ _) as [un|]; [|done].
  destruct (_ && _) eqn:Hr; [|done]. intros [= <-].
  apply andb_prop in Hr as [H1 H2]. unfold is_int. lia.
Qed.

Lemma scanInt_is_int inp v rest : scanInt inp = Some (v, rest) → is_int v.
Proof.
  unfold scanInt. destruct (SkipSpace inp) as [[|c r]|]; simpl; [done| |done].
  destruct (if sign c then _ else _) as [neg inp1].
  destruct (scanDigits inp1) as [[|d tok] inp2]; [done|].
  destruct (ParseInt neg (d :: tok)) as [v'|] eqn:Hp; simpl; [|done].
  intros [= <- _]. by eapply ParseInt_is_int.
Qed.

Lemma Sscanf_is_int s a b :
  is_int a → is_int b →
  is_int (Sscanf_d_d s a b).1.2 ∧ is_int (Sscanf_d_d s a b).2.
Proof.
  intros Ha Hb. unfold Sscanf_d_d.
  destruct (SkipSpace (utf8.runes s)) as [inp|]; simpl; [|done].
  destruct (scanInt inp) as [[v1 inp1]|] eqn:H1; [|done].
  apply scanInt_is_int in H1.
  destruct (advanceSpace inp1) as [inp2|]; simpl; [|done].
  destruct (SkipSpace inp2) as [inp3|]; simpl; [|done].
  destruct (scanInt inp3) as [[v2 inp4]|] eqn:H2; [|done].
  apply scanInt_is_int in H2. done.
Qed.
End Scanned.

Lemma validMagic_dec file : Decision (validMagic file).
Proof. unfold validMagic. apply _. Defined.

Lemma readPBM_invalid file :
  ¬ validMagic file →
  (readPBM file).2 = Err (unsupported (Text (afterMagic file))).
Proof.
  intros Hnv. unfold validMagic in Hnv.
  unfold readPBM, afterMagic, scanN in *.
  destruct (Scan (NewScanner file)) as [ok s]. cbn [snd] in *.
  rewrite !bool_decide_eq_false_2 by tauto. done.
Qed.

(** The image ReadPBM builds once the magic number is accepted. *)
Lemma readPBM_shape file pbm :
  (readPBM file).2 = Ok pbm →
  validMagic file
  ∧ magicNumber pbm = Text (afterMagic file)
  ∧ width pbm = scannedWidth file ∧ height pbm = scannedHeight file
  ∧ length (data pbm) = Z.to_nat (height pbm)
  ∧ is_int (width pbm) ∧ is_int (height pbm).
Proof.
  intros Hread. destruct (validMagic_dec file) as [Hv|Hnv].
  - pose proof (readPBM_valid file Hv) as Hspec.
    pose proof (Sscanf_is_int (Text (afterDims file)) 0 0) as Hint.
    unfold scannedWidth, scannedHeight, scanned.
    destruct (fmt.Sscanf_d_d _ 0 0) as [[n w] h].
    rewrite Hspec in Hread. injection Hread as <-. cbn.
    split_and!; try done.
    + by rewrite length_fmap, length_seq.
    + apply Hint; by vm_compute.
    + apply Hint; by vm_compute.
  - by rewrite readPBM_invalid in Hread.
Qed.

(* ===================================================================== *)
(** * Rows read at and past the end of the file *)
(* ===================================================================== *)

Lemma readRows_add a b p1 s acc :
  readRows (a + b) p1 s acc
  = readRows b p1 (readRows a p1 s acc).1 (readRows a p1 s acc).2.
Proof.
  revert s acc. induction a as [|a IH]; intros s acc; [done|].
  cbn [Nat.add readRows]. destruct (Scan s) as [ok s']. apply IH.
Qed.

Lemma readRows_eof n p1 tok e acc :
  (readRows n p1 {| input := []; token := tok; err := e |} acc).2
  = acc ++ replicate n [].
Proof.
  revert tok e acc. induction n as [|n IH]; intros tok e acc.
  - simpl. by rewrite app_nil_r.
  - cbn [readRows].
    assert (∃ e', Scan {| input := []; token := tok; err := e |}
                  = (false, {| input := []; token := []; err := Some e' |}))
      as [e' ->] by (destruct e; eexists; reflexivity).
    cbn [Text token]. by rewrite IH, decodeRow_nil, <- app_assoc.
Qed.

Lemma readRows_lines_scanner p1 (lines : list gostring) rest tok acc :
  Forall (λ l, plain l ∧ (Z.of_nat (length l) < MaxScanTokenSize)%Z) lines →
  ∃ tok',
    readRows (length lines) p1
      {| input := concat ((λ l, l ++ [LF]) <$> lines) ++ rest;
         token := tok; err := None |} acc
    = ({| input := rest; token := tok'; err := None |},
       acc ++ (decodeRow p1 <$> lines)).
Proof.
  intros Hlines. revert tok acc.
  induction Hlines as [|l lines [Hp Hlen] _ IH]; intros tok acc.
  - exists tok. simpl. by rewrite app_nil_r.
  - cbn [length readRows fmap list_fmap concat].
    rewrite <- !app_assoc. cbn [app].
    rewrite Scan_line by done. cbn [Text token].
    destruct (IH l (acc ++ [decodeRow p1 l])) as [tok' ->].
    exists tok'. by rewrite <- app_assoc.
Qed.

(** Reading [n] rows where the file holds the lines [lines] and nothing
    after them. *)
Lemma readRows_any n p1 (lines : list gostring) tok :
  Forall (λ l, plain l ∧ (Z.of_nat (length l) < MaxScanTokenSize)%Z) lines →
  (readRows n p1
     {| input := concat ((λ l, l ++ [LF]) <$> lines) ++ [];
        token := tok; err := None |} []).2
  = (decodeRow p1 <$> take n lines) ++ replicate (n - length lines) [].
Proof.
  intros Hlines. destruct (decide (n ≤ length lines)) as [Hn|Hn].
  - replace (n - length lines) with 0 by lia. cbn [replicate].
    rewrite !app_nil_r.
    rewrite <- (take_drop n lines) at 1.
    rewrite fmap_app, concat_app.
    replace n with (length (take n lines)) at 1
      by (rewrite length_take; lia).
    rewrite readRows_lines; [done|]. by apply Forall_take.
  - replace n with (length lines + (n - length lines)) at 1 by lia.
    rewrite readRows_add.
    destruct (readRows_lines_scanner p1 lines [] tok [] Hlines) as [tok' ->].
    cbn [fst snd]. rewrite readRows_eof, take_ge by lia. done.
Qed.

Section Reread.
Import bufio.

Lemma readPBM_saveBytes_P1_any pbm :
  magicNumber pbm = str "P1" →
  is_int (width pbm) → is_int (height pbm) →
  Forall (λ row, (Z.of_nat (length row) < 32768)%Z) (data pbm) →
  (readPBM (saveBytes pbm)).2 = Ok (with_data pbm (rereadRows pbm)).
Proof.
  intros Hm Hiw Hih Hrows.
  rewrite saveBytes_P1 by done. unfold readPBM, NewScanner.
  rewrite Scan_line; [|by repeat constructor|done].
  cbn [Text token]. rewrite bool_decide_eq_true_2 by done.
  rewrite Scan_line by (apply dimsLine_plain || apply dimsLine_length).
  cbn [Text token]. unfold dimsLine. rewrite Sscanf_header by done.
  destruct (readRows _ _ _ _) as [sc rows] eqn:Hread.
  apply (f_equal snd) in Hread. rewrite readRows_any in Hread.
  - cbn [snd] in *. subst rows. unfold with_data, rereadRows.
    rewrite Hm. do 2 f_equal. rewrite length_fmap. f_equal.
    rewrite <- fmap_take, <- list_fmap_compose.
    rewrite (list_fmap_ext _ id (take _ (data pbm))); [apply list_fmap_id|].
    intros _ row _. apply decodeRow_rowP1.
  - apply Forall_fmap. eapply Forall_impl; [exact Hrows|].
    intros row Hrow. cbv beta in *. split; [apply rowP1_plain|].
    rewrite rowP1_length. unfold MaxScanTokenSize. lia.
Qed.
End Reread.

(* ===================================================================== *)
(** * ReadPBM and Save as a whole *)
(* ===================================================================== *)

(** X13.  ReadPBM fails in two cases only: the file cannot be opened (the
    error of os.Open is returned) or its first line is neither P1 nor P4.
    In every other case it returns an image, whatever the rest of the
    file holds: the magic number is the first line, the width and the
    height are Go ints, and there are exactly [height] rows, none when the
    height is zero or negative. *)
Theorem ReadPBM_outcome fs filename :
  match ReadPBM fs filename with
  | Err e =>
    (os.Open fs filename = None ∧ e = PathError "open" filename)
    ∨ (∃ file, os.Open fs filename = Some file ∧ ¬ validMagic file
         ∧ e = Errorf (str "unsupported PBM format: "
                         ++ Text (afterMagic file)))
  | Ok pbm =>
    ∃ file, os.Open fs filename = Some file ∧ validMagic file
      ∧ magicNumber pbm = Text (afterMagic file)
      ∧ length (data pbm) = Z.to_nat (height pbm)
      ∧ is_int (width pbm) ∧ is_int (height pbm)
  end.
Proof.
  unfold ReadPBM. destruct (os.Open fs filename) as [file|]; [|by left].
  destruct (readPBM file).2 as [pbm|e] eqn:Hread.
  - apply readPBM_shape in Hread as (Hv & Hm & _ & _ & Hlen & Hw & Hh).
    by exists file.
  - right. exists file. split; [done|].
    destruct (validMagic_dec file) as [Hv|Hnv].
    + pose proof (readPBM_valid file Hv) as Hspec.
      destruct (fmt.Sscanf_d_d _ 0 0) as [[n w] h]. congruence.
    + rewrite readPBM_invalid in Hread by done. by injection Hread as <-.
Qed.

(** X14.  Flop never panics on an image as ReadPBM returns it, since such
    an image has as many rows as its height says: the rows come out in
    reverse order.  (Invert and Flip can panic on such an image, when a
    line of the file held fewer pixels than the width.) *)
Theorem Flop_after_ReadPBM fs filename pbm :
  ReadPBM fs filename = Ok pbm →
  Flop pbm = Some (with_data pbm (reverse (data pbm))).
Proof.
  intros Hread. unfold ReadPBM in Hread.
  destruct (os.Open fs filename) as [file|]; [|done].
  apply readPBM_shape in Hread as (_ & _ & _ & _ & Hlen & _).
  destruct (decide (0 ≤ height pbm)%Z) as [Hh|Hh].
  - apply Flop_spec. lia.
  - rewrite Flop_narrow by lia.
    assert (data pbm = []) as Hd by (apply length_zero_iff_nil; lia).
    rewrite Hd. change (reverse []) with (@nil (list bool)).
    by rewrite <- Hd, with_data_id.
Qed.

Lemma Flop_after_ReadPBM_witness :
  ReadPBM (one_file (str "example.pbm") short_file) (str "example.pbm")
  = Ok {| data := [[true; false; true]; []]; width := 3; height := 2;
          magicNumber := str "P1" |}
  ∧ Flop {| data := [[true; false; true]; []]; width := 3; height := 2;
            magicNumber := str "P1" |}
    = Some {| data := [[]; [true; false; true]]; width := 3; height := 2;
              magicNumber := str "P1" |}.
Proof.
  assert (ReadPBM (one_file (str "example.pbm") short_file)
            (str "example.pbm")
          = Ok {| data := [[true; false; true]; []]; width := 3; height := 2;
                  magicNumber := str "P1" |}) as Hread by (by vm_compute).
  split; [exact Hread|].
  apply (Flop_after_ReadPBM _ _ _ Hread).
Defined.

(** X15.  Save in the P1 branch followed by ReadPBM, for any image, also
    one whose rows do not match its header: with rows of fewer than 32768
    pixels, the image read back has the same header, the first [height]
    rows as they were, whatever their lengths, and one empty row for each
    row that the header announces and the image does not hold; the rows
    past [height] are written to the file and not read back. *)
Theorem plaintext_reread pbm :
  magicNumber pbm = str "P1" →
  is_int (width pbm) → is_int (height pbm) →
  Forall (λ row, (Z.of_nat (length row) < 32768)%Z) (data pbm) →
  (readPBM (saveBytes pbm)).2
  = Ok {| data := take (Z.to_nat (height pbm)) (data pbm)
                    ++ replicate (Z.to_nat (height pbm) - length (data pbm)) [];
          width := width pbm; height := height pbm;
          magicNumber := str "P1" |}.
Proof.
  intros Hm Hw Hh Hrows. rewrite readPBM_saveBytes_P1_any by done.
  unfold with_data, rereadRows. by rewrite Hm.
Qed.

Lemma plaintext_reread_witness :
  (readPBM (saveBytes ragged_image)).2
  = Ok {| data := [[true]; [false; true; true]; []; []];
          width := 2; height := 4; magicNumber := str "P1" |}.
Proof.
  assert (is_int 2 ∧ is_int 4) as [Hw Hh] by (split; by vm_compute).
  assert (Forall (λ row, (Z.of_nat (length row) < 32768)%Z)
            (data ragged_image)) as Hrows
    by (repeat constructor; by vm_compute).
  exact (plaintext_reread ragged_image eq_refl Hw Hh Hrows).
Defined.

Lemma Save_written fs pbm filename fs' :
  Save fs pbm filename = (fs', None) →
  os.Open fs' filename = Some (saveBytes pbm).
Proof.
  unfold Save, os.written. destruct (os.creatable fs filename); [|done].
  destruct (os.room fs filename) as [n|].
  - destruct (n <? length (saveBytes pbm)); [done|]. intros [= <-].
    unfold os.Open, os.WriteFile. cbn [os.content].
    by rewrite bool_decide_eq_true_2.
  - intros [= <-]. unfold os.Open, os.WriteFile. cbn [os.content].
    by rewrite bool_decide_eq_true_2.
Qed.

(** X17.  A P1 image as ReadPBM returns it, with rows of fewer than 32768
    pixels, is a fixed point of writing and reading: what Save writes for
    it is read as the image itself, short or long rows included; so
    whenever Save returns no error, ReadPBM at the file saved returns the
    image. *)
Theorem reread_fixed_point fs filename pbm :
  ReadPBM fs filename = Ok pbm →
  magicNumber pbm = str "P1" →
  Forall (λ row, (Z.of_nat (length row) < 32768)%Z) (data pbm) →
  (readPBM (saveBytes pbm)).2 = Ok pbm
  ∧ ∀ output fs', Save fs pbm output = (fs', None) →
      ReadPBM fs' output = Ok pbm.
Proof.
  intros Hread Hm Hrows.
  assert ((readPBM (saveBytes pbm)).2 = Ok pbm) as Hfix.
  { unfold ReadPBM in Hread.
    destruct (os.Open fs filename) as [file|]; [|done].
    apply readPBM_shape in Hread as (_ & _ & _ & _ & Hlen & Hw & Hh).
    rewrite readPBM_saveBytes_P1_any by done. f_equal.
    unfold rereadRows. rewrite <- Hlen, firstn_all, Nat.sub_diag. simpl.
    rewrite app_nil_r. apply with_data_id. }
  split; [done|]. intros output fs' HSave.
  unfold ReadPBM. by rewrite (Save_written _ _ _ _ HSave).
Qed.

Lemma reread_fixed_point_witness :
  (readPBM (saveBytes
              {| data := [[true; false; true]; []]; width := 3; height := 2;
                 magicNumber := str "P1" |})).2
  = Ok {| data := [[true; false; true]; []]; width := 3; height := 2;
          magicNumber := str "P1" |}
  ∧ ReadPBM
      (Save (one_file (str "example.pbm") short_file)
         {| data := [[true; false; true]; []]; width := 3; height := 2;
            magicNumber := str "P1" |} (str "output.pbm")).1
      (str "output.pbm")
    = Ok {| data := [[true; false; true]; []]; width := 3; height := 2;
            magicNumber := str "P1" |}.
Proof.
  assert (ReadPBM (one_file (str "example.pbm") short_file)
            (str "example.pbm")
          = Ok {| data := [[true; false; true]; []]; width := 3; height := 2;
                  magicNumber := str "P1" |}) as Hread by (by vm_compute).
  assert (Forall (λ row, (Z.of_nat (length row) < 32768)%Z)
            [[true; false; true]; []]) as Hrows
    by (repeat constructor; by vm_compute).
  destruct (reread_fixed_point _ _ _ Hread eq_refl Hrows) as [Hfix Hfile].
  split; [exact Hfix|]. apply Hfile. reflexivity.
Defined.

(* ===================================================================== *)
(** * Packed rows *)
(* ===================================================================== *)

Lemma bit_test (c j : Z) : (Z.land (Z.shiftr c j) 1 =? 1)%Z = Z.testbit c j.
Proof.
  rewrite Z.testbit_odd. change 1%Z with (Z.ones 1) at 1.
  rewrite Z.land_ones by lia. change (2 ^ 1)%Z with 2%Z.
  rewrite <- Z.bit0_odd, <- (Z.bit0_mod (Z.shiftr c j)).
  by destruct (Z.testbit _ 0).
Qed.

Lemma unpackBits_bits8 char row : unpackBits char row = row ++ bits8 char.
Proof.
  unfold unpackBits, bits8. cbn [fold_left seq fmap list_fmap].
  rewrite !bit_test, <- !app_assoc. done.
Qed.

Lemma decodeRow_P4_fold (rs : list rune) acc :
  fold_left (λ row char, unpackBits char row) rs acc = acc ++ (rs ≫= bits8).
Proof.
  revert acc. induction rs as [|r rs IH]; intros acc.
  - simpl. by rewrite app_nil_r.
  - cbn [fold_left]. rewrite IH, unpackBits_bits8, <- app_assoc. done.
Qed.

Lemma packByte_past row i : length row ≤ i → packByte row i = 0%Z.
Proof.
  intros Hi. rewrite packByte_chunk, drop_ge by done. reflexivity.
Qed.

Lemma no_terminator_b_spec row : no_terminator_b row = true → no_terminator row.
Proof.
  intros Hb k. destruct (decide (k < length row)) as [Hk|Hk].
  - unfold no_terminator_b in Hb. rewrite forallb_forall in Hb.
    assert (In k (seq 0 (length row))) as Hin by (apply in_seq; lia).
    apply Hb, andb_prop in Hin as [H10 H13].
    apply negb_true_iff in H10, H13. lia.
  - rewrite packByte_past by lia. done.
Qed.

Lemma readPBM_saveBytes_P4_any pbm :
  magicNumber pbm = str "P4" →
  is_int (width pbm) → is_int (height pbm) →
  Forall (λ row, no_terminator row
                 ∧ (Z.of_nat (length row) ≤ 262136)%Z) (data pbm) →
  (readPBM (saveBytes pbm)).2
  = Ok (with_data pbm
          ((padded <$> take (Z.to_nat (height pbm)) (data pbm))
             ++ replicate (Z.to_nat (height pbm) - length (data pbm)) [])).
Proof.
  intros Hm Hiw Hih Hrows.
  rewrite saveBytes_P4 by done. unfold readPBM, NewScanner.
  rewrite Scan_line; [|by repeat constructor|done].
  cbn [Text token]. rewrite bool_decide_eq_false_2 by done.
  rewrite bool_decide_eq_true_2 by done.
  rewrite Scan_line by (apply dimsLine_plain || apply dimsLine_length).
  cbn [Text token]. unfold dimsLine. rewrite Sscanf_header by done.
  destruct (readRows _ _ _ _) as [sc rows] eqn:Hread.
  apply (f_equal snd) in Hread. rewrite readRows_any in Hread.
  - cbn [snd] in *. subst rows. unfold with_data.
    rewrite Hm. do 2 f_equal. rewrite length_fmap. f_equal.
    rewrite <- fmap_take, <- list_fmap_compose.
    apply list_fmap_ext. intros _ row _. apply decodeRow_packed.
  - apply Forall_fmap. eapply Forall_impl; [exact Hrows|].
    intros row [Hterm Hlen]. cbv beta. split.
    + by apply (packLoop_plain _ _ 0).
    + pose proof (packLoop_length (length row) row 0).
      unfold MaxScanTokenSize. lia.
Qed.

(** X18.  Save in the P4 branch followed by ReadPBM, for any image whose
    rows hold no chunk that packs to a line feed or a carriage return and
    are at most 262136 pixels long: the image read back has the same
    header, the first [height] rows each filled with unset pixels to a
    multiple of eight, and one empty row for each row that the header
    announces and the image does not hold. *)
Theorem packed_reread pbm :
  magicNumber pbm = str "P4" →
  is_int (width pbm) → is_int (height pbm) →
  Forall (λ row, no_terminator row
                 ∧ (Z.of_nat (length row) ≤ 262136)%Z) (data pbm) →
  (readPBM (saveBytes pbm)).2
  = Ok {| data :=
            ((λ row, row ++ replicate ((8 - length row `mod` 8) `mod` 8) false)
               <$> take (Z.to_nat (height pbm)) (data pbm))
              ++ replicate (Z.to_nat (height pbm) - length (data pbm)) [];
          width := width pbm; height := height pbm;
          magicNumber := str "P4" |}.
Proof.
  intros Hm Hw Hh Hrows. rewrite readPBM_saveBytes_P4_any by done.
  unfold with_data. rewrite Hm. do 3 f_equal.
  apply list_fmap_ext. intros _ row _. apply padded_spec.
Qed.

Lemma packed_reread_witness :
  (readPBM (saveBytes packed_ragged_image)).2
  = Ok {| data := [[true; false; true; false; false; false; false; true;
                    true; true; false; false; false; false; false; false];
                   []; []];
          width := 10; height := 3; magicNumber := str "P4" |}.
Proof.
  assert (is_int 10 ∧ is_int 3) as [Hw Hh] by (split; by vm_compute).
  assert (Forall (λ row, no_terminator row
                         ∧ (Z.of_nat (length row) ≤ 262136)%Z)
            (data packed_ragged_image)) as Hrows.
  { apply Forall_cons_2; [split|apply Forall_nil_2].
    - apply no_terminator_b_spec. reflexivity.
    - simpl. lia. }
  exact (packed_reread packed_ragged_image eq_refl Hw Hh Hrows).
Defined.

(** X19.  In the P4 branch every character of a line gives eight pixels,
    bit 7 first: a row read from a packed file holds eight pixels for each
    character of its line, the bits 7 to 0 of the character's code point,
    so its length is a multiple of eight whatever the width says. *)
Theorem packed_row_bits line :
  decodeRow false line = utf8.runes line ≫= bits8
  ∧ length (decodeRow false line) = 8 * length (utf8.runes line)
  ∧ ∀ (i j : nat) char, utf8.runes line !! i = Some char → j < 8 →
      decodeRow false line !! (8 * i + j)
      = Some (Z.testbit char (7 - Z.of_nat j)).
Proof.
  assert (decodeRow false line = utf8.runes line ≫= bits8) as Hrow.
  { unfold decodeRow. by rewrite decodeRow_P4_fold. }
  rewrite Hrow. clear Hrow. generalize (utf8.runes line). intros rs.
  split_and!; [done| |].
  - induction rs as [|r rs IH]; [done|].
    cbn [mbind list_bind]. rewrite length_app.
    change (foldr _ _ _) with (rs ≫= bits8). rewrite IH. simpl. lia.
  - induction rs as [|r rs IH]; intros i j char Hi Hj; [done|].
    cbn [mbind list_bind]. change (foldr _ _ _) with (rs ≫= bits8).
    destruct i as [|i].
    + injection Hi as ->. rewrite lookup_app_l by (simpl; lia).
      replace (8 * 0 + j) with j by lia.
      do 8 (destruct j as [|j]; [reflexivity|]). lia.
    + rewrite lookup_app_r by (simpl; lia).
      replace (8 * S i + j - length (bits8 r)) with (8 * i + j)
        by (simpl; lia).
      by apply IH.
Qed.

(* ===================================================================== *)
(** * Plain rows, byte by byte *)
(* ===================================================================== *)

Ltac calc t := let v := eval vm_compute in t in change t with v.

Section Utf8.
Import utf8.
Local Open Scope Z_scope.

Lemma lor_ge_pow a b k :
  0 ≤ a → 0 ≤ b → 0 ≤ k → 2 ^ k ≤ a → 2 ^ k ≤ Z.lor a b.
Proof.
  intros Ha Hb Hk Hka.
  assert (0 < 2 ^ k) by (by apply Z.pow_pos_nonneg).
  assert (0 ≤ Z.lor a b) as Hor by (by apply Z.lor_nonneg).
  assert (Z.lor a b ≠ 0) by (intros [-> _]%Z.lor_eq_0_iff; lia).
  apply Z.log2_le_pow2; [lia|]. rewrite Z.log2_lor by done.
  apply Z.log2_le_pow2 in Hka; lia.
Qed.

Lemma land_mask a n : 0 ≤ n → Z.land a (Z.ones n) = a mod 2 ^ n.
Proof. apply Z.land_ones. Qed.

Lemma rune2_high s0 c1 :
  194 ≤ s0 < 224 →
  64 ≤ Z.lor (Z.shiftl (Z.land s0 mask2) 6) (Z.land c1 maskx).
Proof.
  intros Hs. change mask2 with (Z.ones 5). change maskx with (Z.ones 6).
  rewrite !land_mask by lia. change (2 ^ 5) with 32. change (2 ^ 6) with 64.
  rewrite Z.shiftl_mul_pow2 by lia. change (2 ^ 6) with 64.
  apply (lor_ge_pow _ _ 6); [| |lia|]; Z.div_mod_to_equations; lia.
Qed.

Lemma rune3_high s0 c1 c2 :
  224 ≤ s0 < 240 → 128 ≤ c1 < 192 → (s0 = 224 → 160 ≤ c1) →
  64 ≤ Z.lor (Z.lor (Z.shiftl (Z.land s0 mask3) 12)
                    (Z.shiftl (Z.land c1 maskx) 6))
             (Z.land c2 maskx).
Proof.
  intros Hs Hc Hc'. change mask3 with (Z.ones 4). change maskx with (Z.ones 6).
  rewrite !land_mask by lia. change (2 ^ 4) with 16. change (2 ^ 6) with 64.
  rewrite !Z.shiftl_mul_pow2 by lia.
  change (2 ^ 6) with 64. change (2 ^ 12) with 4096.
  apply (lor_ge_pow _ _ 6); [| |lia|].
  - apply Z.lor_nonneg. Z.div_mod_to_equations. lia.
  - Z.div_mod_to_equations. lia.
  - destruct (decide (s0 = 224)) as [->|Hne].
    + rewrite Z.lor_comm. apply (lor_ge_pow _ _ 6); [| |lia|];
        Z.div_mod_to_equations; lia.
    + apply (lor_ge_pow _ _ 6); [| |lia|]; Z.div_mod_to_equations; lia.
Qed.

Lemma rune4_high s0 c1 c2 c3 :
  240 ≤ s0 < 245 → 128 ≤ c1 < 192 → (s0 = 240 → 144 ≤ c1) →
  64 ≤ Z.lor (Z.lor (Z.lor (Z.shiftl (Z.land s0 mask4) 18)
                           (Z.shiftl (Z.land c1 maskx) 12))
                    (Z.shiftl (Z.land c2 maskx) 6))
             (Z.land c3 maskx).
Proof.
  intros Hs Hc Hc'. change mask4 with (Z.ones 3). change maskx with (Z.ones 6).
  rewrite !land_mask by lia. change (2 ^ 3) with 8. change (2 ^ 6) with 64.
  rewrite !Z.shiftl_mul_pow2 by lia.
  change (2 ^ 6) with 64. change (2 ^ 12) with 4096.
  change (2 ^ 18) with 262144.
  assert (64 ≤ Z.lor (s0 `mod` 8 * 262144) (c1 `mod` 64 * 4096)) as Hin.
  { destruct (decide (s0 = 240)) as [->|Hne].
    + rewrite Z.lor_comm. apply (lor_ge_pow _ _ 6); [| |lia|];
        Z.div_mod_to_equations; lia.
    + apply (lor_ge_pow _ _ 6); [| |lia|]; Z.div_mod_to_equations; lia. }
  apply (lor_ge_pow _ _ 6); [| |lia|].
  - apply Z.lor_nonneg. split; [lia|]. Z.div_mod_to_equations. lia.
  - Z.div_mod_to_equations. lia.
  - apply (lor_ge_pow _ _ 6); [lia| |lia|lia].
    Z.div_mod_to_equations. lia.
Qed.

(** The first byte of a sequence and its entry in the table [first]. *)
Lemma first_cases s0 :
  128 ≤ s0 < 256 →
  first s0 = xx
  ∨ (first s0 = s1 ∧ 194 ≤ s0 < 224)
  ∨ (first s0 = s2 ∧ s0 = 224)
  ∨ (first s0 = s3 ∧ 225 ≤ s0 < 240)
  ∨ (first s0 = s4 ∧ s0 = 237)
  ∨ (first s0 = s5 ∧ s0 = 240)
  ∨ (first s0 = s6 ∧ 241 ≤ s0 < 244)
  ∨ (first s0 = s7 ∧ s0 = 244).
Proof.
  intros Hs. unfold first.
  repeat match goal with
  | |- context [?a <? ?b] => destruct (Z.ltb_spec a b)
  | |- context [?a =? ?b] => destruct (Z.eqb_spec a b)
  end; try lia; auto 10 with lia.
Qed.

Ltac rune_error :=
  eexists _, _; split; [reflexivity|]; split;
  [vm_compute; discriminate | apply Forall_nil_2].

Ltac case_ltb :=
  match goal with
  | |- context [Z.ltb ?a ?b] => destruct (Z.ltb_spec a b)
  end; cbn [orb].

Lemma cont_high c : cont c = true → 128 ≤ c < 192.
Proof.
  unfold cont, locb, hicb. intros [H1 H2]%andb_prop. lia.
Qed.

Ltac case_cont H :=
  match goal with
  | |- context [cont ?c] =>
    destruct (cont c) eqn:H; cbn [negb]; [apply cont_high in H|rune_error]
  end.

(** A rune that starts at a byte above 127 is no digit, and the bytes
    the loop passes over after it are above 127 too. *)
Lemma DecodeRune_high b t :
  128 ≤ code b →
  ∃ r size, DecodeRune (b :: t) = (r, size)
    ∧ 64 ≤ r
    ∧ Forall (λ c, 128 ≤ code c) (take (size - 1) t).
Proof.
  intros Hb. pose proof (code_range b) as Hr.
  unfold DecodeRune. cbv zeta. set (s0 := code b) in *.
  destruct (first_cases s0) as
    [Hf|[[Hf Hs]|[[Hf Hs]|[[Hf Hs]|[[Hf Hs]|[[Hf Hs]|[[Hf Hs]|[Hf Hs]]]]]]]];
    [lia|rewrite Hf..].
  - calc (as_ <=? xx). calc (xx =? as_). cbv iota. rune_error.
  - calc (as_ <=? s1). calc (Z.to_nat (Z.land s1 7)).
    calc (acceptRanges (Z.shiftr s1 4)). cbv iota beta.
    destruct (_ <? _)%nat; [rune_error|].
    destruct t as [|b1 t1]; [rune_error|].
    case_ltb; [rune_error|]. case_ltb; [rune_error|].
    eexists _, _. split; [reflexivity|]. split; [by apply rune2_high|].
    apply Forall_cons_2; [|apply Forall_nil_2]. lia.
  - calc (as_ <=? s2). calc (Z.to_nat (Z.land s2 7)).
    calc (acceptRanges (Z.shiftr s2 4)). cbv iota beta.
    destruct (_ <? _)%nat; [rune_error|].
    destruct t as [|b1 t1]; [rune_error|].
    case_ltb; [rune_error|]. case_ltb; [rune_error|].
    calc (3 <=? 2)%nat. cbv iota.
    destruct t1 as [|b2 t2]; [rune_error|]. case_cont Hc2.
    eexists _, _. split; [reflexivity|].
    split; [apply rune3_high; lia|].
    repeat apply Forall_cons_2; try apply Forall_nil_2; lia.
  - calc (as_ <=? s3). calc (Z.to_nat (Z.land s3 7)).
    calc (acceptRanges (Z.shiftr s3 4)). cbv iota beta.
    destruct (_ <? _)%nat; [rune_error|].
    destruct t as [|b1 t1]; [rune_error|].
    case_ltb; [rune_error|]. case_ltb; [rune_error|].
    calc (3 <=? 2)%nat. cbv iota.
    destruct t1 as [|b2 t2]; [rune_error|]. case_cont Hc2.
    eexists _, _. split; [reflexivity|].
    split; [apply rune3_high; lia|].
    repeat apply Forall_cons_2; try apply Forall_nil_2; lia.
  - calc (as_ <=? s4). calc (Z.to_nat (Z.land s4 7)).
    calc (acceptRanges (Z.shiftr s4 4)). cbv iota beta.
    destruct (_ <? _)%nat; [rune_error|].
    destruct t as [|b1 t1]; [rune_error|].
    case_ltb; [rune_error|]. case_ltb; [rune_error|].
    calc (3 <=? 2)%nat. cbv iota.
    destruct t1 as [|b2 t2]; [rune_error|]. case_cont Hc2.
    eexists _, _. split; [reflexivity|].
    split; [apply rune3_high; lia|].
    repeat apply Forall_cons_2; try apply Forall_nil_2; lia.
  - calc (as_ <=? s5). calc (Z.to_nat (Z.land s5 7)).
    calc (acceptRanges (Z.shiftr s5 4)). cbv iota beta.
    destruct (_ <? _)%nat; [rune_error|].
    destruct t as [|b1 t1]; [rune_error|].
    case_ltb; [rune_error|]. case_ltb; [rune_error|].
    calc (4 <=? 2)%nat. calc (4 <=? 3)%nat. cbv iota.
    destruct t1 as [|b2 t2]; [rune_error|]. case_cont Hc2.
    destruct t2 as [|b3 t3]; [rune_error|]. case_cont Hc3.
    eexists _, _. split; [reflexivity|].
    split; [apply rune4_high; lia|].
    repeat apply Forall_cons_2; try apply Forall_nil_2; lia.
  - calc (as_ <=? s6). calc (Z.to_nat (Z.land s6 7)).
    calc (acceptRanges (Z.shiftr s6 4)). cbv iota beta.
    destruct (_ <? _)%nat; [rune_error|].
    destruct t as [|b1 t1]; [rune_error|].
    case_ltb; [rune_error|]. case_ltb; [rune_error|].
    calc (4 <=? 2)%nat. calc (4 <=? 3)%nat. cbv iota.
    destruct t1 as [|b2 t2]; [rune_error|]. case_cont Hc2.
    destruct t2 as [|b3 t3]; [rune_error|]. case_cont Hc3.
    eexists _, _. split; [reflexivity|].
    split; [apply rune4_high; lia|].
    repeat apply Forall_cons_2; try apply Forall_nil_2; lia.
  - calc (as_ <=? s7). calc (Z.to_nat (Z.land s7 7)).
    calc (acceptRanges (Z.shiftr s7 4)). cbv iota beta.
    destruct (_ <? _)%nat; [rune_error|].
    destruct t as [|b1 t1]; [rune_error|].
    case_ltb; [rune_error|]. case_ltb; [rune_error|].
    calc (4 <=? 2)%nat. calc (4 <=? 3)%nat. cbv iota.
    destruct t1 as [|b2 t2]; [rune_error|]. case_cont Hc2.
    destruct t2 as [|b3 t3]; [rune_error|]. case_cont Hc3.
    eexists _, _. split; [reflexivity|].
    split; [apply rune4_high; lia|].
    repeat apply Forall_cons_2; try apply Forall_nil_2; lia.
Qed.
End Utf8.

Lemma P1_fold_bytes (s : gostring) (skip : nat) (acc : list bool) :
  Forall (λ c, 128 ≤ code c)%Z (take skip s) →
  fold_left
    (λ row char,
       if (char =? 48)%Z then row ++ [false]
       else if (char =? 49)%Z then row ++ [true]
       else row)
    (utf8.range_from skip s) acc
  = acc ++ omap pixelOfByte s.
Proof.
  revert skip acc. induction s as [|b t IH]; intros skip acc Hskip.
  - simpl. by rewrite app_nil_r.
  - destruct skip as [|k].
    + cbn [utf8.range_from].
      destruct (decide (code b < 128)%Z) as [Hb|Hb].
      * rewrite DecodeRune_ascii by done. cbn [fold_left Nat.sub].
        rewrite IH by apply Forall_nil_2.
        cbn [omap list_omap]. unfold pixelOfByte at 2.
        destruct (code b =? 48)%Z; [by rewrite <- app_assoc|].
        destruct (code b =? 49)%Z; [by rewrite <- app_assoc|done].
      * destruct (DecodeRune_high b t) as (r & size & -> & Hr & Hcont);
          [lia|].
        cbn [fold_left]. rewrite IH by done.
        rewrite (proj2 (Z.eqb_neq r 48)), (proj2 (Z.eqb_neq r 49)) by lia.
        cbn [omap list_omap]. unfold pixelOfByte at 2.
        by rewrite (proj2 (Z.eqb_neq (code b) 48)),
          (proj2 (Z.eqb_neq (code b) 49)) by lia.
    + cbn [utf8.range_from]. cbn [take] in Hskip.
      apply Forall_cons in Hskip as [Hb Hskip].
      rewrite IH by done. cbn [omap list_omap]. unfold pixelOfByte at 2.
      by rewrite (proj2 (Z.eqb_neq (code b) 48)),
        (proj2 (Z.eqb_neq (code b) 49)) by lia.
Qed.

(** X20.  In the P1 branch a row is read byte by byte, whatever the line
    holds: each byte '0' gives an unset pixel, each byte '1' a set pixel,
    and every other byte is passed over, blanks, other digits, letters, a
    '#' and the bytes of characters outside ASCII alike, well-formed
    UTF-8 or not.  No separator is needed between pixels and no comment
    is recognised. *)
Theorem plain_row_bytes line :
  decodeRow true line = omap pixelOfByte line
  ∧ length (decodeRow true line) ≤ length line.
Proof.
  assert (decodeRow true line = omap pixelOfByte line) as Hrow.
  { unfold decodeRow, utf8.runes.
    by rewrite (P1_fold_bytes line 0 []) by apply Forall_nil_2. }
  split; [done|]. rewrite Hrow. clear Hrow.
  induction line as [|b t IH]; [done|].
  cbn [omap list_omap]. destruct (pixelOfByte b); simpl; lia.
Qed.

(* ===================================================================== *)
(** * Line endings *)
(* ===================================================================== *)

Lemma break_line_CR line rest :
  plain line →
  break_line (line ++ CR :: LF :: rest) = (line ++ [CR], Some rest).
Proof.
  induction 1 as [|c line [Hc _] _ IH]; [done|].
  cbn [app break_line]. rewrite bool_decide_eq_false_2 by done.
  by rewrite IH.
Qed.

Lemma dropCR_CR line : dropCR (line ++ [CR]) = line.
Proof.
  induction line as [|c line IH]; [done|].
  cbn [app dropCR]. rewrite IH. by destruct line.
Qed.

Lemma Scan_line_CR line rest tok :
  plain line → (Z.of_nat (length line) + 1 < MaxScanTokenSize)%Z →
  Scan {| input := line ++ CR :: LF :: rest; token := tok; err := None |}
  = (true, {| input := rest; token := line; err := None |}).
Proof.
  intros Hp Hlen. unfold Scan, scanLine. cbn [input err].
  rewrite break_line_CR by done.
  rewrite length_app. cbn [length].
  destruct (Z.leb_spec MaxScanTokenSize (Z.of_nat (length line + 1))); [lia|].
  by rewrite dropCR_CR.
Qed.

Lemma scanN_line_endings (lines : list gostring) tok k :
  Forall (λ l, plain l ∧ (Z.of_nat (length l) + 1 < MaxScanTokenSize)%Z)
    lines →
  Text (scanN k {| input := dosFile lines; token := tok; err := None |})
  = Text (scanN k {| input := unixFile lines; token := tok; err := None |}).
Proof.
  intros Hlines. revert tok k.
  induction Hlines as [|l lines [Hp Hlen] _ IH]; intros tok k; [done|].
  destruct k as [|k]; [done|]. cbn [scanN].
  unfold dosFile, unixFile. cbn [fmap list_fmap concat].
  rewrite <- !app_assoc. cbn [app].
  rewrite Scan_line_CR, Scan_line by (done || lia). apply IH.
Qed.

Lemma readPBM_by_lines file file' :
  (∀ k, Text (scanN k (NewScanner file)) = Text (scanN k (NewScanner file'))) →
  (readPBM file).2 = (readPBM file').2.
Proof.
  intros Hk.
  assert (Text (afterMagic file) = Text (afterMagic file')) as Hm
    by apply (Hk 1).
  assert (Text (afterDims file) = Text (afterDims file')) as Hd
    by apply (Hk 2).
  destruct (validMagic_dec file) as [Hv|Hnv].
  - assert (validMagic file') as Hv'
      by (unfold validMagic in *; by rewrite <- Hm).
    pose proof (readPBM_valid file Hv) as H1.
    pose proof (readPBM_valid file' Hv') as H2.
    rewrite <- Hd in H2.
    destruct (fmt.Sscanf_d_d _ 0 0) as [[n w] h].
    rewrite H1, H2, Hm. unfold isP1. rewrite Hm. do 2 f_equal.
    apply list_fmap_ext. intros _ i _. f_equal.
    unfold afterDims. rewrite <- !scanN_add. apply Hk.
  - assert (¬ validMagic file') as Hnv'
      by (unfold validMagic in *; by rewrite <- Hm).
    by rewrite !readPBM_invalid, Hm by done.
Qed.

(** X21.  A file whose lines end with a carriage return and a line feed
    is read as the file of the same lines ended by a line feed: the
    scanner drops the carriage return, in the magic number, the
    dimensions and the rows alike. *)
Theorem line_endings (lines : list gostring) :
  Forall (λ l, plain l ∧ (Z.of_nat (length l) + 1 < MaxScanTokenSize)%Z)
    lines →
  (readPBM (dosFile lines)).2 = (readPBM (unixFile lines)).2.
Proof.
  intros Hlines. apply readPBM_by_lines. intros k.
  by apply scanN_line_endings.
Qed.

Lemma line_endings_witness :
  (readPBM (dosFile [str "P1"; str "3 2"; str "1 0 1"; str "0 1 0"])).2
  = (readPBM (unixFile [str "P1"; str "3 2"; str "1 0 1"; str "0 1 0"])).2.
Proof.
  apply (line_endings [str "P1"; str "3 2"; str "1 0 1"; str "0 1 0"]).
  repeat (apply Forall_cons_2;
          [split; [apply plain_printable;
                   repeat (apply Forall_cons_2; [by vm_compute|]);
                   apply Forall_nil_2
                  |by vm_compute]|]).
  apply Forall_nil_2.
Defined.

(* ===================================================================== *)
(** * The line of the dimensions *)
(* ===================================================================== *)

Section Header.
Import fmt.
Local Open Scope Z_scope.

Lemma Sscanf_trailing w h rest a b :
  is_int w → is_int h → ends_number (utf8.runes rest) →
  Sscanf_d_d (fmt_d w ++ str " " ++ fmt_d h ++ rest) a b = (2%nat, w, h).
Proof.
  intros Hw Hh Hrest. unfold Sscanf_d_d.
  rewrite runes_app_ascii by apply fmt_d_ascii.
  change (str " " ++ fmt_d h ++ rest) with (byte_of 32 :: fmt_d h ++ rest).
  rewrite runes_cons_ascii by (by rewrite code_byte_of).
  rewrite runes_app_ascii by apply fmt_d_ascii.
  rewrite code_byte_of by lia.
  destruct (fmt_d_head w) as (cw & dw & Ew & Hcw).
  destruct (fmt_d_head h) as (ch & dh & Eh & Hch).
  pose proof (scanInt_fmt_d w (32 :: (code <$> fmt_d h) ++ utf8.runes rest)
                Hw eq_refl) as Hs1.
  pose proof (scanInt_fmt_d h (utf8.runes rest) Hh Hrest) as Hs2.
  revert Hs1 Hs2. rewrite Ew, Eh. cbn [app]. intros Hs1 Hs2.
  rewrite SkipSpace_printable by done. cbn [mbind option_bind].
  rewrite Hs1.
  unfold advanceSpace. change (isSpace 32) with true.
  change (32 =? newline) with false. cbv iota beta. cbn [negb skipBlank].
  change (isSpace 32 && negb (32 =? newline)) with true. cbv iota.
  rewrite isSpace_printable by done. cbn [andb mbind option_bind].
  rewrite SkipSpace_printable by done. cbn [mbind option_bind].
  by rewrite Hs2.
Qed.
End Header.

(** X22.  Of the second line only the two integers count: whatever
    follows the height on that line, a comment or a third number, is
    ignored as long as it does not continue the number, and the integers
    may be zero or negative; the image then has the width and the height
    read and as many rows as the height says, none for a height that is
    not positive. *)
Theorem header_trailing_text (magic rest body : gostring) (w h : Z) :
  magic = str "P1" ∨ magic = str "P4" →
  is_int w → is_int h →
  plain rest → (Z.of_nat (length rest) < 65000)%Z →
  ends_number (utf8.runes rest) →
  ∃ pbm,
    (readPBM (magic ++ LF :: (fmt.fmt_d w ++ str " " ++ fmt.fmt_d h ++ rest)
                ++ LF :: body)).2 = Ok pbm
    ∧ magicNumber pbm = magic ∧ width pbm = w ∧ height pbm = h
    ∧ length (data pbm) = Z.to_nat h.
Proof.
  intros Hmagic Hw Hh Hplain Hlen Hrest.
  assert (plain magic ∧ (Z.of_nat (length magic) < MaxScanTokenSize)%Z)
    as [Hpm Hlm] by (destruct Hmagic as [->| ->]; split;
                     (by repeat constructor) || done).
  unfold readPBM, NewScanner. rewrite Scan_line by done. cbn [Text token].
  set (line := fmt.fmt_d w ++ str " " ++ fmt.fmt_d h ++ rest).
  assert (plain line) as Hpl.
  { unfold line. change (str " " ++ fmt.fmt_d h ++ rest)
      with ([byte_of 32] ++ fmt.fmt_d h ++ rest).
    repeat apply Forall_app_2; try done;
      apply plain_printable; try apply fmt_d_printable.
    apply Forall_cons_2; [by vm_compute|apply Forall_nil_2]. }
  assert (Z.of_nat (length line) < MaxScanTokenSize)%Z as Hll.
  { unfold line. rewrite !length_app.
    pose proof (fmt_d_length w). pose proof (fmt_d_length h).
    unfold MaxScanTokenSize. simpl. lia. }
  assert (∃ p1, (if bool_decide (magic = str "P1") then Some true
                 else if bool_decide (magic = str "P4") then Some false
                 else None) = Some p1) as [p1 ->].
  { destruct Hmagic as [->| ->]; eexists; reflexivity. }
  rewrite Scan_line by done. cbn [Text token]. unfold line.
  rewrite Sscanf_trailing by done.
  destruct (readRows _ _ _ _) as [sc rows] eqn:Hrows.
  apply (f_equal snd) in Hrows. rewrite readRows_spec in Hrows.
  cbn [snd] in *. subst rows. eexists. split; [reflexivity|].
  cbn. split_and!; try done. by rewrite length_fmap, length_seq.
Qed.

Lemma header_trailing_text_witness :
  ∃ pbm,
    (readPBM (str "P1" ++ LF :: (fmt.fmt_d 3 ++ str " " ++ fmt.fmt_d (-2)
                                   ++ str " # no rows")
                ++ LF :: str "101")).2 = Ok pbm
    ∧ magicNumber pbm = str "P1" ∧ width pbm = 3%Z ∧ height pbm = (-2)%Z
    ∧ length (data pbm) = Z.to_nat (-2).
Proof.
  apply (header_trailing_text (str "P1") (str " # no rows") (str "101")
           3 (-2)).
  - by left.
  - by vm_compute.
  - by vm_compute.
  - apply plain_printable.
    repeat (apply Forall_cons_2; [by vm_compute|]). apply Forall_nil_2.
  - by vm_compute.
  - reflexivity.
Defined.

(* ===================================================================== *)
(** * main *)
(* ===================================================================== *)

(** X23.  When example.pbm cannot be read, or the image read has no pixel
    in column 2 of row 3, main writes no file: in the first case it
    prints the error and returns, in the second it prints the image and
    its size and then stops at At(2, 3) with an index out of range. *)
Theorem main_without_pixel fs :
  (∀ err, ReadPBM fs (str "example.pbm") = Err err →
     main fs = (fs, [Println [VString (str "Error:"); VError err]], Returned))
  ∧ (∀ pbm, ReadPBM fs (str "example.pbm") = Ok pbm → ¬ in_grid pbm 2 3 →
       ∃ out, main fs = (fs, out, Panicked) ∧ length out = 6
         ∧ last out = Some (Printf "Image Size: %d x %d\n"
                              [VInt (width pbm); VInt (height pbm)])).
Proof.
  unfold main. split.
  - by intros err ->.
  - intros pbm -> Hout. cbn [Size].
    destruct (At pbm 2 3) as [v|] eqn:HAt.
    + destruct Hout. apply At_is_Some. by eexists.
    + eexists. split; [reflexivity|]. done.
Qed.

Lemma main_without_pixel_witness :
  ∃ out,
    main (one_file (str "example.pbm") (saveBytes image_3x2))
    = (one_file (str "example.pbm") (saveBytes image_3x2), out, Panicked)
    ∧ length out = 6
    ∧ last out = Some (Printf "Image Size: %d x %d\n"
                         [VInt (width image_3x2); VInt (height image_3x2)]).
Proof.
  assert (ReadPBM (one_file (str "example.pbm") (saveBytes image_3x2))
            (str "example.pbm") = Ok image_3x2) as Hread by (by vm_compute).
  assert (¬ in_grid image_3x2 2 3) as Hout.
  { intros (_ & row & Hrow & _). discriminate Hrow. }
  exact (proj2 (main_without_pixel _) image_3x2 Hread Hout).
Defined.

(** X24.  When the image read from example.pbm has a pixel in column 2 of
    row 3, main returns after nine print calls, whatever becomes of the
    Save: the value printed for the pixel is the one read before the Set,
    the image printed after it is the image with that pixel set, and the
    last line reports the success when Save returned no error and prints
    the error of Save otherwise.  The file system is left as the Save of
    the image with the pixel set left it; when Save returned no error,
    output.pbm holds what Save writes for that image. *)
Theorem main_saves_the_image fs pbm :
  ReadPBM fs (str "example.pbm") = Ok pbm →
  in_grid pbm 2 3 →
  ∃ value pbm' out,
    At pbm 2 3 = Some value
    ∧ Set_ pbm 2 3 true = Some pbm'
    ∧ main fs = ((Save fs pbm' (str "output.pbm")).1, out, Returned)
    ∧ length out = 9
    ∧ out !! 6 = Some (Printf "Value at (2, 3): %t\n" [VBool value])
    ∧ out !! 7
      = Some (Println [VString (str "After setting value at (2, 3) to true:");
                       VData (data pbm')])
    ∧ last out
      = Some (match (Save fs pbm' (str "output.pbm")).2 with
              | None => Println [VString (str "Image saved successfully.")]
              | Some err =>
                Println [VString (str "Error saving PBM image:"); VError err]
              end)
    ∧ ((Save fs pbm' (str "output.pbm")).2 = None →
       os.Open (main fs).1.1 (str "output.pbm") = Some (saveBytes pbm')).
Proof.
  intros Hread Hin. unfold main. rewrite Hread. cbn [Size].
  destruct (proj2 (At_is_Some pbm 2 3) Hin) as [value HAt].
  destruct (proj2 (Set_is_Some pbm 2 3 true) Hin) as [pbm' HSet].
  rewrite HAt, HSet. exists value, pbm'.
  destruct (Save fs pbm' (str "output.pbm")) as [fs' [err|]] eqn:HSave;
    eexists; cbn [fst snd];
    (split_and!; [reflexivity..|]); [done|].
  intros _. by apply (Save_written fs pbm').
Qed.

Lemma main_saves_the_image_witness :
  ∃ pbm' out,
    Set_ blank_3x4 2 3 true = Some pbm'
    ∧ main (one_file (str "example.pbm") (saveBytes blank_3x4))
      = ((Save (one_file (str "example.pbm") (saveBytes blank_3x4)) pbm'
            (str "output.pbm")).1, out, Returned)
    ∧ length out = 9
    ∧ out !! 6 = Some (Printf "Value at (2, 3): %t\n" [VBool false])
    ∧ last out = Some (Println [VString (str "Image saved successfully.")])
    ∧ os.Open (main (one_file (str "example.pbm") (saveBytes blank_3x4))).1.1
        (str "output.pbm") = Some (saveBytes pbm').
Proof.
  assert (ReadPBM (one_file (str "example.pbm") (saveBytes blank_3x4))
            (str "example.pbm") = Ok blank_3x4) as Hread by (by vm_compute).
  assert (in_grid blank_3x4 2 3) as Hin.
  { split; [lia|]. exists [false; false; false]. split; [reflexivity|].
    simpl. lia. }
  destruct (main_saves_the_image _ _ Hread Hin)
    as (value & pbm' & out & HAt & HSet & Hmain & Hlen & H6 & _ & Hlast
        & Hfile).
  assert (value = false) as -> by (vm_compute in HAt; congruence).
  assert (pbm' = with_data blank_3x4
                   (<[3 := [false; false; true]]> (data blank_3x4)))
    as Hpbm' by (vm_compute in HSet; injection HSet as <-; reflexivity).
  assert ((Save (one_file (str "example.pbm") (saveBytes blank_3x4)) pbm'
             (str "output.pbm")).2 = None) as Hok
    by (rewrite Hpbm'; reflexivity).
  rewrite Hok in Hlast.
  exists pbm', out. split_and!; [done..|]. by apply Hfile.
Defined.

(** On a disk that takes ten bytes, main prints the error of the write and
    returns; output.pbm is left with the first ten bytes of the image. *)
Example main_on_a_small_disk :
  ∃ fs' out,
    main (small_disk (str "example.pbm") (saveBytes blank_3x4) 10)
    = (fs', out, Returned)
    ∧ last out
      = Some (Println [VString (str "Error saving PBM image:");
                       VError (PathError "write" (str "output.pbm"))])
    ∧ os.Open fs' (str "output.pbm")
      = Some (str "P1" ++ [LF] ++ str "3 4" ++ [LF] ++ str "0 0").
Proof. eexists _, _. split_and!; by vm_compute. Qed.

Lemma Set_dims_ok pbm x y v pbm' :
  dims_ok pbm → Set_ pbm x y v = Some pbm' → dims_ok pbm'.
Proof.
  intros [Hlen Hrows] HSet.
  destruct (proj1 (Set_is_Some pbm x y v)) as (Hy0 & row & Hrow & Hx);
    [by eexists|].
  replace y with (Z.of_nat (Z.to_nat y)) in HSet by lia.
  rewrite (Set_row _ _ _ _ _ Hrow) in HSet.
  replace x with (Z.of_nat (Z.to_nat x)) in HSet by lia.
  rewrite assign_nat in HSet by lia. injection HSet as <-.
  split; cbn [data with_data width height].
  - by rewrite length_insert.
  - apply Forall_insert; [done|]. rewrite length_insert.
    rewrite Forall_forall in Hrows. apply Hrows.
    by eapply list_elem_of_lookup_2.
Qed.

(** X25.  main from end to end.  Let example.pbm hold what Save writes
    for a P1 image that satisfies the dimension invariant, with three
    columns and four rows at least and fewer than 32768 columns, and let
    the Save of the image with the pixel in column 2 of row 3 set return
    no error.  Then main returns, its last line reports the success, and
    ReadPBM at output.pbm gives that image with the pixel set and every
    other pixel as it was. *)
Theorem main_end_to_end fs pbm :
  magicNumber pbm = str "P1" → dims_ok pbm →
  is_int (width pbm) → is_int (height pbm) →
  (3 ≤ width pbm < 32768)%Z → (4 ≤ height pbm)%Z →
  os.Open fs (str "example.pbm") = Some (saveBytes pbm) →
  (∀ p, Set_ pbm 2 3 true = Some p →
        (Save fs p (str "output.pbm")).2 = None) →
  ∃ pbm', Set_ pbm 2 3 true = Some pbm'
    ∧ (main fs).2 = Returned
    ∧ last (main fs).1.2
      = Some (Println [VString (str "Image saved successfully.")])
    ∧ ReadPBM (main fs).1.1 (str "output.pbm") = Ok pbm'
    ∧ At pbm' 2 3 = Some true
    ∧ ∀ x y, (x, y) ≠ (2, 3)%Z → At pbm' x y = At pbm x y.
Proof.
  intros Hm Hok Hw Hh Hwide Htall Hopen Hsaved.
  assert (ReadPBM fs (str "example.pbm") = Ok pbm) as Hread.
  { unfold ReadPBM. rewrite Hopen. by apply readPBM_saveBytes_P1; try lia. }
  assert (in_grid pbm 2 3) as Hin.
  { destruct Hok as [Hlen Hrows]. split; [lia|].
    destruct (lookup_lt_is_Some_2 (data pbm) (Z.to_nat 3)) as [row Hrow];
      [lia|].
    exists row. split; [done|]. rewrite Forall_forall in Hrows.
    rewrite (Hrows row) by (by eapply list_elem_of_lookup_2). lia. }
  destruct (Set_then_At_rows pbm 2 3 true Hin)
    as (row & Hrow & HSet & HAt & Hframe).
  set (pbm' := with_data pbm _) in *.
  exists pbm'. split; [done|].
  pose proof (Hsaved pbm' HSet) as Hnone.
  pose proof (Set_dims_ok _ _ _ _ _ Hok HSet) as Hok'.
  destruct (proj2 (At_is_Some pbm 2 3) Hin) as [value HAtv].
  unfold main. rewrite Hread. cbn [Size]. rewrite HAtv, HSet.
  destruct (Save fs pbm' (str "output.pbm")) as [fs' [err|]] eqn:HSave;
    [done|]. cbn [fst snd].
  split_and!; [done|done| |done|done].
  unfold ReadPBM. rewrite (Save_written _ _ _ _ HSave).
  apply readPBM_saveBytes_P1; [exact Hm|exact Hok'|exact Hw|exact Hh|].
  change (width pbm < 32768)%Z. lia.
Qed.

Lemma main_end_to_end_witness :
  ∃ pbm', Set_ blank_3x4 2 3 true = Some pbm'
    ∧ (main (one_file (str "example.pbm") (saveBytes blank_3x4))).2
      = Returned
    ∧ last (main (one_file (str "example.pbm") (saveBytes blank_3x4))).1.2
      = Some (Println [VString (str "Image saved successfully.")])
    ∧ ReadPBM (main (one_file (str "example.pbm") (saveBytes blank_3x4))).1.1
        (str "output.pbm") = Ok pbm'
    ∧ At pbm' 2 3 = Some true
    ∧ ∀ x y, (x, y) ≠ (2, 3)%Z → At pbm' x y = At blank_3x4 x y.
Proof.
  assert (dims_ok blank_3x4) as Hok
    by (split; [reflexivity | repeat constructor]).
  assert (is_int 3 ∧ is_int 4) as [Hw Hh] by (split; by vm_compute).
  apply (main_end_to_end
           (one_file (str "example.pbm") (saveBytes blank_3x4)) blank_3x4
           eq_refl Hok Hw Hh); [simpl; lia|simpl; lia|reflexivity|].
  intros p Hp. vm_compute in Hp. injection Hp as <-. reflexivity.
Defined.
